(** * CuzoNet WhatsApp bot: intake and reconciliation engine

    A shallow embedding of [whatsapp-bot/bot.js]: the payment scanner of
    [procesarPago], the field classifier and upsert flow of
    [registrarCliente], the resolver [buscarCliente] and the
    [message_create] dispatcher, with the properties of the engine's
    specification stated and proved over them.

    JavaScript strings are sequences of UTF-16 code units, numbers are
    IEEE doubles (carried here by their exact rational value), regular
    expressions are embedded as terms of a small regex algebra decided by
    derivatives, and the handlers run in a reader/writer/exception monad
    over the answers of the registry.

    Assumptions of the model: the records of the roster carry the fields
    of the data model with their types ([plan], [telefono] and
    [direccion] possibly [null]); [message.reply] delivers its text and
    returns; output to the console is left out; the host's
    [toLowerCase] and [normalize] are parameters. *)

From Stdlib Require Import List Bool Arith ZArith NArith QArith Lia String Ascii.
Import ListNotations.

Close Scope Q_scope.

(** ** JavaScript strings *)

Module JS.
Local Open Scope N_scope.

(** A UTF-16 code unit and a string of them. *)
Definition cu := N.
Definition jsstring := list cu.

(** An ASCII literal of the source as a [jsstring]. *)
Definition lit (s : string) : jsstring :=
  List.map N_of_ascii (list_ascii_of_string s).

Definition cu_eqb (a b : cu) : bool := N.eqb a b.

Fixpoint str_eqb (s t : jsstring) : bool :=
  match s, t with
  | [], [] => true
  | a :: s', b :: t' => cu_eqb a b && str_eqb s' t'
  | _, _ => false
  end.

(** Truthiness of a string: only [''] is falsy. *)
Definition truthy (s : jsstring) : bool :=
  match s with [] => false | _ :: _ => true end.

Definition in_range (lo hi c : cu) : bool := (N.leb lo c && N.leb c hi)%bool.

(** [\d] *)
Definition is_digit (c : cu) : bool := in_range 48 57 c.

(** [\s], which is also the set removed by [trim] and skipped by
    [parseFloat]: WhiteSpace and LineTerminator code units. *)
Definition is_space (c : cu) : bool :=
  (in_range 9 13 c || cu_eqb c 32 || cu_eqb c 160 || cu_eqb c 5760
   || in_range 8192 8202 c || cu_eqb c 8232 || cu_eqb c 8233
   || cu_eqb c 8239 || cu_eqb c 8287 || cu_eqb c 12288 || cu_eqb c 65279)%bool.

Fixpoint dropWhile (p : cu -> bool) (s : jsstring) : jsstring :=
  match s with
  | [] => []
  | c :: s' => if p c then dropWhile p s' else s
  end.

Fixpoint takeWhile (p : cu -> bool) (s : jsstring) : jsstring :=
  match s with
  | [] => []
  | c :: s' => if p c then c :: takeWhile p s' else []
  end.

(** [s.trim()] *)
Definition trim (s : jsstring) : jsstring :=
  rev (dropWhile is_space (rev (dropWhile is_space s))).

(** [s.startsWith(p)] *)
Fixpoint startsWith (p s : jsstring) : bool :=
  match p, s with
  | [], _ => true
  | a :: p', b :: s' => cu_eqb a b && startsWith p' s'
  | _ :: _, [] => false
  end.

(** [s.includes(p)] *)
Fixpoint includes (s p : jsstring) : bool :=
  startsWith p s || match s with [] => false | _ :: s' => includes s' p end.

(** [s.substring(n)] *)
Definition substring_from (n : nat) (s : jsstring) : jsstring := skipn n s.

(** [l.join(sep)] *)
Fixpoint join (sep : jsstring) (l : list jsstring) : jsstring :=
  match l with
  | [] => []
  | [s] => s
  | s :: l' => s ++ sep ++ join sep l'
  end.

(** [s.split(c)] for a one-character separator: never the empty list. *)
Fixpoint split_char_aux (sep : cu) (cur : jsstring) (s : jsstring) : list jsstring :=
  match s with
  | [] => [rev cur]
  | c :: s' =>
      if cu_eqb c sep then rev cur :: split_char_aux sep [] s'
      else split_char_aux sep (c :: cur) s'
  end.
Definition split_char (sep : cu) (s : jsstring) : list jsstring :=
  split_char_aux sep [] s.

(** [s.split(/\s+/)]: cut at every maximal run of white space; a leading
    or trailing run leaves an empty first or last piece. *)
Fixpoint split_ws_aux (cur : jsstring) (skipping : bool) (s : jsstring) : list jsstring :=
  match s with
  | [] => [rev cur]
  | c :: s' =>
      if is_space c then
        if skipping then split_ws_aux cur true s'
        else rev cur :: split_ws_aux [] true s'
      else split_ws_aux (c :: cur) false s'
  end.
Definition split_ws (s : jsstring) : list jsstring := split_ws_aux [] false s.

(** [s.replace(c, '')] with a one-character string pattern: the first
    occurrence only. *)
Fixpoint remove_first (c : cu) (s : jsstring) : jsstring :=
  match s with
  | [] => []
  | x :: s' => if cu_eqb x c then s' else x :: remove_first c s'
  end.

(** [s.replace(/[...]/g, '')]: every code unit of the class. *)
Definition remove_all (p : cu -> bool) (s : jsstring) : jsstring :=
  filter (fun c => negb (p c)) s.

End JS.
Import JS.

(** ** Regular expressions *)

Module Regex.
Local Open Scope N_scope.

(** The fragment the bot's patterns need; a character class is a
    predicate on code units. *)
Inductive regex : Type :=
| Void
| Eps
| Cls (p : cu -> bool)
| Seq (r1 r2 : regex)
| Alt (r1 r2 : regex)
| Star (r : regex).

Fixpoint nullable (r : regex) : bool :=
  match r with
  | Void => false
  | Eps => true
  | Cls _ => false
  | Seq r1 r2 => nullable r1 && nullable r2
  | Alt r1 r2 => nullable r1 || nullable r2
  | Star _ => true
  end.

Fixpoint deriv (c : cu) (r : regex) : regex :=
  match r with
  | Void => Void
  | Eps => Void
  | Cls p => if p c then Eps else Void
  | Seq r1 r2 =>
      if nullable r1 then Alt (Seq (deriv c r1) r2) (deriv c r2)
      else Seq (deriv c r1) r2
  | Alt r1 r2 => Alt (deriv c r1) (deriv c r2)
  | Star r1 => Seq (deriv c r1) (Star r1)
  end.

(** The whole string belongs to the language of [r]. *)
Fixpoint matches (r : regex) (s : jsstring) : bool :=
  match s with
  | [] => nullable r
  | c :: s' => matches (deriv c r) s'
  end.

(** Denotation of a regex, against which the matcher is validated. *)
Inductive Lang : regex -> jsstring -> Prop :=
| LEps : Lang Eps []
| LCls p c : p c = true -> Lang (Cls p) [c]
| LSeq r1 r2 s1 s2 : Lang r1 s1 -> Lang r2 s2 -> Lang (Seq r1 r2) (s1 ++ s2)
| LAltL r1 r2 s : Lang r1 s -> Lang (Alt r1 r2) s
| LAltR r1 r2 s : Lang r2 s -> Lang (Alt r1 r2) s
| LStar0 r : Lang (Star r) []
| LStarS r s1 s2 : Lang r s1 -> Lang (Star r) s2 -> Lang (Star r) (s1 ++ s2).

(** Pattern combinators. *)
Definition chr (c : cu) : regex := Cls (cu_eqb c).
Definition any : regex := Cls (fun _ => true).
Definition opt (r : regex) : regex := Alt r Eps.
Definition plus (r : regex) : regex := Seq r (Star r).

(** [r{n}] *)
Fixpoint rep (n : nat) (r : regex) : regex :=
  match n with
  | O => Eps
  | S n' => Seq r (rep n' r)
  end.

(** [r{0,n}] *)
Fixpoint upto (n : nat) (r : regex) : regex :=
  match n with
  | O => Eps
  | S n' => opt (Seq r (upto n' r))
  end.

(** [r{lo,hi}] and [r{lo,}] *)
Definition rep_range (lo hi : nat) (r : regex) : regex :=
  Seq (rep lo r) (upto (hi - lo) r).
Definition rep_min (lo : nat) (r : regex) : regex := Seq (rep lo r) (Star r).

(** A letter under the [i] flag: the code unit of either case. *)
Definition chr_i (lower upper : cu) : regex :=
  Cls (fun c => cu_eqb c lower || cu_eqb c upper).

Fixpoint seq_of (l : list regex) : regex :=
  match l with
  | [] => Eps
  | r :: l' => Seq r (seq_of l')
  end.

Fixpoint alt_of (l : list regex) : regex :=
  match l with
  | [] => Void
  | [r] => r
  | r :: l' => Alt r (alt_of l')
  end.

(** [/^r$/.test(s)] and the unanchored [/r/.test(s)]. *)
Definition test_anchored (r : regex) (s : jsstring) : bool := matches r s.
Definition test (r : regex) (s : jsstring) : bool :=
  matches (Seq (Star any) (Seq r (Star any))) s.

End Regex.
Import Regex.

(** ** JavaScript numbers *)

Module Num.
Local Open Scope Z_scope.

(** A Number value: an IEEE double carried by its exact rational value
    (the two zeros are not told apart: nothing in the bot does). *)
Inductive number : Type :=
| NaN
| Inf (neg : bool)
| Fin (q : Q).

Definition num (z : Z) : number := Fin (inject_Z z).

(** Order of two numbers; [None] when one of them is [NaN]. *)
Definition cmp (a b : number) : option comparison :=
  match a, b with
  | NaN, _ | _, NaN => None
  | Inf true, Inf true | Inf false, Inf false => Some Eq
  | Inf true, _ | _, Inf false => Some Lt
  | Inf false, _ | _, Inf true => Some Gt
  | Fin x, Fin y => Some (Qcompare x y)
  end.

(** [a >= b], [a <= b], [a > b], [a === b], [a !== b], [isNaN(a)]. *)
Definition ge (a b : number) : bool :=
  match cmp a b with Some Gt | Some Eq => true | _ => false end.
Definition le (a b : number) : bool :=
  match cmp a b with Some Lt | Some Eq => true | _ => false end.
Definition gt (a b : number) : bool :=
  match cmp a b with Some Gt => true | _ => false end.
Definition seq (a b : number) : bool :=
  match cmp a b with Some Eq => true | _ => false end.
Definition sne (a b : number) : bool := negb (seq a b).
Definition isNaN (a : number) : bool :=
  match a with NaN => true | _ => false end.

(** Nearest integer to [n / d] ([d > 0]), ties to even. *)
Definition round_half_even (n d : Z) : Z :=
  let f := n / d in
  match 2 * (n mod d) ?= d with
  | Lt => f
  | Gt => f + 1
  | Eq => if Z.even f then f else f + 1
  end.

(** [floor (log2 (n / d))] for positive [n] and [d]. *)
Definition ilog2 (n d : Z) : Z :=
  let e := Z.log2 n - Z.log2 d in
  let below := if 0 <=? e then n <? d * 2 ^ e else n * 2 ^ (- e) <? d in
  if below then e - 1 else e.

(** The double nearest to [n / d] ([n], [d] positive): 53 significant
    bits, exponents from -1022 (below it the spacing stays [2^-1074]),
    overflow to infinity from [2^1024]. *)
Definition nearest_double (neg : bool) (n d : Z) : number :=
  if n =? 0 then Fin 0 else
  let e := Z.max (ilog2 n d) (-1022) in
  let k := e - 52 in
  let m := if 0 <=? k then round_half_even n (d * 2 ^ k)
           else round_half_even (n * 2 ^ (- k)) d in
  let s := if neg then - m else m in
  if (0 <=? k) && (2 ^ 1024 <=? m * 2 ^ k) then Inf neg
  else if 0 <=? k then Fin (inject_Z (s * 2 ^ k))
  else Fin (Qred (Qmake s (Z.to_pos (2 ^ (- k))))).

Definition digit_value (c : cu) : Z := Z.of_N c - 48.

Definition digits_value (ds : jsstring) : Z :=
  fold_left (fun acc c => acc * 10 + digit_value c) ds 0.

(** The Number denoted by the decimal digits [ds] scaled by [10^e]. *)
Definition of_decimal (neg : bool) (ds : jsstring) (e : Z) : number :=
  if 0 <=? e then nearest_double neg (digits_value ds * 10 ^ e) 1
  else nearest_double neg (digits_value ds) (10 ^ (- e)).

Definition parse_sign (s : jsstring) : bool * jsstring :=
  match s with
  | c :: s' =>
      if cu_eqb c 45%N then (true, s')
      else if cu_eqb c 43%N then (false, s')
      else (false, s)
  | [] => (false, s)
  end.

(** An ExponentPart at the head of [s] ([e] or [E], a sign, digits);
    0 when there is none. *)
Definition parse_exponent (s : jsstring) : Z :=
  match s with
  | c :: s1 =>
      if cu_eqb c 101%N || cu_eqb c 69%N then
        let (neg, s2) := parse_sign s1 in
        match takeWhile is_digit s2 with
        | [] => 0
        | ds => if neg then - digits_value ds else digits_value ds
        end
      else 0
  | [] => 0
  end.

(** [parseFloat(s)]: skip leading white space, then read the longest
    prefix that is a StrDecimalLiteral; [NaN] when there is none. *)
Definition parseFloat (s : jsstring) : number :=
  let t := dropWhile is_space s in
  let (neg, t1) := parse_sign t in
  if startsWith (lit "Infinity") t1 then Inf neg
  else
    let ip := takeWhile is_digit t1 in
    let r1 := dropWhile is_digit t1 in
    let (fp, r2) :=
      match r1 with
      | c :: r =>
          if cu_eqb c 46%N then (takeWhile is_digit r, dropWhile is_digit r)
          else ([], r1)
      | [] => ([], r1)
      end in
    match ip ++ fp with
    | [] => NaN
    | ds => of_decimal neg ds (parse_exponent r2 - Z.of_nat (List.length fp))
    end.

End Num.
Import Num.

(** ** Data model *)

(** A client record as the registry lists it ([GET /api/clientes]).
    [plan], [telefono] and [direccion] may be [null]. *)
Module Cliente.
Record t : Type := Build {
  id : N;
  nombre : jsstring;
  ip_address : jsstring;
  plan : option jsstring;
  velocidad_download : jsstring;
  velocidad_upload : jsstring;
  telefono : option jsstring;
  direccion : option jsstring;
  dia_corte : number;
  precio_mensual : number;
  estado : jsstring
}.
End Cliente.

(** The local variables of [registrarCliente] that the classifying
    loop assigns. *)
Module Campos.
Record t : Type := Build {
  ip : jsstring;
  plan : jsstring;
  telefono : jsstring;
  direccion : jsstring;
  diaCorteFinal : number;
  precio : number;
  velocidadDown : jsstring;
  velocidadUp : jsstring
}.
End Campos.

(** The object [datosActualizar] sent by [PUT /api/cliente/<id>]: a key
    set under an [if] is an optional field. *)
Module Datos.
Record t : Type := Build {
  nombre : jsstring;
  telefono : option jsstring;
  direccion : option jsstring;
  plan : jsstring;
  velocidad_download : jsstring;
  velocidad_upload : jsstring;
  precio_mensual : option number;
  dia_corte : number
}.
End Datos.

(** The body of [POST /api/cliente]. *)
Module Nuevo.
Record t : Type := Build {
  nombre : jsstring;
  ip_address : jsstring;
  plan : jsstring;
  telefono : jsstring;
  direccion : jsstring;
  dia_corte : number;
  precio_mensual : number;
  velocidad_download : jsstring;
  velocidad_upload : jsstring
}.
End Nuevo.

(** The body of [POST /api/pago]. *)
Module Pago.
Record t : Type := Build {
  cliente_id : N;
  monto : number;
  metodo_pago : jsstring;
  referencia : jsstring;
  notas : jsstring;
  registrado_por : jsstring
}.
End Pago.

(** [CONFIG] *)
Module Config.
Record t : Type := Build {
  GRUPO_ID : jsstring;
  PREFIJO : jsstring;
  METODOS_PAGO : list jsstring
}.
End Config.

Definition CONFIG : Config.t :=
  {| Config.GRUPO_ID := lit "120363419809450940@g.us";
     Config.PREFIJO := lit "!";
     Config.METODOS_PAGO :=
       [lit "efectivo"; lit "transferencia"; lit "deposito"; lit "tarjeta"] |}.

(** An inbound chat message. *)
Module Message.
Record t : Type := Build {
  from : jsstring;
  body : jsstring
}.
End Message.

(** What [buscarCliente] returns: one client object, an array of
    several, or [null]. *)
Inductive resultado : Type :=
| Single (c : Cliente.t)
| Multiple (l : list Cliente.t)
| NotFound.

(** ** The registry and the chat transport *)

(** [response.data] of an HTTP answer of the registry. *)
Module Cuerpo.
Record t : Type := Build {
  success : bool;
  error : option jsstring;
  clientes : option (list Cliente.t)
}.
End Cuerpo.

(** An axios call either resolves with [data] (absent when the body is
    not an object) or rejects; the rejection carries [error.response],
    absent when the registry was not reached, and its [data]. *)
Inductive http_result : Type :=
| Resuelta (data : option Cuerpo.t)
| Rechazada (response : option (option Cuerpo.t)).

(** The registry as seen during one command. *)
Module Registro.
Record t : Type := Build {
  get_clientes : http_result;
  put_cliente : N -> Datos.t -> http_result;
  post_cliente : Nuevo.t -> http_result;
  post_pago : Pago.t -> http_result
}.
End Registro.

Inductive peticion : Type :=
| GET_clientes
| PUT_cliente (id : N) (datos : Datos.t)
| POST_cliente (datos : Nuevo.t)
| POST_pago (datos : Pago.t).

(** One line of the change report of an update. *)
Inductive cambio : Type :=
| CambioNombre (antes ahora : jsstring)
| CambioTelefono (antes : option jsstring) (ahora : jsstring)
| CambioDireccion (antes : option jsstring) (ahora : jsstring)
| CambioPlan (antes : option jsstring) (ahora : jsstring)
| CambioPrecio (antes ahora : number)
| CambioDiaCorte (antes ahora : number).

(** [cambiosTexto]: the joined lines, or ['_Sin cambios detectados_']. *)
Inductive cambios_texto : Type :=
| SinCambiosDetectados
| Cambios (l : list cambio).

(** The texts passed to [message.reply], by kind and payload. *)
Inductive respuesta_chat : Type :=
| FormatoPagoIncorrecto
| MontoNoIdentificado
| FaltaIdentificador
| NoConexionCuzoNet
| SinClientesRegistrados
| ErrorConsultaAPI
| PagoClienteNoEncontrado (identificador : jsstring)
| PagoVariosClientes (l : list Cliente.t)
| PagoRegistrado (c : Cliente.t) (monto : number) (metodo referencia : jsstring)
    (reactivado : bool)
| ErrorAlRegistrarPago (error : jsstring)
| PagoNoConexion
| UsoConsulta
| ConsultaNoEncontrado (identificador : jsstring)
| ConsultaVariosClientes (l : list Cliente.t)
| InformacionCliente (c : Cliente.t)
| FormatoClienteIncorrecto
| NombreObligatorio
| IPNoDetectada
| ClienteActualizado (nombre ip : jsstring) (cambios : cambios_texto)
| ErrorAlActualizar (error : jsstring)
| ClienteRegistrado (datos : Nuevo.t)
| ErrorAlCrear (error : jsstring)
| ErrorProcesarCliente (error : jsstring)
| ClienteNoConexion
| Ayuda
| ComandoNoReconocido
| ErrorInterno.

Inductive evento : Type :=
| Peticion (p : peticion)
| Reply (r : respuesta_chat).

(** What a handler can throw. *)
Inductive exn : Type :=
| Error (message : jsstring)
| TypeError
| AxiosError (response : option (option Cuerpo.t)).

(** ** The handler monad

    A computation reads the registry's answers, logs its requests and
    replies in order, and ends with a value or a thrown exception. *)

Definition M (A : Type) : Type := Registro.t -> list evento * (A + exn).

Definition ret {A} (a : A) : M A := fun _ => ([], inl a).

Definition bind {A B} (m : M A) (f : A -> M B) : M B :=
  fun w =>
    match m w with
    | (l, inl a) => let (l', r) := f a w in (l ++ l', r)
    | (l, inr e) => (l, inr e)
    end.

Definition throw {A} (e : exn) : M A := fun _ => ([], inr e).

(** [try { m } catch (error) { h error }] *)
Definition try_catch {A} (m : M A) (h : exn -> M A) : M A :=
  fun w =>
    match m w with
    | (l, inl a) => (l, inl a)
    | (l, inr e) => let (l', r) := h e w in (l ++ l', r)
    end.

Declare Scope js_scope.
Delimit Scope js_scope with js.
Notation "x <- m ;; k" := (bind m (fun x => k))
  (at level 61, m at next level, right associativity) : js_scope.
Notation "m ;; k" := (bind m (fun _ => k))
  (at level 61, right associativity) : js_scope.
Open Scope js_scope.

Definition settle (p : peticion) (r : http_result) : list evento * (option Cuerpo.t + exn) :=
  match r with
  | Resuelta data => ([Peticion p], inl data)
  | Rechazada response => ([Peticion p], inr (AxiosError response))
  end.

(** [await axios.get(`${CONFIG.API_URL}/api/clientes`)] and the other
    three calls. *)
Definition axios_get_clientes : M (option Cuerpo.t) :=
  fun w => settle GET_clientes (Registro.get_clientes w).
Definition axios_put_cliente (id : N) (d : Datos.t) : M (option Cuerpo.t) :=
  fun w => settle (PUT_cliente id d) (Registro.put_cliente w id d).
Definition axios_post_cliente (d : Nuevo.t) : M (option Cuerpo.t) :=
  fun w => settle (POST_cliente d) (Registro.post_cliente w d).
Definition axios_post_pago (d : Pago.t) : M (option Cuerpo.t) :=
  fun w => settle (POST_pago d) (Registro.post_pago w d).

(** [await message.reply(text)] *)
Definition reply (r : respuesta_chat) : M unit := fun _ => ([Reply r], inl tt).

(** [respuesta.data.x]: a [TypeError] when [data] is undefined. *)
Definition data_of (respuesta : option Cuerpo.t) : M Cuerpo.t :=
  match respuesta with
  | Some d => ret d
  | None => throw TypeError
  end.

(** [s || alt] for a string that may be missing. *)
Definition or_else (s : option jsstring) (alt : jsstring) : jsstring :=
  match s with
  | Some (c :: r) => c :: r
  | _ => alt
  end.

(** The replies in a log. *)
Definition replies (l : list evento) : list respuesta_chat :=
  flat_map (fun e => match e with Reply r => [r] | Peticion _ => [] end) l.


(** ** The patterns of [bot.js] *)

Module Patrones.
Local Open Scope N_scope.

Definition digito : regex := Cls is_digit.
Definition espacio : regex := Cls is_space.

(** A letter of basic Latin or Latin-1 given in lower case, under the
    [i] flag; any other code unit stands for itself. *)
Definition letra_i (c : cu) : regex :=
  if in_range 97 122 c || (in_range 224 254 c && negb (cu_eqb c 247))
  then chr_i c (c - 32) else chr c.

Definition palabra_i (w : jsstring) : regex := seq_of (List.map letra_i w).

(** [/^(\d{1,3}\.){3}\d{1,3}$/] *)
Definition re_ip : regex :=
  Seq (rep 3 (Seq (rep_range 1 3 digito) (chr 46))) (rep_range 1 3 digito).

(** [/mbps|básico|basico|estandar|estándar|premium|avanzado|mega/i] *)
Definition re_plan : regex :=
  alt_of [ palabra_i (lit "mbps");
           palabra_i (lit "b" ++ [225] ++ lit "sico");
           palabra_i (lit "basico");
           palabra_i (lit "estandar");
           palabra_i (lit "est" ++ [225] ++ lit "ndar");
           palabra_i (lit "premium");
           palabra_i (lit "avanzado");
           palabra_i (lit "mega") ].

(** [/[-\s\+]/] *)
Definition guion_espacio_mas (c : cu) : bool :=
  cu_eqb c 45 || is_space c || cu_eqb c 43.

(** [/^\d{8,}$/] *)
Definition re_telefono : regex := rep_min 8 digito.

(** [/^\d+(\.\d+)?$/] *)
Definition re_numero : regex :=
  Seq (plus digito) (opt (Seq (chr 46) (plus digito))).

(** [/[a-záéíóúñ]/i] *)
Definition clase_letra (c : cu) : bool :=
  in_range 97 122 c || in_range 65 90 c
  || existsb (cu_eqb c) [225; 233; 237; 243; 250; 241]
  || existsb (cu_eqb c) [193; 201; 205; 211; 218; 209].
Definition re_letra : regex := Cls clase_letra.

(** [\s*mbps] under the [i] flag, then anything. *)
Definition cola_mbps : regex :=
  Seq (Star espacio) (Seq (palabra_i (lit "mbps")) (Star any)).

(** Group 1 of [campo.match(/(\d+)\s*mbps/i)]: at the leftmost position
    where the pattern matches. [\d+] is greedy and what follows it starts
    with a non-digit, so the group is the whole run of digits there. *)
Fixpoint match_velocidad (s : jsstring) : option jsstring :=
  match s with
  | [] => None
  | _ :: s' =>
      let d := takeWhile is_digit s in
      if truthy d && matches cola_mbps (dropWhile is_digit s) then Some d
      else match_velocidad s'
  end.

End Patrones.
Import Patrones.

(** ** The field classifier of [registrarCliente] *)

Definition esIP (s : jsstring) : bool := test_anchored re_ip s.
Definition esPlan (s : jsstring) : bool := test re_plan s.
Definition esTelefono (s : jsstring) : bool :=
  test_anchored re_telefono (remove_all guion_espacio_mas s).
Definition esNumero (s : jsstring) : bool := test_anchored re_numero s.
Definition tieneLetra (s : jsstring) : bool := test re_letra s.

(** The variables before the loop. *)
Definition campos_iniciales : Campos.t :=
  {| Campos.ip := [];
     Campos.plan := lit "Basico 7Mbps";
     Campos.telefono := [];
     Campos.direccion := [];
     Campos.diaCorteFinal := num 1;
     Campos.precio := num 0;
     Campos.velocidadDown := lit "7M";
     Campos.velocidadUp := lit "7M" |}.

Definition set_ip (v : jsstring) (f : Campos.t) : Campos.t :=
  Campos.Build v (Campos.plan f) (Campos.telefono f) (Campos.direccion f)
    (Campos.diaCorteFinal f) (Campos.precio f)
    (Campos.velocidadDown f) (Campos.velocidadUp f).
Definition set_plan (v : jsstring) (f : Campos.t) : Campos.t :=
  Campos.Build (Campos.ip f) v (Campos.telefono f) (Campos.direccion f)
    (Campos.diaCorteFinal f) (Campos.precio f)
    (Campos.velocidadDown f) (Campos.velocidadUp f).
Definition set_telefono (v : jsstring) (f : Campos.t) : Campos.t :=
  Campos.Build (Campos.ip f) (Campos.plan f) v (Campos.direccion f)
    (Campos.diaCorteFinal f) (Campos.precio f)
    (Campos.velocidadDown f) (Campos.velocidadUp f).
Definition set_direccion (v : jsstring) (f : Campos.t) : Campos.t :=
  Campos.Build (Campos.ip f) (Campos.plan f) (Campos.telefono f) v
    (Campos.diaCorteFinal f) (Campos.precio f)
    (Campos.velocidadDown f) (Campos.velocidadUp f).
Definition set_diaCorteFinal (v : number) (f : Campos.t) : Campos.t :=
  Campos.Build (Campos.ip f) (Campos.plan f) (Campos.telefono f)
    (Campos.direccion f) v (Campos.precio f)
    (Campos.velocidadDown f) (Campos.velocidadUp f).
Definition set_precio (v : number) (f : Campos.t) : Campos.t :=
  Campos.Build (Campos.ip f) (Campos.plan f) (Campos.telefono f)
    (Campos.direccion f) (Campos.diaCorteFinal f) v
    (Campos.velocidadDown f) (Campos.velocidadUp f).
Definition set_velocidades (v : jsstring) (f : Campos.t) : Campos.t :=
  Campos.Build (Campos.ip f) (Campos.plan f) (Campos.telefono f)
    (Campos.direccion f) (Campos.diaCorteFinal f) (Campos.precio f) v v.

(** The branch [else if (/^\d+(\.\d+)?$/.test(campo))]. *)
Definition clasificar_numero (f : Campos.t) (campo : jsstring) : Campos.t :=
  let n := parseFloat campo in
  if ge n (num 1) && le n (num 28)
     && Num.seq (Campos.diaCorteFinal f) (num 1)
     && Num.seq (Campos.precio f) (num 0)
  then
    if ge n (num 50) then set_precio n f
    else set_diaCorteFinal n f
  else if ge n (num 50) then set_precio n f
  else if ge n (num 1) && le n (num 28)
          && Num.seq (Campos.diaCorteFinal f) (num 1)
  then set_diaCorteFinal n f
  else f.

(** The body of [for (const campo of camposRestantes)]. *)
Definition clasificar_campo (f : Campos.t) (campo : jsstring) : Campos.t :=
  if esIP campo then set_ip campo f
  else if esPlan campo then
    let f' := set_plan campo f in
    match match_velocidad campo with
    | Some v => set_velocidades (v ++ lit "M") f'
    | None => f'
    end
  else if esTelefono campo then set_telefono campo f
  else if esNumero campo then clasificar_numero f campo
  else if tieneLetra campo then
    if truthy (Campos.direccion f)
    then set_direccion (Campos.direccion f ++ lit ", " ++ campo) f
    else set_direccion campo f
  else f.

(** The loop over [camposRestantes]. *)
Definition clasificar (camposRestantes : list jsstring) : Campos.t :=
  fold_left clasificar_campo camposRestantes campos_iniciales.

(** [args.join(' ').split('/').map(c => c.trim()).filter(c => c.length > 0)] *)
Definition campos_de (args : list jsstring) : list jsstring :=
  filter (fun c => Nat.ltb 0 (List.length c))
    (List.map trim (split_char 47%N (join (lit " ") args))).

(** [datosActualizar] as the update branch fills it. *)
Definition datosActualizar (nombre : jsstring) (f : Campos.t) : Datos.t :=
  {| Datos.nombre := nombre;
     Datos.telefono :=
       if truthy (Campos.telefono f) then Some (Campos.telefono f) else None;
     Datos.direccion :=
       if truthy (Campos.direccion f) then Some (Campos.direccion f) else None;
     Datos.plan := Campos.plan f;
     Datos.velocidad_download := Campos.velocidadDown f;
     Datos.velocidad_upload := Campos.velocidadUp f;
     Datos.precio_mensual :=
       if gt (Campos.precio f) (num 0) then Some (Campos.precio f) else None;
     Datos.dia_corte := Campos.diaCorteFinal f |}.

(** The body of the create request. *)
Definition datosNuevo (nombre : jsstring) (f : Campos.t) : Nuevo.t :=
  {| Nuevo.nombre := nombre;
     Nuevo.ip_address := Campos.ip f;
     Nuevo.plan := Campos.plan f;
     Nuevo.telefono := Campos.telefono f;
     Nuevo.direccion := Campos.direccion f;
     Nuevo.dia_corte := Campos.diaCorteFinal f;
     Nuevo.precio_mensual := Campos.precio f;
     Nuevo.velocidad_download := Campos.velocidadDown f;
     Nuevo.velocidad_upload := Campos.velocidadUp f |}.

(** [plan !== clienteExistente.plan] *)
Definition plan_distinto (plan : jsstring) (antes : option jsstring) : bool :=
  match antes with
  | Some p => negb (str_eqb plan p)
  | None => true
  end.

(** The array [cambios] after its six conditional [push]es. *)
Definition cambios_de (nombre : jsstring) (f : Campos.t) (c : Cliente.t)
  : list cambio :=
  (if negb (str_eqb nombre (Cliente.nombre c))
   then [CambioNombre (Cliente.nombre c) nombre] else [])
  ++ (if truthy (Campos.telefono f)
         && negb (str_eqb (Campos.telefono f) (or_else (Cliente.telefono c) []))
      then [CambioTelefono (Cliente.telefono c) (Campos.telefono f)] else [])
  ++ (if truthy (Campos.direccion f)
         && negb (str_eqb (Campos.direccion f) (or_else (Cliente.direccion c) []))
      then [CambioDireccion (Cliente.direccion c) (Campos.direccion f)] else [])
  ++ (if negb (str_eqb (Campos.plan f) (lit "Basico 7Mbps"))
         && plan_distinto (Campos.plan f) (Cliente.plan c)
      then [CambioPlan (Cliente.plan c) (Campos.plan f)] else [])
  ++ (if gt (Campos.precio f) (num 0)
         && sne (Campos.precio f) (Cliente.precio_mensual c)
      then [CambioPrecio (Cliente.precio_mensual c) (Campos.precio f)] else [])
  ++ (if sne (Campos.diaCorteFinal f) (Cliente.dia_corte c)
      then [CambioDiaCorte (Cliente.dia_corte c) (Campos.diaCorteFinal f)] else []).

(** [cambios.length > 0 ? cambios.join('\n') : '_Sin cambios detectados_'] *)
Definition cambiosTexto (cambios : list cambio) : cambios_texto :=
  match cambios with
  | [] => SinCambiosDetectados
  | _ :: _ => Cambios cambios
  end.

(** ** The Unicode tables of the host

    [String.prototype.toLowerCase] and [normalize('NFD')] are the
    engine's; the bot is verified for whatever they compute. *)
Class Unicode : Type := {
  toLowerCase : jsstring -> jsstring;
  normalize_NFD : jsstring -> jsstring
}.

(** The state of the scan of [procesarPago]. *)
Module Escaneo.
Record t : Type := Build {
  monto : option number;
  montoIndex : Z;
  metodoPago : jsstring;
  referencia : jsstring
}.
End Escaneo.

(** The four handlers the dispatcher routes to. *)
Module Handlers.
Record t : Type := Build {
  procesarPago : list jsstring -> M unit;
  registrarCliente : list jsstring -> M unit;
  consultarCliente : list jsstring -> M unit;
  mostrarAyuda : M unit
}.
End Handlers.

Section Bot.

Context {U : Unicode}.
Variable cfg : Config.t.

(** [normalizarTexto]: lower case, NFD, drop the combining marks
    U+0300..U+036F, trim. *)
Definition normalizarTexto (texto : jsstring) : jsstring :=
  trim (remove_all (in_range 768%N 879%N) (normalize_NFD (toLowerCase texto))).

(** *** [buscarCliente] *)

Definition coincide_parcial (busqueda : jsstring) (c : Cliente.t) : bool :=
  let nombre := normalizarTexto (Cliente.nombre c) in
  includes nombre busqueda || includes busqueda nombre.

Definition coincide_palabras (palabras : list jsstring) (c : Cliente.t) : bool :=
  let nombre := normalizarTexto (Cliente.nombre c) in
  forallb (fun p => includes nombre p) palabras.

(** The search by name, once the roster is at hand. *)
Definition buscar_por_nombre (clientes : list Cliente.t) (identificador : jsstring)
  : resultado :=
  let busqueda := normalizarTexto identificador in
  match find (fun c => str_eqb (normalizarTexto (Cliente.nombre c)) busqueda)
             clientes with
  | Some exacta => Single exacta
  | None =>
      let coincidencias := filter (coincide_parcial busqueda) clientes in
      let porPalabras :=
        filter (coincide_palabras (split_ws busqueda)) clientes in
      match coincidencias with
      | [] =>
          match porPalabras with
          | [] => NotFound
          | [c] => Single c
          | _ :: _ :: _ => Multiple porPalabras
          end
      | [c] => Single c
      | _ :: _ :: _ => Multiple coincidencias
      end
  end.

Definition buscarCliente (identificador : jsstring) : M resultado :=
  respuesta <- try_catch axios_get_clientes
                 (fun _ => throw (Error (lit "NO_CONEXION"))) ;;
  match respuesta with
  | None => throw (Error (lit "API_ERROR"))
  | Some data =>
      if negb (Cuerpo.success data) then throw (Error (lit "API_ERROR"))
      else
        match Cuerpo.clientes data with
        | None => throw TypeError
        | Some clientes =>
            if Nat.eqb (List.length clientes) 0
            then throw (Error (lit "SIN_CLIENTES"))
            else if esIP identificador then
              match find (fun c => str_eqb (Cliente.ip_address c) identificador)
                         clientes with
              | Some cliente => ret (Single cliente)
              | None => ret NotFound
              end
            else ret (buscar_por_nombre clientes identificador)
        end
  end.

(** The [catch] of the two callers of [buscarCliente]. *)
Definition responder_fallo (error : exn) : M unit :=
  match error with
  | Error m =>
      if str_eqb m (lit "NO_CONEXION") then reply NoConexionCuzoNet
      else if str_eqb m (lit "SIN_CLIENTES") then reply SinClientesRegistrados
      else reply ErrorConsultaAPI
  | _ => reply ErrorConsultaAPI
  end.

Definition buscar_o_responder (identificador : jsstring) : M (option resultado) :=
  try_catch (cliente <- buscarCliente identificador ;; ret (Some cliente))
            (fun error => responder_fallo error ;; ret None).

(** *** [procesarPago] *)

Definition es_referencia (tok : jsstring) : bool :=
  startsWith (lit "ref:") (toLowerCase tok).

Definition es_metodo (tok : jsstring) : bool :=
  existsb (str_eqb (toLowerCase tok)) (Config.METODOS_PAGO cfg).

(** [parseFloat(tok.replace('Q', '').replace('q', ''))] *)
Definition numero_de (tok : jsstring) : number :=
  parseFloat (remove_first 113%N (remove_first 81%N tok)).

(** [!isNaN(num) && num > 0] *)
Definition es_monto (n : number) : bool := negb (isNaN n) && gt n (num 0).

(** [!monto] for a number: zero and [NaN] are falsy. *)
Definition num_falsy (n : number) : bool := isNaN n || Num.seq n (num 0).

Definition escaneo_inicial : Escaneo.t :=
  {| Escaneo.monto := None;
     Escaneo.montoIndex := (-1)%Z;
     Escaneo.metodoPago := lit "efectivo";
     Escaneo.referencia := [] |}.

(** [for (let i = ...; i >= 1; i--)] from index [i] down. *)
Fixpoint escanear_desde (args : list jsstring) (i : nat) (st : Escaneo.t)
  : Escaneo.t :=
  match i with
  | O => st
  | S i' =>
      let tok := nth i args [] in
      if es_referencia tok then
        escanear_desde args i'
          (Escaneo.Build (Escaneo.monto st) (Escaneo.montoIndex st)
             (Escaneo.metodoPago st) (substring_from 4 tok))
      else if es_metodo tok then
        escanear_desde args i'
          (Escaneo.Build (Escaneo.monto st) (Escaneo.montoIndex st)
             (toLowerCase tok) (Escaneo.referencia st))
      else
        let n := numero_de tok in
        if es_monto n then
          Escaneo.Build (Some n) (Z.of_nat i)
            (Escaneo.metodoPago st) (Escaneo.referencia st)
        else escanear_desde args i' st
  end.

Definition escanear (args : list jsstring) : Escaneo.t :=
  escanear_desde args (List.length args - 1) escaneo_inicial.

(** [args.slice(0, montoIndex).join(' ')] *)
Definition identificador_de (args : list jsstring) (st : Escaneo.t) : jsstring :=
  join (lit " ") (firstn (Z.to_nat (Escaneo.montoIndex st)) args).

(** [Array.isArray(cliente) ? cliente[0] : cliente] once the list of
    several has been answered; reading a field of a missing element is
    a [TypeError]. *)
Definition uno_de (cliente : resultado) : M Cliente.t :=
  match cliente with
  | Single c => ret c
  | Multiple (c :: _) => ret c
  | _ => throw TypeError
  end.

Definition registrar_pago (cliente : resultado) (st : Escaneo.t) (monto : number)
  : M unit :=
  try_catch
    (clienteData <- uno_de cliente ;;
     respuesta <- axios_post_pago
       {| Pago.cliente_id := Cliente.id clienteData;
          Pago.monto := monto;
          Pago.metodo_pago := Escaneo.metodoPago st;
          Pago.referencia := Escaneo.referencia st;
          Pago.notas := lit "Registrado via WhatsApp Bot";
          Pago.registrado_por := lit "whatsapp-bot" |} ;;
     data <- data_of respuesta ;;
     if Cuerpo.success data then
       reply (PagoRegistrado clienteData monto (Escaneo.metodoPago st)
                (Escaneo.referencia st)
                (str_eqb (Cliente.estado clienteData) (lit "cortado")
                 || str_eqb (Cliente.estado clienteData) (lit "suspendido")))
     else reply (ErrorAlRegistrarPago
                   (or_else (Cuerpo.error data) (lit "Error desconocido"))))
    (fun _ => reply PagoNoConexion).

Definition procesarPago (args : list jsstring) : M unit :=
  if Nat.ltb (List.length args) 2 then reply FormatoPagoIncorrecto
  else
    let st := escanear args in
    match Escaneo.monto st with
    | None => reply MontoNoIdentificado
    | Some monto =>
        if num_falsy monto || Z.ltb (Escaneo.montoIndex st) 1
        then reply MontoNoIdentificado
        else
          let identificador := identificador_de args st in
          if negb (truthy identificador) then reply FaltaIdentificador
          else
            busqueda <- buscar_o_responder identificador ;;
            match busqueda with
            | None => ret tt
            | Some NotFound => reply (PagoClienteNoEncontrado identificador)
            | Some (Multiple (c1 :: c2 :: l)) =>
                reply (PagoVariosClientes (firstn 5 (c1 :: c2 :: l)))
            | Some cliente => registrar_pago cliente st monto
            end
    end.

(** *** [consultarCliente] *)

Definition consultarCliente (args : list jsstring) : M unit :=
  if Nat.ltb (List.length args) 1 then reply UsoConsulta
  else
    let identificador := join (lit " ") args in
    busqueda <- buscar_o_responder identificador ;;
    match busqueda with
    | None => ret tt
    | Some NotFound => reply (ConsultaNoEncontrado identificador)
    | Some (Multiple (c1 :: c2 :: l)) =>
        reply (ConsultaVariosClientes (firstn 10 (c1 :: c2 :: l)))
    | Some cliente => c <- uno_de cliente ;; reply (InformacionCliente c)
    end.

(** *** [registrarCliente] *)

(** The exact lookup of the classified IP that decides between update
    and create; any failure leaves [clienteExistente] at [null]. *)
Definition buscar_existente (ip : jsstring) : M (option Cliente.t) :=
  try_catch
    (resp <- axios_get_clientes ;;
     data <- data_of resp ;;
     if Cuerpo.success data then
       match Cuerpo.clientes data with
       | Some clientes =>
           ret (find (fun c => str_eqb (Cliente.ip_address c) ip) clientes)
       | None => ret None
       end
     else ret None)
    (fun _ => ret None).

Definition actualizar (nombre : jsstring) (f : Campos.t) (c : Cliente.t) : M unit :=
  respuesta <- axios_put_cliente (Cliente.id c) (datosActualizar nombre f) ;;
  data <- data_of respuesta ;;
  if Cuerpo.success data then
    reply (ClienteActualizado nombre (Campos.ip f)
             (cambiosTexto (cambios_de nombre f c)))
  else reply (ErrorAlActualizar
                (or_else (Cuerpo.error data) (lit "Error desconocido"))).

Definition crear (nombre : jsstring) (f : Campos.t) : M unit :=
  respuesta <- axios_post_cliente (datosNuevo nombre f) ;;
  data <- data_of respuesta ;;
  if Cuerpo.success data then reply (ClienteRegistrado (datosNuevo nombre f))
  else reply (ErrorAlCrear
                (or_else (Cuerpo.error data) (lit "No se pudo registrar"))).

Definition responder_error_cliente (error : exn) : M unit :=
  match error with
  | AxiosError (Some (Some data)) =>
      reply (ErrorProcesarCliente
               (or_else (Cuerpo.error data) (lit "Error al procesar cliente")))
  | _ => reply ClienteNoConexion
  end.

Definition registrarCliente (args : list jsstring) : M unit :=
  let campos := campos_de args in
  if Nat.ltb (List.length campos) 2 then reply FormatoClienteIncorrecto
  else
    let nombre := nth 0 campos [] in
    let f := clasificar (skipn 1 campos) in
    if negb (truthy nombre) then reply NombreObligatorio
    else if negb (truthy (Campos.ip f)) then reply IPNoDetectada
    else
      clienteExistente <- buscar_existente (Campos.ip f) ;;
      try_catch
        match clienteExistente with
        | Some c => actualizar nombre f c
        | None => crear nombre f
        end
        responder_error_cliente.

(** *** [mostrarAyuda] *)

Definition mostrarAyuda : M unit := reply Ayuda.

(** *** The [message_create] listener *)

Definition despachar (h : Handlers.t) (message : Message.t) : M unit :=
  try_catch
    (let chatId := Message.from message in
     if truthy (Config.GRUPO_ID cfg)
        && negb (str_eqb chatId (Config.GRUPO_ID cfg))
     then ret tt
     else
       let texto := trim (Message.body message) in
       if negb (startsWith (Config.PREFIJO cfg) texto) then ret tt
       else
         let partes := split_ws (trim (substring_from 1 texto)) in
         match partes with
         | [] => reply ComandoNoReconocido
         | p0 :: _ =>
             let comando := toLowerCase p0 in
             if str_eqb comando (lit "pago")
             then Handlers.procesarPago h (skipn 1 partes)
             else if str_eqb comando (lit "cliente")
             then Handlers.registrarCliente h (skipn 1 partes)
             else if str_eqb comando (lit "consulta")
             then Handlers.consultarCliente h (skipn 1 partes)
             else if str_eqb comando (lit "ayuda") || str_eqb comando (lit "help")
             then Handlers.mostrarAyuda h
             else reply ComandoNoReconocido
         end)
    (fun _ => reply ErrorInterno).

Definition handlers : Handlers.t :=
  {| Handlers.procesarPago := procesarPago;
     Handlers.registrarCliente := registrarCliente;
     Handlers.consultarCliente := consultarCliente;
     Handlers.mostrarAyuda := mostrarAyuda |}.

Definition message_create (message : Message.t) : M unit :=
  despachar handlers message.

End Bot.

(** A host for ASCII text, on which [toLowerCase] folds [A-Z] and NFD
    changes nothing; used to run the bot on concrete commands. *)
Definition ascii_lower (c : cu) : cu :=
  if in_range 65%N 90%N c then (c + 32)%N else c.

Definition ascii_host : Unicode :=
  {| toLowerCase := List.map ascii_lower;
     normalize_NFD := fun s => s |}.

(** ** Readings of the specification

    Definitions that follow the words of the specification, to be
    compared with the code above. *)

(** The specification's telefono rule: "after removing
    spaces/hyphens/parentheses/leading [+], is a run of >= 8 digits". *)
Definition quitar_mas_inicial (s : jsstring) : jsstring :=
  match s with
  | c :: s' => if cu_eqb c 43%N then s' else s
  | [] => []
  end.

Definition telefono_segun_spec (campo : jsstring) : bool :=
  let t := quitar_mas_inicial
             (remove_all (fun c => is_space c || cu_eqb c 45%N
                                   || cu_eqb c 40%N || cu_eqb c 41%N) campo) in
  forallb is_digit t && Nat.leb 8 (List.length t).

(** The fields an update can resend. *)
Inductive campo_reenviado : Type :=
| FNombre | FTelefono | FDireccion | FPlan
| FVelocidadDownload | FVelocidadUpload | FPrecio | FDiaCorte.

(** The specification's change report: "for each resent field, compare
    previous vs. new value (string equality for text, numeric equality
    for price/day) and list only fields whose value differs". *)
Definition cambios_segun_spec (d : Datos.t) (c : Cliente.t) : list campo_reenviado :=
  (if negb (str_eqb (Datos.nombre d) (Cliente.nombre c)) then [FNombre] else [])
  ++ match Datos.telefono d with
     | Some t => if negb (str_eqb t (or_else (Cliente.telefono c) []))
                 then [FTelefono] else []
     | None => []
     end
  ++ match Datos.direccion d with
     | Some t => if negb (str_eqb t (or_else (Cliente.direccion c) []))
                 then [FDireccion] else []
     | None => []
     end
  ++ (if plan_distinto (Datos.plan d) (Cliente.plan c) then [FPlan] else [])
  ++ (if negb (str_eqb (Datos.velocidad_download d) (Cliente.velocidad_download c))
      then [FVelocidadDownload] else [])
  ++ (if negb (str_eqb (Datos.velocidad_upload d) (Cliente.velocidad_upload c))
      then [FVelocidadUpload] else [])
  ++ match Datos.precio_mensual d with
     | Some p => if sne p (Cliente.precio_mensual c) then [FPrecio] else []
     | None => []
     end
  ++ (if sne (Datos.dia_corte d) (Cliente.dia_corte c) then [FDiaCorte] else []).

(** The field a line of the code's report is about. *)
Definition campo_de_cambio (x : cambio) : campo_reenviado :=
  match x with
  | CambioNombre _ _ => FNombre
  | CambioTelefono _ _ => FTelefono
  | CambioDireccion _ _ => FDireccion
  | CambioPlan _ _ => FPlan
  | CambioPrecio _ _ => FPrecio
  | CambioDiaCorte _ _ => FDiaCorte
  end.

(** The specification's "the registry responds without a recognizable
    success indicator": an answer arrived, and it has no body or a body
    without [success], whatever the HTTP status it came with. *)
Definition responde_sin_exito (r : http_result) : bool :=
  match r with
  | Resuelta None => true
  | Resuelta (Some data) => negb (Cuerpo.success data)
  | Rechazada (Some None) => true
  | Rechazada (Some (Some data)) => negb (Cuerpo.success data)
  | Rechazada None => false
  end.

(** ** Derived views of the upsert flow *)

(** [clienteExistente] after the lookup, as a function of the answer
    to [GET /api/clientes]. *)
Definition existente (ip : jsstring) (r : http_result) : option Cliente.t :=
  match r with
  | Resuelta (Some data) =>
      if Cuerpo.success data then
        match Cuerpo.clientes data with
        | Some clientes =>
            find (fun c => str_eqb (Cliente.ip_address c) ip) clientes
        | None => None
        end
      else None
  | _ => None
  end.

(** The roster fetch failed: the call was rejected, or it answered
    without a body or without [success]. *)
Definition consulta_fallida (r : http_result) : Prop :=
  match r with
  | Rechazada _ => True
  | Resuelta None => True
  | Resuelta (Some data) => Cuerpo.success data = false
  end.

(** No segment takes the plan branch, and none the numeric branch. *)
Definition sin_plan (camposRestantes : list jsstring) : Prop :=
  forall campo, In campo camposRestantes ->
    esIP campo = true \/ esPlan campo = false.
Definition sin_numero (camposRestantes : list jsstring) : Prop :=
  forall campo, In campo camposRestantes ->
    esIP campo = true \/ esPlan campo = true \/ esTelefono campo = true
    \/ esNumero campo = false.

(** The resent fields the code's report can mention: never the two
    speeds, and the plan only when it is not the default one. *)
Definition informable (f : Campos.t) (x : campo_reenviado) : bool :=
  match x with
  | FVelocidadDownload | FVelocidadUpload => false
  | FPlan => negb (str_eqb (Campos.plan f) (lit "Basico 7Mbps"))
  | _ => true
  end.

(** ** Derived views of the payment scan *)

Section VistasPago.

Context {U : Unicode}.
Variable cfg : Config.t.

(** The token ends the scan: it is neither a reference nor a method and
    it parses as a positive amount. *)
Definition detiene (tok : jsstring) : bool :=
  negb (es_referencia tok) && negb (es_metodo cfg tok)
  && es_monto (numero_de tok).

(** The method and the reference that a right-to-left pass over
    [tokens] leaves: those of the leftmost method token and of the
    leftmost reference token, else the values held before. *)
Definition metodo_tras (tokens : list jsstring) (antes : jsstring) : jsstring :=
  match find (fun t => negb (es_referencia t) && es_metodo cfg t) tokens with
  | Some t => toLowerCase t
  | None => antes
  end.

Definition referencia_tras (tokens : list jsstring) (antes : jsstring) : jsstring :=
  match find es_referencia tokens with
  | Some t => substring_from 4 t
  | None => antes
  end.

End VistasPago.

(** ** Derived views of the resolver and of the dispatcher *)

(** The error [buscarCliente] throws on an answer of the registry, if
    any: no connection, no [success], a missing roster (reading
    [clientes.length] of undefined), an empty roster. *)
Definition fallo_de (r : http_result) : option exn :=
  match r with
  | Rechazada _ => Some (Error (lit "NO_CONEXION"))
  | Resuelta None => Some (Error (lit "API_ERROR"))
  | Resuelta (Some data) =>
      if negb (Cuerpo.success data) then Some (Error (lit "API_ERROR"))
      else
        match Cuerpo.clientes data with
        | None => Some TypeError
        | Some [] => Some (Error (lit "SIN_CLIENTES"))
        | Some (_ :: _) => None
        end
  end.

(** The roster of a successful answer. *)
Definition lista_de (r : http_result) : list Cliente.t :=
  match r with
  | Resuelta (Some data) =>
      match Cuerpo.clientes data with
      | Some clientes => clientes
      | None => []
      end
  | _ => []
  end.

Section Vistas.

Context {U : Unicode}.
Variable cfg : Config.t.

(** What [buscarCliente] returns on a non-empty roster. *)
Definition resolver (clientes : list Cliente.t) (identificador : jsstring)
  : resultado :=
  if esIP identificador then
    match find (fun c => str_eqb (Cliente.ip_address c) identificador)
               clientes with
    | Some cliente => Single cliente
    | None => NotFound
    end
  else buscar_por_nombre clientes identificador.

(** The listener ignores the message: another chat than the configured
    one, or a text without the prefix. *)
Definition ignorado (message : Message.t) : bool :=
  (truthy (Config.GRUPO_ID cfg)
   && negb (str_eqb (Message.from message) (Config.GRUPO_ID cfg)))
  || negb (startsWith (Config.PREFIJO cfg) (trim (Message.body message))).

(** The command a message that is not ignored runs. *)
Definition seleccion (h : Handlers.t) (message : Message.t) : M unit :=
  let partes :=
    split_ws (trim (substring_from 1 (trim (Message.body message)))) in
  match partes with
  | [] => reply ComandoNoReconocido
  | p0 :: _ =>
      let comando := toLowerCase p0 in
      if str_eqb comando (lit "pago")
      then Handlers.procesarPago h (skipn 1 partes)
      else if str_eqb comando (lit "cliente")
      then Handlers.registrarCliente h (skipn 1 partes)
      else if str_eqb comando (lit "consulta")
      then Handlers.consultarCliente h (skipn 1 partes)
      else if str_eqb comando (lit "ayuda") || str_eqb comando (lit "help")
      then Handlers.mostrarAyuda h
      else reply ComandoNoReconocido
  end.

End Vistas.

(** A computation that, on every registry, either returns having
    replied exactly once or throws having replied nothing. *)
Definition una_respuesta (m : M unit) : Prop :=
  forall w,
    match m w with
    | (l, inl _) => List.length (replies l) = 1
    | (l, inr _) => replies l = []
    end.

(** ** Derived views of the classifier and of the traces *)

(** The rule a segment falls under: the first test of the loop body
    that it passes. *)
Definition rama_plan (campo : jsstring) : bool :=
  negb (esIP campo) && esPlan campo.
Definition rama_telefono (campo : jsstring) : bool :=
  negb (esIP campo) && negb (esPlan campo) && esTelefono campo.
Definition rama_numero (campo : jsstring) : bool :=
  negb (esIP campo) && negb (esPlan campo) && negb (esTelefono campo)
  && esNumero campo.
Definition rama_direccion (campo : jsstring) : bool :=
  negb (esIP campo) && negb (esPlan campo) && negb (esTelefono campo)
  && negb (esNumero campo) && tieneLetra campo.

(** A segment under the plan rule in which [/(\d+)\s*mbps/i] matches,
    and the speed the loop body then assigns to both directions. *)
Definition menciona_velocidad (campo : jsstring) : bool :=
  rama_plan campo
  && match match_velocidad campo with Some _ => true | None => false end.
Definition velocidad_de (campo : jsstring) : jsstring :=
  match match_velocidad campo with
  | Some d => d ++ lit "M"
  | None => lit "7M"
  end.

(** The values of the segments that reach the numeric branch, in order. *)
Definition numeros (camposRestantes : list jsstring) : list number :=
  List.map parseFloat (filter rama_numero camposRestantes).

(** One to three decimal digits. *)
Definition octeto (x : jsstring) : Prop :=
  1 <= List.length x <= 3 /\ forallb is_digit x = true.

(** The requests in a log. *)
Definition peticiones (l : list evento) : list peticion :=
  flat_map (fun e => match e with Peticion p => [p] | Reply _ => [] end) l.

(** A request that changes the registry. *)
Definition es_mutacion (p : peticion) : bool :=
  match p with
  | GET_clientes => false
  | _ => true
  end.

(** A payment method the scan can leave: the default or a configured one. *)
Definition metodo_valido (cfg : Config.t) (m : jsstring) : Prop :=
  m = lit "efectivo" \/ In m (Config.METODOS_PAGO cfg).

(** Any reply but the internal-error text of the listener's [catch]. *)
Definition no_interno (r : respuesta_chat) : bool :=
  match r with
  | ErrorInterno => false
  | _ => true
  end.

(** The logs of a well-behaved command: nothing; one reply; the roster
    fetch and one reply; or the roster fetch, one change and one reply. *)
Definition forma_traza (l : list evento) : bool :=
  match l with
  | [] => true
  | [Reply r] => no_interno r
  | [Peticion GET_clientes; Reply r] => no_interno r
  | [Peticion GET_clientes; Peticion m; Reply r] => es_mutacion m && no_interno r
  | _ => false
  end.

(** ** Sample registries and commands *)

Definition cliente_juan : Cliente.t :=
  {| Cliente.id := 7%N;
     Cliente.nombre := lit "Juan Perez";
     Cliente.ip_address := lit "172.16.1.50";
     Cliente.plan := Some (lit "Premium 20Mbps");
     Cliente.velocidad_download := lit "7M";
     Cliente.velocidad_upload := lit "7M";
     Cliente.telefono := None;
     Cliente.direccion := None;
     Cliente.dia_corte := num 1;
     Cliente.precio_mensual := num 200;
     Cliente.estado := lit "activo" |}.

Definition cliente_juana : Cliente.t :=
  {| Cliente.id := 8%N;
     Cliente.nombre := lit "Juana Perez Lopez";
     Cliente.ip_address := lit "172.16.1.51";
     Cliente.plan := Some (lit "Basico 7Mbps");
     Cliente.velocidad_download := lit "7M";
     Cliente.velocidad_upload := lit "7M";
     Cliente.telefono := Some (lit "32472792");
     Cliente.direccion := None;
     Cliente.dia_corte := num 15;
     Cliente.precio_mensual := num 150;
     Cliente.estado := lit "cortado" |}.

Definition cliente_juan_garcia : Cliente.t :=
  {| Cliente.id := 9%N;
     Cliente.nombre := lit "Juan Perez Garcia";
     Cliente.ip_address := lit "172.16.1.52";
     Cliente.plan := None;
     Cliente.velocidad_download := lit "7M";
     Cliente.velocidad_upload := lit "7M";
     Cliente.telefono := None;
     Cliente.direccion := Some (lit "Aldea Chinaha");
     Cliente.dia_corte := num 5;
     Cliente.precio_mensual := num 100;
     Cliente.estado := lit "suspendido" |}.

(** Another client with the name of [cliente_juan]. *)
Definition cliente_juan_homonimo : Cliente.t :=
  {| Cliente.id := 12%N;
     Cliente.nombre := lit "Juan Perez";
     Cliente.ip_address := lit "172.16.1.53";
     Cliente.plan := Some (lit "Basico 7Mbps");
     Cliente.velocidad_download := lit "7M";
     Cliente.velocidad_upload := lit "7M";
     Cliente.telefono := None;
     Cliente.direccion := Some (lit "Barrio El Centro");
     Cliente.dia_corte := num 10;
     Cliente.precio_mensual := num 150;
     Cliente.estado := lit "activo" |}.

Definition exito : http_result :=
  Resuelta (Some {| Cuerpo.success := true; Cuerpo.error := None;
                    Cuerpo.clientes := None |}).

(** A registry that lists [clientes] and accepts every change. *)
Definition registro_con (clientes : list Cliente.t) : Registro.t :=
  {| Registro.get_clientes :=
       Resuelta (Some {| Cuerpo.success := true; Cuerpo.error := None;
                         Cuerpo.clientes := Some clientes |});
     Registro.put_cliente := fun _ _ => exito;
     Registro.post_cliente := fun _ => exito;
     Registro.post_pago := fun _ => exito |}.

(** A registry whose roster cannot be fetched, though it accepts
    changes. *)
Definition registro_sin_lista : Registro.t :=
  {| Registro.get_clientes := Rechazada None;
     Registro.put_cliente := fun _ _ => exito;
     Registro.post_cliente := fun _ => exito;
     Registro.post_pago := fun _ => exito |}.

(** A registry that is reached and answers the roster request with an
    HTTP error status and a body without [success]. *)
Definition registro_error_http : Registro.t :=
  {| Registro.get_clientes :=
       Rechazada (Some (Some {| Cuerpo.success := false;
                                Cuerpo.error := Some (lit "Error interno");
                                Cuerpo.clientes := None |}));
     Registro.put_cliente := fun _ _ => exito;
     Registro.post_cliente := fun _ => exito;
     Registro.post_pago := fun _ => exito |}.

(** [!cliente Juan Perez / 172.16.1.50] after the dispatcher's split. *)
Definition args_minimo : list jsstring :=
  [lit "Juan"; lit "Perez"; lit "/"; lit "172.16.1.50"].

(** * Properties *)

(** ** The matcher decides the language of a pattern *)

Lemma nullable_sound r : nullable r = true -> Lang r [].
Proof.
  induction r; simpl; intros Hn; try discriminate.
  - constructor.
  - apply andb_prop in Hn as [H1 H2].
    change (@nil cu) with (@nil cu ++ []). constructor; auto.
  - apply orb_prop in Hn as [H1 | H2]; [apply LAltL | apply LAltR]; auto.
  - constructor.
Qed.

Lemma nullable_complete r s : Lang r s -> s = [] -> nullable r = true.
Proof.
  induction 1; simpl; intros Hs; try reflexivity; try discriminate.
  - apply app_eq_nil in Hs as [-> ->]. rewrite IHLang1, IHLang2; auto.
  - rewrite IHLang; auto.
  - rewrite IHLang, orb_true_r; auto.
Qed.

Lemma deriv_sound c r : forall s, Lang (deriv c r) s -> Lang r (c :: s).
Proof.
  induction r; simpl; intros s H.
  - inversion H.
  - inversion H.
  - destruct (p c) eqn:Hp; inversion H; subst. constructor; assumption.
  - destruct (nullable r1) eqn:Hn.
    + inversion H as [| | | ? ? ? H1 | ? ? ? H2 | |]; subst.
      * inversion H1; subst.
        change (c :: s1 ++ s2) with ((c :: s1) ++ s2). constructor; auto.
      * change (c :: s) with ([] ++ c :: s).
        constructor; auto using nullable_sound.
    + inversion H; subst.
      change (c :: s1 ++ s2) with ((c :: s1) ++ s2). constructor; auto.
  - inversion H; subst; [apply LAltL | apply LAltR]; auto.
  - inversion H; subst.
    change (c :: s1 ++ s2) with ((c :: s1) ++ s2). constructor; auto.
Qed.

Lemma deriv_complete c r t :
  Lang r t -> forall u, t = c :: u -> Lang (deriv c r) u.
Proof.
  induction 1 as [| p a Hp | r1 r2 s1 s2 H1 IH1 H2 IH2 | r1 r2 s H IH
                 | r1 r2 s H IH | r | r s1 s2 H1 IH1 H2 IH2];
    intros u Ht; simpl.
  - discriminate.
  - injection Ht as Ha Hu. subst a u. rewrite Hp. constructor.
  - destruct s1 as [| a s1'].
    + simpl in Ht. subst s2.
      rewrite (nullable_complete r1 [] H1 eq_refl). apply LAltR. auto.
    + injection Ht as Ha Hu. subst a u.
      assert (Hd : Lang (Seq (deriv c r1) r2) (s1' ++ s2))
        by (constructor; auto).
      destruct (nullable r1); [apply LAltL |]; exact Hd.
  - apply LAltL; auto.
  - apply LAltR; auto.
  - discriminate.
  - destruct s1 as [| a s1'].
    + simpl in Ht. apply (IH2 u Ht).
    + injection Ht as Ha Hu. subst a u. constructor; auto.
Qed.

Theorem matches_Lang r s : matches r s = true <-> Lang r s.
Proof.
  revert r. induction s as [| c s IH]; intros r; simpl.
  - split; [apply nullable_sound | intros H; exact (nullable_complete r [] H eq_refl)].
  - rewrite IH. split; [apply deriv_sound |].
    intros H. exact (deriv_complete c r (c :: s) H s eq_refl).
Qed.

Lemma Lang_Seq_inv r1 r2 s :
  Lang (Seq r1 r2) s <-> exists s1 s2, s = s1 ++ s2 /\ Lang r1 s1 /\ Lang r2 s2.
Proof.
  split.
  - intros H. inversion H; subst. eauto.
  - intros (s1 & s2 & -> & H1 & H2). constructor; auto.
Qed.

Lemma Lang_Cls_inv p s : Lang (Cls p) s <-> exists c, s = [c] /\ p c = true.
Proof.
  split.
  - intros H. inversion H; subst. eauto.
  - intros (c & -> & Hp). constructor; auto.
Qed.

Lemma Lang_Star_Cls p s : Lang (Star (Cls p)) s <-> forallb p s = true.
Proof.
  split.
  - remember (Star (Cls p)) as r eqn:Hr. intros H.
    induction H as [| | | | | r0 | r0 s1 s2 H1 _ H2 IH2]; try discriminate.
    + reflexivity.
    + injection Hr as ->. apply Lang_Cls_inv in H1 as (c & -> & Hc).
      simpl. rewrite Hc. simpl. auto.
  - induction s as [| c s IH]; simpl; intros H.
    + constructor.
    + apply andb_prop in H as [Hc Hs].
      change (c :: s) with ([c] ++ s). constructor; [constructor |]; auto.
Qed.

Lemma Lang_rep_Cls p n :
  forall s, Lang (rep n (Cls p)) s <-> (List.length s = n /\ forallb p s = true).
Proof.
  induction n as [| n IH]; intros s; simpl.
  - split.
    + intros H. inversion H; subst. auto.
    + intros [Hl _]. destruct s; [constructor | discriminate].
  - rewrite Lang_Seq_inv. split.
    + intros (s1 & s2 & -> & H1 & H2).
      apply Lang_Cls_inv in H1 as (c & -> & Hc).
      apply IH in H2 as [Hl Hf]. simpl. rewrite Hc, Hl. auto.
    + intros [Hl Hf]. destruct s as [| c s]; [discriminate |].
      simpl in Hf. apply andb_prop in Hf as [Hc Hs].
      exists [c], s. repeat split.
      * constructor; auto.
      * apply IH. split; [simpl in Hl; lia | auto].
Qed.

Lemma forallb_firstn_skipn (p : cu -> bool) n s :
  forallb p s = forallb p (firstn n s) && forallb p (skipn n s).
Proof.
  rewrite <- forallb_app, firstn_skipn. reflexivity.
Qed.

Lemma Lang_rep_min_Cls p n s :
  Lang (rep_min n (Cls p)) s <-> (forallb p s = true /\ n <= List.length s).
Proof.
  unfold rep_min. rewrite Lang_Seq_inv. split.
  - intros (s1 & s2 & -> & H1 & H2).
    apply Lang_rep_Cls in H1 as [Hl Hf]. apply Lang_Star_Cls in H2.
    rewrite forallb_app, Hf, H2, length_app. split; [reflexivity | lia].
  - intros [Hf Hl]. exists (firstn n s), (skipn n s).
    rewrite (forallb_firstn_skipn p n s) in Hf.
    apply andb_prop in Hf as [H1 H2].
    repeat split.
    + symmetry. apply firstn_skipn.
    + apply Lang_rep_Cls. split; [apply firstn_length_le; lia | auto].
    + apply Lang_Star_Cls; auto.
Qed.

(** ** The field classifier *)

Lemma esTelefono_digits campo :
  esTelefono campo = true <->
  (forallb is_digit (remove_all guion_espacio_mas campo) = true
   /\ 8 <= List.length (remove_all guion_espacio_mas campo)).
Proof.
  unfold esTelefono, test_anchored, re_telefono, digito.
  rewrite matches_Lang. apply Lang_rep_min_Cls.
Qed.

Lemma clasificar_numero_telefono f campo :
  Campos.telefono (clasificar_numero f campo) = Campos.telefono f.
Proof.
  unfold clasificar_numero.
  repeat match goal with |- context [if ?b then _ else _] => destruct b end;
    reflexivity.
Qed.

(** The numeric branch, with its doubled test folded: the guard on
    [precio] of the first test is made up for by the last one. *)
Lemma clasificar_numero_eq f campo :
  clasificar_numero f campo =
  let n := parseFloat campo in
  if ge n (num 50) then set_precio n f
  else if ge n (num 1) && le n (num 28)
          && Num.seq (Campos.diaCorteFinal f) (num 1)
  then set_diaCorteFinal n f
  else f.
Proof.
  unfold clasificar_numero. cbv zeta.
  destruct (ge (parseFloat campo) (num 50));
    destruct (ge (parseFloat campo) (num 1) && le (parseFloat campo) (num 28)
              && Num.seq (Campos.diaCorteFinal f) (num 1));
    destruct (Num.seq (Campos.precio f) (num 0)); reflexivity.
Qed.

Lemma le_28_not_ge_50 n : le n (num 28) = true -> ge n (num 50) = false.
Proof.
  unfold le, ge, cmp, num. destruct n as [| [|] | q]; try discriminate; auto.
  destruct (Qcompare q (inject_Z 28)) eqn:H28; try discriminate; intros _;
    destruct (Qcompare q (inject_Z 50)) eqn:H50; try reflexivity; exfalso;
    first [apply Qeq_alt in H28 | apply Qlt_alt in H28];
    first [apply Qeq_alt in H50 | apply Qgt_alt in H50];
    unfold Qeq, Qlt, inject_Z in *; simpl in *; lia.
Qed.

Lemma clasificar_campo_numero f campo :
  esIP campo = false -> esPlan campo = false -> esTelefono campo = false ->
  esNumero campo = true ->
  clasificar_campo f campo = clasificar_numero f campo.
Proof.
  intros H1 H2 H3 H4. unfold clasificar_campo. rewrite H1, H2, H3, H4.
  reflexivity.
Qed.

(** C3 (as the code has it). A segment that is neither an IP nor a plan
    is taken as the telefono exactly when what is left of it after
    deleting every hyphen, white-space character and plus sign (wherever
    they stand) is a run of at least 8 digits; parentheses are not
    deleted. Otherwise the telefono is left as it was. *)
Theorem telefono_rule (f : Campos.t) (campo : jsstring) :
  esIP campo = false -> esPlan campo = false ->
  let resto := remove_all guion_espacio_mas campo in
  ((forallb is_digit resto = true /\ 8 <= List.length resto) ->
     clasificar_campo f campo = set_telefono campo f)
  /\ (~ (forallb is_digit resto = true /\ 8 <= List.length resto) ->
     Campos.telefono (clasificar_campo f campo) = Campos.telefono f).
Proof.
  intros Hip Hplan resto. unfold clasificar_campo. rewrite Hip, Hplan.
  split; intros H.
  - apply esTelefono_digits in H. rewrite H. reflexivity.
  - destruct (esTelefono campo) eqn:Ht.
    + apply esTelefono_digits in Ht. contradiction.
    + destruct (esNumero campo); [apply clasificar_numero_telefono |].
      destruct (tieneLetra campo); [| reflexivity].
      destruct (truthy (Campos.direccion f)); reflexivity.
Qed.

Lemma telefono_rule_witness :
  clasificar_campo campos_iniciales (lit "+502 3247-2792")
  = set_telefono (lit "+502 3247-2792") campos_iniciales.
Proof.
  apply (proj1 (telefono_rule campos_iniciales (lit "+502 3247-2792")
                  ltac:(vm_compute; reflexivity) ltac:(vm_compute; reflexivity))).
  split; [vm_compute; reflexivity | vm_compute; lia].
Defined.

(** C3 fails as worded: [(502)32472792] is neither an IP nor a plan and
    is a run of 11 digits once its parentheses are removed, yet the
    classifier does not take it as the telefono (it takes it as nothing). *)
Lemma telefono_rule_counterexample :
  let campo := lit "(502)32472792" in
  esIP campo = false /\ esPlan campo = false
  /\ telefono_segun_spec campo = true
  /\ esTelefono campo = false
  /\ clasificar_campo campos_iniciales campo = campos_iniciales.
Proof. vm_compute. repeat split; reflexivity. Qed.

(** C1 (as the code has it). In the numeric branch a value of at least
    50 becomes [precio]; a value in [1, 28] becomes [diaCorteFinal]
    exactly when [diaCorteFinal] still equals its default 1, whatever
    [precio] holds; any other value is dropped. So the segments 10, 60
    and the segments 60, 10 both give [dia_corte = 10], [precio = 60]. *)
Theorem numeric_disambiguation :
  (forall (f : Campos.t) (campo : jsstring),
      esIP campo = false -> esPlan campo = false ->
      esTelefono campo = false -> esNumero campo = true ->
      let n := parseFloat campo in
      (ge n (num 50) = true -> clasificar_campo f campo = set_precio n f)
      /\ (ge n (num 1) && le n (num 28) = true ->
          clasificar_campo f campo =
          if Num.seq (Campos.diaCorteFinal f) (num 1)
          then set_diaCorteFinal n f else f)
      /\ (ge n (num 50) = false -> ge n (num 1) && le n (num 28) = false ->
          clasificar_campo f campo = f))
  /\ (let f := clasificar
                 (skipn 1 (campos_de [lit "Juan"; lit "/"; lit "172.16.1.50";
                                      lit "/"; lit "10"; lit "/"; lit "60"])) in
      Campos.diaCorteFinal f = num 10 /\ Campos.precio f = num 60)
  /\ (let f := clasificar
                 (skipn 1 (campos_de [lit "Juan"; lit "/"; lit "172.16.1.50";
                                      lit "/"; lit "60"; lit "/"; lit "10"])) in
      Campos.diaCorteFinal f = num 10 /\ Campos.precio f = num 60).
Proof.
  split; [| split; vm_compute; split; reflexivity].
  intros f campo H1 H2 H3 H4 n.
  rewrite (clasificar_campo_numero f campo H1 H2 H3 H4), clasificar_numero_eq.
  cbv zeta. fold n. repeat split.
  - intros ->. reflexivity.
  - intros H. apply andb_prop in H as [Hge Hle].
    rewrite (le_28_not_ge_50 _ Hle), Hge, Hle. reflexivity.
  - intros -> ->. reflexivity.
Qed.

Lemma numeric_disambiguation_witness :
  clasificar_campo (set_precio (num 60) campos_iniciales) (lit "10")
  = set_diaCorteFinal (num 10) (set_precio (num 60) campos_iniciales).
Proof.
  apply (proj1 (proj2 (proj1 numeric_disambiguation
                         (set_precio (num 60) campos_iniciales) (lit "10")
                         ltac:(vm_compute; reflexivity)
                         ltac:(vm_compute; reflexivity)
                         ltac:(vm_compute; reflexivity)
                         ltac:(vm_compute; reflexivity)))).
  vm_compute. reflexivity.
Defined.

(** C1 fails as worded: with the numeric segments 60 then 10 the
    classifier does not leave [dia_corte] at its default 1; the 10 is
    assigned to it although [precio] is already 60. *)
Lemma numeric_disambiguation_counterexample :
  let f := clasificar
             (skipn 1 (campos_de [lit "Juan"; lit "/"; lit "172.16.1.50";
                                  lit "/"; lit "60"; lit "/"; lit "10"])) in
  Campos.precio f = num 60
  /\ Campos.diaCorteFinal f = num 10
  /\ Campos.diaCorteFinal f <> num 1.
Proof. vm_compute. repeat split; discriminate. Qed.

(** ** The upsert flow of [registrarCliente] *)

Lemma str_eqb_eq s t : str_eqb s t = true <-> s = t.
Proof.
  revert t. induction s as [| a s IH]; intros [| b t]; simpl;
    try (split; [discriminate | discriminate]); [tauto |].
  rewrite andb_true_iff. unfold cu_eqb. rewrite N.eqb_eq, IH.
  split; [intros [-> ->]; reflexivity | intros H; injection H; auto].
Qed.

Lemma buscar_existente_run ip w :
  buscar_existente ip w
  = ([Peticion GET_clientes], inl (existente ip (Registro.get_clientes w))).
Proof.
  unfold buscar_existente, try_catch, bind, axios_get_clientes, settle, existente.
  destruct (Registro.get_clientes w) as [[data |] | resp]; simpl; try reflexivity.
  destruct (Cuerpo.success data); simpl; [| reflexivity].
  destruct (Cuerpo.clientes data); reflexivity.
Qed.

Lemma campos_de_truthy args nombre resto :
  campos_de args = nombre :: resto -> truthy nombre = true.
Proof.
  intros H. assert (Hin : In nombre (campos_de args)) by (rewrite H; left; auto).
  unfold campos_de in Hin. apply filter_In in Hin as [_ Hlen].
  destruct nombre; [discriminate | reflexivity].
Qed.

(** A well-formed command runs the lookup and then one of the two
    branches under the handler's [catch]. *)
Lemma registrarCliente_run args nombre resto w :
  campos_de args = nombre :: resto -> resto <> [] ->
  truthy (Campos.ip (clasificar resto)) = true ->
  registrarCliente args w =
  (Peticion GET_clientes ::
   fst (try_catch
          match existente (Campos.ip (clasificar resto))
                  (Registro.get_clientes w) with
          | Some c => actualizar nombre (clasificar resto) c
          | None => crear nombre (clasificar resto)
          end responder_error_cliente w),
   snd (try_catch
          match existente (Campos.ip (clasificar resto))
                  (Registro.get_clientes w) with
          | Some c => actualizar nombre (clasificar resto) c
          | None => crear nombre (clasificar resto)
          end responder_error_cliente w)).
Proof.
  intros Hc Hr Hip. unfold registrarCliente.
  rewrite Hc. destruct resto as [| c1 resto']; [contradiction |].
  cbn [List.length Nat.ltb Nat.leb nth skipn].
  rewrite (campos_de_truthy _ _ _ Hc), Hip. cbn [negb].
  unfold bind at 1. rewrite buscar_existente_run.
  destruct (try_catch _ _ w) as [l r]. reflexivity.
Qed.

Lemma crear_run nombre f w :
  exists r,
    try_catch (crear nombre f) responder_error_cliente w
    = ([Peticion (POST_cliente (datosNuevo nombre f)); Reply r], inl tt).
Proof.
  unfold try_catch, crear, bind, axios_post_cliente, settle.
  destruct (Registro.post_cliente w (datosNuevo nombre f))
    as [[data |] | [[data |] |]]; simpl.
  - destruct (Cuerpo.success data); simpl; eauto.
  - eauto.
  - eauto.
  - eauto.
  - eauto.
Qed.

Lemma actualizar_run nombre f c w :
  exists r,
    try_catch (actualizar nombre f c) responder_error_cliente w
    = ([Peticion (PUT_cliente (Cliente.id c) (datosActualizar nombre f)); Reply r],
       inl tt).
Proof.
  unfold try_catch, actualizar, bind, axios_put_cliente, settle.
  destruct (Registro.put_cliente w (Cliente.id c) (datosActualizar nombre f))
    as [[data |] | [[data |] |]]; simpl.
  - destruct (Cuerpo.success data); simpl; eauto.
  - eauto.
  - eauto.
  - eauto.
  - eauto.
Qed.

Lemma actualizar_ok nombre f c w data :
  Registro.put_cliente w (Cliente.id c) (datosActualizar nombre f)
  = Resuelta (Some data) ->
  Cuerpo.success data = true ->
  try_catch (actualizar nombre f c) responder_error_cliente w
  = ([Peticion (PUT_cliente (Cliente.id c) (datosActualizar nombre f));
      Reply (ClienteActualizado nombre (Campos.ip f)
               (cambiosTexto (cambios_de nombre f c)))], inl tt).
Proof.
  intros Hput Hok.
  unfold try_catch, actualizar, bind, axios_put_cliente, settle.
  rewrite Hput. simpl. rewrite Hok. reflexivity.
Qed.

Lemma existente_fallida ip r : consulta_fallida r -> existente ip r = None.
Proof.
  destruct r as [[data |] | resp]; simpl; auto.
  intros ->. reflexivity.
Qed.

(** C9. When the roster fetch of the upsert fails (rejected call, or an
    answer without body or without [success]), the failure is swallowed
    and a well-formed command goes down the create path: after the GET
    the bot posts the classified fields as a new client, whatever the
    registry holds, and answers once. *)
Theorem lookup_failure_creates args nombre resto w :
  campos_de args = nombre :: resto -> resto <> [] ->
  truthy (Campos.ip (clasificar resto)) = true ->
  consulta_fallida (Registro.get_clientes w) ->
  existente (Campos.ip (clasificar resto)) (Registro.get_clientes w) = None
  /\ exists r,
      registrarCliente args w
      = ([Peticion GET_clientes;
          Peticion (POST_cliente (datosNuevo nombre (clasificar resto)));
          Reply r], inl tt).
Proof.
  intros Hc Hr Hip Hf.
  pose proof (existente_fallida (Campos.ip (clasificar resto)) _ Hf) as He.
  split; [exact He |].
  rewrite (registrarCliente_run args nombre resto w Hc Hr Hip), He.
  destruct (crear_run nombre (clasificar resto) w) as [r Hrun].
  exists r. rewrite Hrun. reflexivity.
Qed.

Lemma lookup_failure_creates_witness :
  exists r,
    registrarCliente args_minimo registro_sin_lista
    = ([Peticion GET_clientes;
        Peticion (POST_cliente
                    (datosNuevo (lit "Juan Perez")
                       (clasificar [lit "172.16.1.50"])));
        Reply r], inl tt).
Proof.
  apply (lookup_failure_creates args_minimo (lit "Juan Perez")
           [lit "172.16.1.50"] registro_sin_lista).
  - vm_compute. reflexivity.
  - discriminate.
  - vm_compute. reflexivity.
  - exact I.
Defined.

Lemma clasificar_inv (P : Campos.t -> Prop) (l : list jsstring) :
  P campos_iniciales ->
  (forall f campo, In campo l -> P f -> P (clasificar_campo f campo)) ->
  P (clasificar l).
Proof.
  unfold clasificar. generalize campos_iniciales as f0.
  induction l as [| c l IH]; intros f0 H0 Hstep; simpl; [exact H0 |].
  apply IH.
  - apply Hstep; [left; reflexivity | exact H0].
  - intros f campo Hin. apply Hstep. right. exact Hin.
Qed.

Lemma clasificar_numero_plan f campo :
  Campos.plan (clasificar_numero f campo) = Campos.plan f
  /\ Campos.velocidadDown (clasificar_numero f campo) = Campos.velocidadDown f
  /\ Campos.velocidadUp (clasificar_numero f campo) = Campos.velocidadUp f.
Proof.
  unfold clasificar_numero.
  repeat match goal with |- context [if ?b then _ else _] => destruct b end;
    repeat split; reflexivity.
Qed.

Lemma sin_plan_defaults resto :
  sin_plan resto ->
  Campos.plan (clasificar resto) = lit "Basico 7Mbps"
  /\ Campos.velocidadDown (clasificar resto) = lit "7M"
  /\ Campos.velocidadUp (clasificar resto) = lit "7M".
Proof.
  intros Hsin. apply clasificar_inv; [repeat split; reflexivity |].
  intros f campo Hin (Hp & Hd & Hu). unfold clasificar_campo.
  destruct (esIP campo) eqn:Hip; [simpl; auto |].
  destruct (Hsin campo Hin) as [H | H]; [congruence |]. rewrite H.
  destruct (esTelefono campo); [simpl; auto |].
  destruct (esNumero campo).
  - destruct (clasificar_numero_plan f campo) as (-> & -> & ->). auto.
  - destruct (tieneLetra campo); [| auto].
    destruct (truthy (Campos.direccion f)); simpl; auto.
Qed.

Lemma sin_numero_defaults resto :
  sin_numero resto ->
  Campos.diaCorteFinal (clasificar resto) = num 1
  /\ Campos.precio (clasificar resto) = num 0.
Proof.
  intros Hsin. apply clasificar_inv; [split; reflexivity |].
  intros f campo Hin (Hd & Hp). unfold clasificar_campo.
  destruct (esIP campo) eqn:Hip; [simpl; auto |].
  destruct (esPlan campo) eqn:Hplan.
  { destruct (match_velocidad campo); simpl; auto. }
  destruct (esTelefono campo) eqn:Htel; [simpl; auto |].
  destruct (Hsin campo Hin) as [H | [H | [H | H]]]; try congruence.
  rewrite H. destruct (tieneLetra campo); [| auto].
  destruct (truthy (Campos.direccion f)); simpl; auto.
Qed.

(** C10. An update of an existing client sends, after the lookup, one
    PUT for that client with [datosActualizar]: [plan], both speeds and
    [dia_corte] are always in it with the classifier's values, which are
    the defaults ["Basico 7Mbps"], ["7M"], ["7M"] when no segment took
    the plan branch and 1 when none took the numeric branch;
    [telefono], [direccion] and [precio_mensual] are in it only when
    classified non-empty or positive. A command with just a name and an
    IP therefore sends the four defaults and nothing else but the name. *)
Theorem update_resends_defaults args nombre resto w c :
  campos_de args = nombre :: resto -> resto <> [] ->
  truthy (Campos.ip (clasificar resto)) = true ->
  existente (Campos.ip (clasificar resto)) (Registro.get_clientes w) = Some c ->
  let f := clasificar resto in
  let d := datosActualizar nombre f in
  (exists r,
      registrarCliente args w
      = ([Peticion GET_clientes; Peticion (PUT_cliente (Cliente.id c) d);
          Reply r], inl tt))
  /\ (Datos.plan d = Campos.plan f
      /\ Datos.velocidad_download d = Campos.velocidadDown f
      /\ Datos.velocidad_upload d = Campos.velocidadUp f
      /\ Datos.dia_corte d = Campos.diaCorteFinal f)
  /\ (sin_plan resto ->
      Datos.plan d = lit "Basico 7Mbps"
      /\ Datos.velocidad_download d = lit "7M"
      /\ Datos.velocidad_upload d = lit "7M")
  /\ (sin_numero resto ->
      Datos.dia_corte d = num 1 /\ Datos.precio_mensual d = None)
  /\ (Datos.telefono d = None <-> Campos.telefono f = [])
  /\ (Datos.direccion d = None <-> Campos.direccion f = [])
  /\ (Datos.precio_mensual d = None <-> gt (Campos.precio f) (num 0) = false)
  /\ (forall ip, resto = [ip] -> esIP ip = true ->
      d = Datos.Build nombre None None (lit "Basico 7Mbps") (lit "7M")
            (lit "7M") None (num 1)).
Proof.
  intros Hc Hr Hip He f d. repeat split.
  - rewrite (registrarCliente_run args nombre resto w Hc Hr Hip), He.
    destruct (actualizar_run nombre f c w) as [r Hrun].
    exists r. fold f. rewrite Hrun. reflexivity.
  - apply (sin_plan_defaults resto H).
  - apply (sin_plan_defaults resto H).
  - apply (sin_plan_defaults resto H).
  - apply (sin_numero_defaults resto H).
  - unfold d, datosActualizar; simpl. fold f.
    destruct (sin_numero_defaults resto H) as [_ Hp]. fold f in Hp.
    rewrite Hp. reflexivity.
  - unfold d, datosActualizar; simpl.
    destruct (Campos.telefono f); simpl; [reflexivity | discriminate].
  - unfold d, datosActualizar; simpl. intros ->. reflexivity.
  - unfold d, datosActualizar; simpl.
    destruct (Campos.direccion f); simpl; [reflexivity | discriminate].
  - unfold d, datosActualizar; simpl. intros ->. reflexivity.
  - unfold d, datosActualizar; simpl.
    destruct (gt (Campos.precio f) (num 0)); [discriminate | reflexivity].
  - unfold d, datosActualizar; simpl. intros ->. reflexivity.
  - intros ip -> Hes. unfold d, f, clasificar. simpl.
    unfold clasificar_campo. rewrite Hes. reflexivity.
Qed.

Lemma update_resends_defaults_witness :
  exists r,
    registrarCliente args_minimo (registro_con [cliente_juan])
    = ([Peticion GET_clientes;
        Peticion (PUT_cliente 7%N
                    (Datos.Build (lit "Juan Perez") None None
                       (lit "Basico 7Mbps") (lit "7M") (lit "7M") None (num 1)));
        Reply r], inl tt).
Proof.
  pose proof (update_resends_defaults args_minimo (lit "Juan Perez")
                [lit "172.16.1.50"] (registro_con [cliente_juan]) cliente_juan
                ltac:(vm_compute; reflexivity) ltac:(discriminate)
                ltac:(vm_compute; reflexivity) ltac:(vm_compute; reflexivity))
    as (Hrun & _ & _ & _ & _ & _ & _ & Hmin).
  rewrite (Hmin (lit "172.16.1.50") eq_refl ltac:(vm_compute; reflexivity)) in Hrun.
  exact Hrun.
Defined.

(** The fields the code's report mentions are the differing resent
    fields, less the speeds and less a default plan. *)
Lemma cambios_de_spec nombre f c :
  List.map campo_de_cambio (cambios_de nombre f c)
  = filter (informable f) (cambios_segun_spec (datosActualizar nombre f) c).
Proof.
  unfold cambios_de, cambios_segun_spec, datosActualizar, informable.
  cbn [Datos.nombre Datos.telefono Datos.direccion Datos.plan
       Datos.velocidad_download Datos.velocidad_upload
       Datos.precio_mensual Datos.dia_corte].
  destruct (str_eqb (Campos.velocidadDown f) (Cliente.velocidad_download c));
    destruct (str_eqb (Campos.velocidadUp f) (Cliente.velocidad_upload c));
    destruct (str_eqb nombre (Cliente.nombre c));
    destruct (truthy (Campos.telefono f));
    destruct (str_eqb (Campos.telefono f) (or_else (Cliente.telefono c) []));
    destruct (truthy (Campos.direccion f));
    destruct (str_eqb (Campos.direccion f) (or_else (Cliente.direccion c) []));
    destruct (plan_distinto (Campos.plan f) (Cliente.plan c));
    destruct (str_eqb (Campos.plan f) (lit "Basico 7Mbps"));
    destruct (gt (Campos.precio f) (num 0));
    destruct (sne (Campos.precio f) (Cliente.precio_mensual c));
    destruct (sne (Campos.diaCorteFinal f) (Cliente.dia_corte c));
    reflexivity.
Qed.

(** C2 (as the code has it). When an update of an existing client is
    accepted, the reply carries the change report of [cambios_de]: it
    mentions, in order, the resent fields whose new value differs from
    the stored one, except that the two speeds are never mentioned and
    the plan is not mentioned when the resent plan is the default
    ["Basico 7Mbps"]. When no resent field differs, the report is
    ["Sin cambios detectados"]. *)
Theorem change_report args nombre resto w c data :
  campos_de args = nombre :: resto -> resto <> [] ->
  truthy (Campos.ip (clasificar resto)) = true ->
  existente (Campos.ip (clasificar resto)) (Registro.get_clientes w) = Some c ->
  Registro.put_cliente w (Cliente.id c) (datosActualizar nombre (clasificar resto))
  = Resuelta (Some data) ->
  Cuerpo.success data = true ->
  let f := clasificar resto in
  let d := datosActualizar nombre f in
  registrarCliente args w
  = ([Peticion GET_clientes; Peticion (PUT_cliente (Cliente.id c) d);
      Reply (ClienteActualizado nombre (Campos.ip f)
               (cambiosTexto (cambios_de nombre f c)))], inl tt)
  /\ List.map campo_de_cambio (cambios_de nombre f c)
     = filter (informable f) (cambios_segun_spec d c)
  /\ (cambios_segun_spec d c = [] ->
      cambiosTexto (cambios_de nombre f c) = SinCambiosDetectados).
Proof.
  intros Hc Hr Hip He Hput Hok f d. repeat split.
  - rewrite (registrarCliente_run args nombre resto w Hc Hr Hip), He.
    fold f. rewrite (actualizar_ok nombre f c w data Hput Hok). reflexivity.
  - apply cambios_de_spec.
  - intros Hnil. pose proof (cambios_de_spec nombre f c) as Hm.
    fold d in Hm. rewrite Hnil in Hm. simpl in Hm.
    destruct (cambios_de nombre f c); [reflexivity | discriminate].
Qed.

Lemma change_report_witness :
  registrarCliente
    [lit "Juana"; lit "Perez"; lit "Lopez"; lit "/"; lit "172.16.1.51";
     lit "/"; lit "32472792"; lit "/"; lit "15"]
    (registro_con [cliente_juan; cliente_juana])
  = ([Peticion GET_clientes;
      Peticion (PUT_cliente 8%N
        (datosActualizar (lit "Juana Perez Lopez")
           (clasificar [lit "172.16.1.51"; lit "32472792"; lit "15"])));
      Reply (ClienteActualizado (lit "Juana Perez Lopez") (lit "172.16.1.51")
               SinCambiosDetectados)], inl tt).
Proof.
  exact (proj1 (change_report
    [lit "Juana"; lit "Perez"; lit "Lopez"; lit "/"; lit "172.16.1.51";
     lit "/"; lit "32472792"; lit "/"; lit "15"]
    (lit "Juana Perez Lopez") [lit "172.16.1.51"; lit "32472792"; lit "15"]
    (registro_con [cliente_juan; cliente_juana]) cliente_juana
    {| Cuerpo.success := true; Cuerpo.error := None; Cuerpo.clientes := None |}
    ltac:(vm_compute; reflexivity) ltac:(discriminate)
    ltac:(vm_compute; reflexivity) ltac:(vm_compute; reflexivity)
    ltac:(reflexivity) ltac:(reflexivity))).
Defined.

(** C2 fails as worded: [!cliente Juan Perez / 172.16.1.50] on a client
    stored with the plan ["Premium 20Mbps"] resends the plan
    ["Basico 7Mbps"], which differs from the stored one, and the accepted
    update reports ["Sin cambios detectados"]. *)
Lemma change_report_counterexample :
  let f := clasificar [lit "172.16.1.50"] in
  let d := datosActualizar (lit "Juan Perez") f in
  registrarCliente args_minimo (registro_con [cliente_juan])
  = ([Peticion GET_clientes; Peticion (PUT_cliente 7%N d);
      Reply (ClienteActualizado (lit "Juan Perez") (lit "172.16.1.50")
               SinCambiosDetectados)], inl tt)
  /\ Datos.plan d = lit "Basico 7Mbps"
  /\ Cliente.plan cliente_juan = Some (lit "Premium 20Mbps")
  /\ cambios_segun_spec d cliente_juan = [FPlan]
  /\ List.map campo_de_cambio (cambios_de (lit "Juan Perez") f cliente_juan)
     <> cambios_segun_spec d cliente_juan.
Proof. vm_compute. repeat split; discriminate. Qed.

(** ** The payment scan of [procesarPago] *)

Section Escaner.

Context {U : Unicode}.
Variable cfg : Config.t.

Lemma nth_medio (pre : list jsstring) a post :
  nth (List.length pre) (pre ++ a :: post) [] = a.
Proof.
  rewrite app_nth2 by lia. rewrite Nat.sub_diag. reflexivity.
Qed.

Lemma find_app_uno (p : jsstring -> bool) l t :
  find p (l ++ [t]) =
  match find p l with
  | Some x => Some x
  | None => if p t then Some t else None
  end.
Proof.
  induction l as [| x l IH]; simpl; [reflexivity |].
  destruct (p x); auto.
Qed.

Lemma escanear_desde_paso args i st tok :
  nth (S i) args [] = tok ->
  escanear_desde cfg args (S i) st =
  if es_referencia tok then
    escanear_desde cfg args i
      (Escaneo.Build (Escaneo.monto st) (Escaneo.montoIndex st)
         (Escaneo.metodoPago st) (substring_from 4 tok))
  else if es_metodo cfg tok then
    escanear_desde cfg args i
      (Escaneo.Build (Escaneo.monto st) (Escaneo.montoIndex st)
         (toLowerCase tok) (Escaneo.referencia st))
  else if es_monto (numero_de tok) then
    Escaneo.Build (Some (numero_de tok)) (Z.of_nat (S i))
      (Escaneo.metodoPago st) (Escaneo.referencia st)
  else escanear_desde cfg args i st.
Proof. intros <-. reflexivity. Qed.

Lemma nth_tras (first : jsstring) pre t extra :
  nth (S (List.length pre)) (first :: pre ++ t :: extra) [] = t.
Proof. simpl. apply nth_medio. Qed.

(** Scanning down from the last of [post], none of which stops the
    scan, reaches the amount token [a] and stops there. *)
Lemma escanear_desde_hasta first pre a :
  detiene cfg a = true ->
  forall post extra st,
    forallb (fun t => negb (detiene cfg t)) post = true ->
    escanear_desde cfg (first :: pre ++ a :: post ++ extra)
      (S (List.length pre + List.length post)) st
    = Escaneo.Build (Some (numero_de a)) (Z.of_nat (S (List.length pre)))
        (metodo_tras cfg post (Escaneo.metodoPago st))
        (referencia_tras post (Escaneo.referencia st)).
Proof.
  intros Ha. unfold detiene in Ha.
  apply andb_prop in Ha as [Ha Hmonto]. apply andb_prop in Ha as [Href Hmet].
  apply negb_true_iff in Href. apply negb_true_iff in Hmet.
  induction post as [| t post IH] using rev_ind; intros extra st Hpost.
  - simpl List.length. rewrite Nat.add_0_r.
    rewrite (escanear_desde_paso _ _ st a (nth_tras first pre a _)).
    rewrite Href, Hmet, Hmonto. reflexivity.
  - rewrite forallb_app in Hpost. apply andb_prop in Hpost as [Hpost Ht].
    simpl in Ht. rewrite andb_true_r in Ht. apply negb_true_iff in Ht.
    unfold detiene in Ht.
    assert (Hnth : nth (S (List.length pre + List.length (post ++ [t])))
                     (first :: pre ++ a :: (post ++ [t]) ++ extra) [] = t).
    { replace (pre ++ a :: (post ++ [t]) ++ extra)
        with ((pre ++ a :: post) ++ t :: extra)
        by (rewrite <- !app_assoc; reflexivity).
      replace (List.length pre + List.length (post ++ [t]))
        with (List.length (pre ++ a :: post))
        by (rewrite !length_app; simpl; lia).
      apply nth_tras. }
    rewrite (escanear_desde_paso _ _ st t Hnth).
    replace (List.length pre + List.length (post ++ [t]))
      with (S (List.length pre + List.length post))
      by (rewrite length_app; simpl; lia).
    replace ((post ++ [t]) ++ extra) with (post ++ t :: extra)
      by (rewrite <- app_assoc; reflexivity).
    unfold metodo_tras, referencia_tras. rewrite !find_app_uno.
    destruct (es_referencia t) eqn:Hr.
    + rewrite (IH (t :: extra) _ Hpost).
      unfold metodo_tras, referencia_tras. cbn.
      destruct (find _ post); destruct (find es_referencia post); reflexivity.
    + destruct (es_metodo cfg t) eqn:Hm.
      * rewrite (IH (t :: extra) _ Hpost).
        unfold metodo_tras, referencia_tras. cbn.
        destruct (find _ post); destruct (find es_referencia post); reflexivity.
      * cbn [negb andb] in Ht. rewrite Ht.
        rewrite (IH (t :: extra) _ Hpost).
        unfold metodo_tras, referencia_tras. cbn.
        destruct (find _ post); destruct (find es_referencia post); reflexivity.
Qed.

(** Scanning tokens none of which stops the scan finds no amount,
    whatever stands at index 0. *)
Lemma escanear_desde_nada first :
  forall post extra st,
    forallb (fun t => negb (detiene cfg t)) post = true ->
    escanear_desde cfg (first :: post ++ extra) (List.length post) st
    = Escaneo.Build (Escaneo.monto st) (Escaneo.montoIndex st)
        (metodo_tras cfg post (Escaneo.metodoPago st))
        (referencia_tras post (Escaneo.referencia st)).
Proof.
  induction post as [| t post IH] using rev_ind; intros extra st Hpost.
  - destruct st; reflexivity.
  - rewrite forallb_app in Hpost. apply andb_prop in Hpost as [Hpost Ht].
    simpl in Ht. rewrite andb_true_r in Ht. apply negb_true_iff in Ht.
    unfold detiene in Ht.
    replace ((post ++ [t]) ++ extra) with (post ++ t :: extra)
      by (rewrite <- app_assoc; reflexivity).
    replace (List.length (post ++ [t])) with (S (List.length post))
      by (rewrite length_app; simpl; lia).
    rewrite (escanear_desde_paso _ _ st t (nth_tras first post t extra)).
    unfold metodo_tras, referencia_tras. rewrite !find_app_uno.
    destruct (es_referencia t) eqn:Hr.
    + rewrite (IH (t :: extra) _ Hpost).
      unfold metodo_tras, referencia_tras. cbn.
      destruct (find _ post); destruct (find es_referencia post); reflexivity.
    + destruct (es_metodo cfg t) eqn:Hm.
      * rewrite (IH (t :: extra) _ Hpost).
        unfold metodo_tras, referencia_tras. cbn.
        destruct (find _ post); destruct (find es_referencia post); reflexivity.
      * cbn [negb andb] in Ht. rewrite Ht.
        rewrite (IH (t :: extra) _ Hpost).
        unfold metodo_tras, referencia_tras. cbn.
        destruct (find _ post); destruct (find es_referencia post); reflexivity.
Qed.

(** Every list of tokens either has a last token that stops the scan
    or has none. *)
Lemma ultimo_que_detiene (resto : list jsstring) :
  forallb (fun t => negb (detiene cfg t)) resto = true
  \/ exists pre a post,
      resto = pre ++ a :: post /\ detiene cfg a = true
      /\ forallb (fun t => negb (detiene cfg t)) post = true.
Proof.
  induction resto as [| t r IH]; [left; reflexivity |].
  destruct IH as [Hnone | (pre & a & post & -> & Ha & Hpost)].
  - destruct (detiene cfg t) eqn:Ht.
    + right. exists [], t, r. auto.
    + left. simpl. rewrite Ht. exact Hnone.
  - right. exists (t :: pre), a, post. auto.
Qed.

(** C4. The scan goes from the last index down to index 1 and stops at
    the first token, met from the right, that is neither a reference nor
    a method and parses as a positive amount: that token gives [monto]
    and [montoIndex]; the method and the reference come only from the
    tokens to its right; every token to its left, method and reference
    tokens included, goes into the space-joined [identificador]. A token
    at index 0 is never taken as the amount: when no token from index 1
    on stops the scan, no amount is found, whatever stands at index 0.
    Every token list falls under one of the two cases. *)
Theorem scan_stops_at_amount first pre a post :
  detiene cfg a = true ->
  forallb (fun t => negb (detiene cfg t)) post = true ->
  let args := first :: pre ++ a :: post in
  escanear cfg args
  = Escaneo.Build (Some (numero_de a)) (Z.of_nat (S (List.length pre)))
      (metodo_tras cfg post (lit "efectivo")) (referencia_tras post [])
  /\ identificador_de args (escanear cfg args) = join (lit " ") (first :: pre)
  /\ (forall primero,
        escanear cfg (primero :: post)
        = Escaneo.Build None (-1)%Z
            (metodo_tras cfg post (lit "efectivo")) (referencia_tras post []))
  /\ (forall resto,
        forallb (fun t => negb (detiene cfg t)) resto = true
        \/ exists pre' a' post',
            resto = pre' ++ a' :: post' /\ detiene cfg a' = true
            /\ forallb (fun t => negb (detiene cfg t)) post' = true).
Proof.
  intros Ha Hpost args.
  assert (Hscan : escanear cfg args
    = Escaneo.Build (Some (numero_de a)) (Z.of_nat (S (List.length pre)))
        (metodo_tras cfg post (lit "efectivo")) (referencia_tras post [])).
  { unfold escanear, args.
    replace (List.length (first :: pre ++ a :: post) - 1)
      with (S (List.length pre + List.length post))
      by (simpl; rewrite length_app; simpl; lia).
    pose proof (escanear_desde_hasta first pre a Ha post [] escaneo_inicial Hpost)
      as H.
    rewrite app_nil_r in H. exact H. }
  split; [exact Hscan | split].
  - rewrite Hscan. unfold identificador_de.
    cbn [Escaneo.montoIndex]. rewrite Nat2Z.id. unfold args.
    change (first :: pre ++ a :: post) with ((first :: pre) ++ a :: post).
    replace (S (List.length pre)) with (List.length (first :: pre) + 0)
      by (simpl; lia).
    rewrite firstn_app_2. simpl firstn. rewrite app_nil_r. reflexivity.
  - split; [| exact ultimo_que_detiene].
    intros primero. unfold escanear.
    replace (List.length (primero :: post) - 1) with (List.length post)
      by (simpl; lia).
    pose proof (escanear_desde_nada primero post [] escaneo_inicial Hpost) as H.
    rewrite app_nil_r in H. exact H.
Qed.

End Escaner.

Lemma scan_stops_at_amount_witness :
  let args := [lit "Juan"; lit "transferencia"; lit "ref:9"; lit "200";
               lit "ref:1"] in
  @escanear ascii_host CONFIG args
  = Escaneo.Build (Some (num 200)) 3%Z (lit "efectivo") (lit "1")
  /\ identificador_de args (@escanear ascii_host CONFIG args)
     = lit "Juan transferencia ref:9".
Proof.
  destruct (@scan_stops_at_amount ascii_host CONFIG (lit "Juan")
              [lit "transferencia"; lit "ref:9"] (lit "200") [lit "ref:1"]
              ltac:(vm_compute; reflexivity) ltac:(vm_compute; reflexivity))
    as (H1 & H2 & _ & _).
  split; [exact H1 | exact H2].
Defined.

(** ** The resolver [buscarCliente] *)

Section Resolver.

Context {U : Unicode}.

Lemma buscarCliente_run identificador w :
  buscarCliente identificador w
  = ([Peticion GET_clientes],
     match fallo_de (Registro.get_clientes w) with
     | Some e => inr e
     | None => inl (resolver (lista_de (Registro.get_clientes w)) identificador)
     end).
Proof.
  unfold buscarCliente, bind, try_catch, axios_get_clientes, settle, fallo_de,
    lista_de, resolver.
  destruct (Registro.get_clientes w) as [[data |] | resp]; simpl;
    try reflexivity.
  destruct (Cuerpo.success data); simpl; [| reflexivity].
  destruct (Cuerpo.clientes data) as [[| c clientes] |]; simpl;
    try reflexivity.
  destruct (esIP identificador); [| reflexivity].
  match goal with |- context [match ?x with Some _ => _ | None => _ end] =>
    destruct x end; reflexivity.
Qed.

Lemma buscar_o_responder_fallo identificador w e :
  fallo_de (Registro.get_clientes w) = Some e ->
  exists r,
    buscar_o_responder identificador w
    = ([Peticion GET_clientes; Reply r], inl None)
    /\ responder_fallo e w = ([Reply r], inl tt).
Proof.
  intros Hf. unfold buscar_o_responder, try_catch, bind at 1.
  rewrite buscarCliente_run, Hf.
  unfold bind, responder_fallo.
  destruct e as [m | | resp]; cbn [reply ret app fst snd].
  - destruct (str_eqb m (lit "NO_CONEXION")); [eexists; split; reflexivity |].
    destruct (str_eqb m (lit "SIN_CLIENTES")); eexists; split; reflexivity.
  - eexists; split; reflexivity.
  - eexists; split; reflexivity.
Qed.

Lemma buscar_o_responder_ok identificador w :
  fallo_de (Registro.get_clientes w) = None ->
  buscar_o_responder identificador w
  = ([Peticion GET_clientes],
     inl (Some (resolver (lista_de (Registro.get_clientes w)) identificador))).
Proof.
  intros Hf. unfold buscar_o_responder, try_catch, bind at 1.
  rewrite buscarCliente_run, Hf. reflexivity.
Qed.

Lemma consultarCliente_fallo args w e :
  args <> [] ->
  fallo_de (Registro.get_clientes w) = Some e ->
  exists r,
    consultarCliente args w = ([Peticion GET_clientes; Reply r], inl tt)
    /\ responder_fallo e w = ([Reply r], inl tt).
Proof.
  intros Hargs Hf. unfold consultarCliente.
  destruct args as [| a args]; [contradiction |].
  cbn [List.length Nat.ltb Nat.leb].
  destruct (buscar_o_responder_fallo (join (lit " ") (a :: args)) w e Hf)
    as (r & Hrun & Hr).
  exists r. split; [| exact Hr].
  unfold bind at 1. rewrite Hrun. reflexivity.
Qed.

(** C7 (as the code has it). A failure to get the roster is thrown by
    the resolver as an error of its own kind and is never returned as
    "not found". [NO_CONEXION] is thrown exactly when the call is
    rejected: when the registry was not reached and also when it
    answered with an HTTP error status, whatever the body of that
    answer. [API_ERROR] is thrown exactly when the call resolves without
    a body or with a body without [success]. [SIN_CLIENTES] is thrown
    exactly when the call resolves with [success] and an empty roster.
    The query command answers with the text of that kind, and [null] is
    only returned on a roster that was fetched and is not empty. *)
Theorem failure_taxonomy (identificador : jsstring) (args : list jsstring)
    (w : Registro.t) :
  args <> [] ->
  (forall resp,
      Registro.get_clientes w = Rechazada resp ->
      buscarCliente identificador w
      = ([Peticion GET_clientes], inr (Error (lit "NO_CONEXION")))
      /\ consultarCliente args w
         = ([Peticion GET_clientes; Reply NoConexionCuzoNet], inl tt))
  /\ (forall data,
      Registro.get_clientes w = Resuelta (Some data) ->
      Cuerpo.success data = true -> Cuerpo.clientes data = Some [] ->
      buscarCliente identificador w
      = ([Peticion GET_clientes], inr (Error (lit "SIN_CLIENTES")))
      /\ consultarCliente args w
         = ([Peticion GET_clientes; Reply SinClientesRegistrados], inl tt))
  /\ (Registro.get_clientes w = Resuelta None
      \/ (exists data, Registro.get_clientes w = Resuelta (Some data)
                       /\ Cuerpo.success data = false) ->
      buscarCliente identificador w
      = ([Peticion GET_clientes], inr (Error (lit "API_ERROR")))
      /\ consultarCliente args w
         = ([Peticion GET_clientes; Reply ErrorConsultaAPI], inl tt))
  /\ (snd (buscarCliente identificador w) = inr (Error (lit "NO_CONEXION")) ->
      exists resp, Registro.get_clientes w = Rechazada resp)
  /\ (snd (buscarCliente identificador w) = inr (Error (lit "API_ERROR")) ->
      Registro.get_clientes w = Resuelta None
      \/ (exists data, Registro.get_clientes w = Resuelta (Some data)
                       /\ Cuerpo.success data = false))
  /\ (snd (buscarCliente identificador w) = inr (Error (lit "SIN_CLIENTES")) ->
      exists data, Registro.get_clientes w = Resuelta (Some data)
                   /\ Cuerpo.success data = true
                   /\ Cuerpo.clientes data = Some [])
  /\ (snd (buscarCliente identificador w) = inl NotFound ->
      exists data c clientes,
        Registro.get_clientes w = Resuelta (Some data)
        /\ Cuerpo.success data = true
        /\ Cuerpo.clientes data = Some (c :: clientes)).
Proof.
  intros Hargs. split; [| split; [| split]].
  - intros resp Hget. split.
    + rewrite buscarCliente_run, Hget. reflexivity.
    + destruct (consultarCliente_fallo args w (Error (lit "NO_CONEXION")) Hargs)
        as (r & Hrun & Hr); [rewrite Hget; reflexivity |].
      rewrite Hrun. vm_compute in Hr. congruence.
  - intros data Hget Hok Hcl. split.
    + rewrite buscarCliente_run, Hget. simpl. rewrite Hok, Hcl. reflexivity.
    + destruct (consultarCliente_fallo args w (Error (lit "SIN_CLIENTES")) Hargs)
        as (r & Hrun & Hr);
        [rewrite Hget; simpl; rewrite Hok, Hcl; reflexivity |].
      rewrite Hrun. vm_compute in Hr. congruence.
  - intros Hget.
    assert (Hf : fallo_de (Registro.get_clientes w)
                 = Some (Error (lit "API_ERROR"))).
    { destruct Hget as [Hget | (data & Hget & Hs)]; rewrite Hget; simpl;
        [| rewrite Hs]; reflexivity. }
    split.
    + rewrite buscarCliente_run, Hf. reflexivity.
    + destruct (consultarCliente_fallo args w (Error (lit "API_ERROR")) Hargs Hf)
        as (r & Hrun & Hr).
      rewrite Hrun. vm_compute in Hr. congruence.
  - rewrite buscarCliente_run. cbn [snd]. unfold fallo_de.
    destruct (Registro.get_clientes w) as [[data |] | resp];
      [destruct (Cuerpo.success data) eqn:Hok; cbn [negb];
       [destruct (Cuerpo.clientes data) as [[| c clientes] |] eqn:Hcl |] | |];
      repeat split; intros H;
      try discriminate H; try (vm_compute in H; discriminate H); eauto 8.
Qed.

Lemma find_some_first {A} (p : A -> bool) (l : list A) (x : A) :
  In x l -> p x = true -> exists y, find p l = Some y.
Proof.
  induction l as [| a l IH]; simpl; [contradiction |].
  intros [-> | Hin] Hp.
  - rewrite Hp. eauto.
  - destruct (p a); eauto.
Qed.

(** [find] returns the first element that passes the test. *)
Lemma find_primero {A} (p : A -> bool) (l : list A) (y : A) :
  find p l = Some y ->
  exists antes despues,
    l = antes ++ y :: despues /\ forall x, In x antes -> p x = false.
Proof.
  induction l as [| a l IH]; simpl; [discriminate |].
  destruct (p a) eqn:Hp.
  - intros E. injection E as ->. exists [], l. split; [reflexivity |].
    intros x [].
  - intros Hf. destruct (IH Hf) as (antes & despues & -> & Hno).
    exists (a :: antes), despues. split; [reflexivity |].
    intros x [<- | Hin]; [exact Hp | exact (Hno x Hin)].
Qed.

(** C5 (as the code has it). If the query is not a dotted quad and some
    record of the roster has a normalized name equal to the normalized
    query, the resolver returns a single record, whatever the partial
    matches are: the first record of the roster whose normalized name
    equals the normalized query. No record before it in the roster has
    that normalized name, and the given record is it or stands after it;
    it is the given record when no other record has that normalized
    name. *)
Theorem exact_name_precedence (identificador : jsstring) (w : Registro.t)
    (data : Cuerpo.t) (clientes : list Cliente.t) (c : Cliente.t) :
  Registro.get_clientes w = Resuelta (Some data) ->
  Cuerpo.success data = true ->
  Cuerpo.clientes data = Some clientes ->
  esIP identificador = false ->
  In c clientes ->
  normalizarTexto (Cliente.nombre c) = normalizarTexto identificador ->
  exists c',
    buscarCliente identificador w = ([Peticion GET_clientes], inl (Single c'))
    /\ find (fun x => str_eqb (normalizarTexto (Cliente.nombre x))
                              (normalizarTexto identificador)) clientes
       = Some c'
    /\ In c' clientes
    /\ normalizarTexto (Cliente.nombre c') = normalizarTexto identificador
    /\ ((forall x, In x clientes ->
           normalizarTexto (Cliente.nombre x) = normalizarTexto identificador ->
           x = c) -> c' = c)
    /\ exists antes despues,
         clientes = antes ++ c' :: despues
         /\ (forall x, In x antes ->
               normalizarTexto (Cliente.nombre x)
               <> normalizarTexto identificador)
         /\ (c' = c \/ In c despues).
Proof.
  intros Hget Hok Hcl Hip Hin Hnorm.
  destruct (find_some_first
              (fun x => str_eqb (normalizarTexto (Cliente.nombre x))
                                (normalizarTexto identificador))
              clientes c Hin) as [c' Hfind].
  { apply str_eqb_eq. exact Hnorm. }
  pose proof (find_some _ _ Hfind) as [Hin' Hn'].
  apply str_eqb_eq in Hn'.
  exists c'. split; [| repeat split; auto].
  - rewrite buscarCliente_run, Hget. simpl. rewrite Hok, Hcl. simpl.
    destruct clientes as [| c0 clientes0]; [contradiction |].
    unfold resolver. rewrite Hip. unfold buscar_por_nombre.
    rewrite Hfind. reflexivity.
  - destruct (find_primero _ _ _ Hfind) as (antes & despues & Heq & Hno).
    exists antes, despues. split; [exact Heq |]. split.
    + intros x Hx E. apply (proj2 (str_eqb_eq _ _)) in E.
      rewrite (Hno x Hx) in E. discriminate E.
    + rewrite Heq in Hin. apply in_app_or in Hin as [Hin | [Hin | Hin]];
        [| left; exact Hin | right; exact Hin].
      exfalso. apply (proj2 (str_eqb_eq _ _)) in Hnorm.
      rewrite (Hno c Hin) in Hnorm. discriminate Hnorm.
Qed.

Lemma clasificar_numero_ip f campo :
  Campos.ip (clasificar_numero f campo) = Campos.ip f.
Proof.
  unfold clasificar_numero.
  repeat match goal with |- context [if ?b then _ else _] => destruct b end;
    reflexivity.
Qed.

(** The classified IP, when there is one, is a dotted quad. *)
Lemma clasificar_ip resto :
  Campos.ip (clasificar resto) = [] \/ esIP (Campos.ip (clasificar resto)) = true.
Proof.
  apply clasificar_inv; [left; reflexivity |].
  intros f campo _ Hf. unfold clasificar_campo.
  destruct (esIP campo) eqn:Hip; [right; exact Hip |].
  destruct (esPlan campo).
  { destruct (match_velocidad campo); exact Hf. }
  destruct (esTelefono campo); [exact Hf |].
  destruct (esNumero campo); [rewrite clasificar_numero_ip; exact Hf |].
  destruct (tieneLetra campo); [| exact Hf].
  destruct (truthy (Campos.direccion f)); exact Hf.
Qed.

(** C6. The IP that the classifier finds in an upsert command is a
    dotted quad, so resolving it against a roster that holds exactly one
    record, with that IP, takes the exact-IP path and returns that
    record as a single match. *)
Theorem upsert_then_resolve (args : list jsstring) (nombre : jsstring)
    (resto : list jsstring) (w : Registro.t) (data : Cuerpo.t) (c : Cliente.t) :
  campos_de args = nombre :: resto ->
  truthy (Campos.ip (clasificar resto)) = true ->
  Cliente.ip_address c = Campos.ip (clasificar resto) ->
  Registro.get_clientes w = Resuelta (Some data) ->
  Cuerpo.success data = true ->
  Cuerpo.clientes data = Some [c] ->
  esIP (Campos.ip (clasificar resto)) = true
  /\ buscarCliente (Campos.ip (clasificar resto)) w
     = ([Peticion GET_clientes], inl (Single c)).
Proof.
  intros _ Hip Hc Hget Hok Hcl.
  assert (Hes : esIP (Campos.ip (clasificar resto)) = true).
  { destruct (clasificar_ip resto) as [H | H]; [| exact H].
    rewrite H in Hip. discriminate. }
  split; [exact Hes |].
  rewrite buscarCliente_run, Hget. simpl. rewrite Hok, Hcl. simpl.
  unfold resolver. rewrite Hes. simpl.
  rewrite Hc. rewrite (proj2 (str_eqb_eq _ _) eq_refl). reflexivity.
Qed.

End Resolver.

Lemma exact_name_precedence_witness :
  exists c',
    @buscarCliente ascii_host (lit "JUAN PEREZ")
      (registro_con [cliente_juan_garcia; cliente_juana; cliente_juan])
    = ([Peticion GET_clientes], inl (Single c'))
    /\ c' = cliente_juan
    /\ @coincide_parcial ascii_host
         (@normalizarTexto ascii_host (lit "JUAN PEREZ")) cliente_juan_garcia
       = true
    /\ @coincide_palabras ascii_host
         (split_ws (@normalizarTexto ascii_host (lit "JUAN PEREZ")))
         cliente_juana
       = true.
Proof.
  destruct (@exact_name_precedence ascii_host (lit "JUAN PEREZ")
              (registro_con [cliente_juan_garcia; cliente_juana; cliente_juan])
              {| Cuerpo.success := true; Cuerpo.error := None;
                 Cuerpo.clientes :=
                   Some [cliente_juan_garcia; cliente_juana; cliente_juan] |}
              [cliente_juan_garcia; cliente_juana; cliente_juan] cliente_juan
              eq_refl eq_refl eq_refl ltac:(vm_compute; reflexivity)
              ltac:(right; right; left; reflexivity)
              ltac:(vm_compute; reflexivity))
    as (c' & Hrun & Hfind & _).
  exists c'. split; [exact Hrun |].
  vm_compute in Hfind. injection Hfind as <-.
  repeat split; vm_compute; reflexivity.
Defined.

Lemma upsert_then_resolve_witness :
  @buscarCliente ascii_host (Campos.ip (clasificar [lit "172.16.1.50"]))
    (registro_con [cliente_juan])
  = ([Peticion GET_clientes], inl (Single cliente_juan)).
Proof.
  exact (proj2 (@upsert_then_resolve ascii_host args_minimo (lit "Juan Perez")
                  [lit "172.16.1.50"] (registro_con [cliente_juan])
                  {| Cuerpo.success := true; Cuerpo.error := None;
                     Cuerpo.clientes := Some [cliente_juan] |} cliente_juan
                  ltac:(vm_compute; reflexivity) ltac:(vm_compute; reflexivity)
                  ltac:(vm_compute; reflexivity) eq_refl eq_refl eq_refl)).
Defined.

Lemma failure_taxonomy_witness :
  @buscarCliente ascii_host (lit "Juan") registro_sin_lista
  = ([Peticion GET_clientes], inr (Error (lit "NO_CONEXION")))
  /\ @consultarCliente ascii_host [lit "Juan"] registro_sin_lista
     = ([Peticion GET_clientes; Reply NoConexionCuzoNet], inl tt).
Proof.
  exact (proj1 (@failure_taxonomy ascii_host (lit "Juan") [lit "Juan"]
                  registro_sin_lista ltac:(discriminate)) None eq_refl).
Defined.

(** C5 fails as worded: two clients are called Juan Perez; the second
    one is in the roster and its normalized name equals the normalized
    query, yet the resolver returns the first one, not that record. *)
Lemma exact_name_precedence_counterexample :
  let clientes := [cliente_juan; cliente_juan_homonimo] in
  let c := cliente_juan_homonimo in
  In c clientes
  /\ esIP (lit "Juan Perez") = false
  /\ @normalizarTexto ascii_host (Cliente.nombre c)
     = @normalizarTexto ascii_host (lit "Juan Perez")
  /\ @buscarCliente ascii_host (lit "Juan Perez") (registro_con clientes)
     = ([Peticion GET_clientes], inl (Single cliente_juan))
  /\ Single cliente_juan <> Single c.
Proof.
  cbv zeta. split; [right; left; reflexivity |].
  repeat split; try (vm_compute; reflexivity).
  intros H. vm_compute in H. discriminate H.
Qed.

(** C7 fails as worded: the registry is reached and answers the roster
    request with an HTTP error status and a body without [success]; the
    resolver throws [NO_CONEXION], the error of an unreachable registry,
    not [API_ERROR], and the query command answers that there is no
    connection. *)
Lemma failure_taxonomy_counterexample :
  responde_sin_exito (Registro.get_clientes registro_error_http) = true
  /\ @buscarCliente ascii_host (lit "Juan") registro_error_http
     = ([Peticion GET_clientes], inr (Error (lit "NO_CONEXION")))
  /\ Error (lit "NO_CONEXION") <> Error (lit "API_ERROR")
  /\ @consultarCliente ascii_host [lit "Juan"] registro_error_http
     = ([Peticion GET_clientes; Reply NoConexionCuzoNet], inl tt)
  /\ Reply NoConexionCuzoNet <> Reply ErrorConsultaAPI.
Proof.
  repeat split; try (vm_compute; reflexivity);
    intros H; vm_compute in H; discriminate H.
Qed.

(** ** The dispatcher *)

Lemma replies_app l l' : replies (l ++ l') = replies l ++ replies l'.
Proof. unfold replies. apply flat_map_app. Qed.

Lemma una_respuesta_reply r : una_respuesta (reply r).
Proof. intros w. reflexivity. Qed.

Lemma una_respuesta_registrarCliente args : una_respuesta (registrarCliente args).
Proof.
  intros w. unfold registrarCliente.
  destruct (campos_de args) as [| nombre [| c1 resto]] eqn:Hc;
    try reflexivity.
  cbn [List.length Nat.ltb Nat.leb nth skipn].
  rewrite (campos_de_truthy _ _ _ Hc). cbn [negb].
  destruct (truthy (Campos.ip (clasificar (c1 :: resto)))) eqn:Hip;
    [| reflexivity].
  cbn [negb]. unfold bind at 1. rewrite buscar_existente_run.
  destruct (existente _ _) as [c |].
  - destruct (actualizar_run nombre (clasificar (c1 :: resto)) c w) as [r ->].
    reflexivity.
  - destruct (crear_run nombre (clasificar (c1 :: resto)) w) as [r ->].
    reflexivity.
Qed.

Section Despacho.

Context {U : Unicode}.
Variable cfg : Config.t.

Lemma una_respuesta_consultarCliente args : una_respuesta (consultarCliente args).
Proof.
  intros w. unfold consultarCliente.
  destruct args as [| a args]; [reflexivity |].
  cbn [List.length Nat.ltb Nat.leb]. unfold bind at 1.
  destruct (fallo_de (Registro.get_clientes w)) as [e |] eqn:Hf.
  - destruct (buscar_o_responder_fallo (join (lit " ") (a :: args)) w e Hf)
      as (r & -> & _). reflexivity.
  - rewrite (buscar_o_responder_ok _ w Hf).
    destruct (resolver _ _) as [c | [| c1 [| c2 l]] |]; reflexivity.
Qed.

Lemma una_respuesta_registrar_pago cliente st monto :
  una_respuesta (registrar_pago cliente st monto).
Proof.
  intros w. unfold registrar_pago, try_catch, bind, uno_de.
  destruct cliente as [c | [| c l] |]; cbn [ret throw reply app];
    try reflexivity;
    unfold axios_post_pago, settle;
    match goal with |- context [Registro.post_pago w ?d] =>
      destruct (Registro.post_pago w d) as [[data |] | resp] end;
    cbn; try reflexivity; destruct (Cuerpo.success data); reflexivity.
Qed.

Lemma una_respuesta_procesarPago args : una_respuesta (procesarPago cfg args).
Proof.
  intros w. unfold procesarPago.
  destruct (Nat.ltb (List.length args) 2); [reflexivity |].
  destruct (Escaneo.monto (escanear cfg args)) as [monto |]; [| reflexivity].
  destruct (num_falsy monto || _)%bool; [reflexivity |].
  destruct (negb (truthy _)); [reflexivity |].
  unfold bind at 1.
  destruct (fallo_de (Registro.get_clientes w)) as [e |] eqn:Hf.
  - destruct (buscar_o_responder_fallo
                (identificador_de args (escanear cfg args)) w e Hf)
      as (r & -> & _). reflexivity.
  - rewrite (buscar_o_responder_ok _ w Hf).
    destruct (resolver _ _) as [c | [| c1 [| c2 l]] |] eqn:Hres;
      try reflexivity;
      match goal with |- context [registrar_pago ?c ?s ?m w] =>
        pose proof (una_respuesta_registrar_pago c s m w) as Hp;
        destruct (registrar_pago c s m w) as [lp [u | ex]] end;
      cbn [app replies flat_map]; exact Hp.
Qed.

Lemma una_respuesta_seleccion (h : Handlers.t) message :
  (forall args, una_respuesta (Handlers.procesarPago h args)) ->
  (forall args, una_respuesta (Handlers.registrarCliente h args)) ->
  (forall args, una_respuesta (Handlers.consultarCliente h args)) ->
  una_respuesta (Handlers.mostrarAyuda h) ->
  una_respuesta (seleccion h message).
Proof.
  intros Hp Hr Hc Ha. unfold seleccion.
  destruct (split_ws _) as [| p0 partes]; [apply una_respuesta_reply |].
  repeat match goal with |- context [if ?b then _ else _] => destruct b end;
    auto using una_respuesta_reply.
Qed.

Lemma despachar_seleccion (h : Handlers.t) message :
  despachar cfg h message
  = try_catch (if ignorado cfg message then ret tt else seleccion h message)
              (fun _ => reply ErrorInterno).
Proof.
  unfold despachar, ignorado, seleccion.
  destruct (truthy (Config.GRUPO_ID cfg)
            && negb (str_eqb (Message.from message) (Config.GRUPO_ID cfg)));
    [reflexivity |].
  destruct (startsWith (Config.PREFIJO cfg) (trim (Message.body message)));
    reflexivity.
Qed.

(** Whatever the handlers do, the listener returns normally; an error
    thrown by the selected command is answered with the internal-error
    text. *)
Lemma despachar_atrapa (h : Handlers.t) message w :
  snd (despachar cfg h message w) = inl tt
  /\ (ignorado cfg message = true -> fst (despachar cfg h message w) = [])
  /\ (forall l e, ignorado cfg message = false ->
       seleccion h message w = (l, inr e) ->
       despachar cfg h message w = (l ++ [Reply ErrorInterno], inl tt)).
Proof.
  rewrite despachar_seleccion. unfold try_catch.
  destruct (ignorado cfg message).
  - repeat split; [discriminate].
  - destruct (seleccion h message w) as [l [[] | e]] eqn:Hs; repeat split;
      try discriminate.
    intros l' e' _ H. injection H as <- <-. reflexivity.
Qed.

(** C8. The listener produces nothing for a message of another chat
    than the configured one or without the prefix; for any other
    message it produces exactly one reply; it always returns normally,
    and an error thrown by the command it runs, whatever the handlers,
    is caught and answered with the one internal-error text. *)
Theorem dispatcher_boundary (message : Message.t) (w : Registro.t) :
  snd (message_create cfg message w) = inl tt
  /\ (ignorado cfg message = true -> fst (message_create cfg message w) = [])
  /\ (ignorado cfg message = false ->
      List.length (replies (fst (message_create cfg message w))) = 1)
  /\ (forall (h : Handlers.t) l e,
        ignorado cfg message = false ->
        seleccion h message w = (l, inr e) ->
        despachar cfg h message w = (l ++ [Reply ErrorInterno], inl tt)
        /\ snd (despachar cfg h message w) = inl tt).
Proof.
  unfold message_create.
  destruct (despachar_atrapa (handlers cfg) message w) as (Hret & Hign & _).
  split; [exact Hret |]. split; [exact Hign |]. split.
  - intros Hno. rewrite despachar_seleccion, Hno. unfold try_catch.
    assert (Hu : una_respuesta (seleccion (handlers cfg) message)).
    { apply una_respuesta_seleccion; cbn.
      - apply una_respuesta_procesarPago.
      - apply una_respuesta_registrarCliente.
      - apply una_respuesta_consultarCliente.
      - apply una_respuesta_reply. }
    specialize (Hu w).
    destruct (seleccion (handlers cfg) message w) as [l [[] | e]].
    + exact Hu.
    + cbn [fst reply]. rewrite replies_app, Hu. reflexivity.
  - intros h l e Hno Hs.
    destruct (despachar_atrapa h message w) as (Hret' & _ & Hcatch).
    split; [apply (Hcatch l e Hno Hs) | exact Hret'].
Qed.

End Despacho.

Lemma dispatcher_boundary_witness :
  List.length
    (replies
       (fst (@message_create ascii_host CONFIG
               (Message.Build (lit "120363419809450940@g.us")
                  (lit "!consulta Juan Perez"))
               registro_sin_lista))) = 1.
Proof.
  apply (proj1 (proj2 (proj2
    (@dispatcher_boundary ascii_host CONFIG
       (Message.Build (lit "120363419809450940@g.us")
          (lit "!consulta Juan Perez"))
       registro_sin_lista)))).
  vm_compute. reflexivity.
Defined.

(** ** Worked commands

    The examples of the engine's documentation, run through the model. *)

Example extractor_nombre_metodo :
  let args := [lit "Juan"; lit "Perez"; lit "200"; lit "transferencia"] in
  @escanear ascii_host CONFIG args
  = Escaneo.Build (Some (num 200)) 2%Z (lit "transferencia") []
  /\ identificador_de args (@escanear ascii_host CONFIG args) = lit "Juan Perez".
Proof. vm_compute. split; reflexivity. Qed.

Example extractor_ip :
  let args := [lit "172.16.1.18"; lit "200"] in
  @escanear ascii_host CONFIG args
  = Escaneo.Build (Some (num 200)) 1%Z (lit "efectivo") []
  /\ identificador_de args (@escanear ascii_host CONFIG args) = lit "172.16.1.18".
Proof. vm_compute. split; reflexivity. Qed.

Example extractor_referencia :
  @escanear ascii_host CONFIG [lit "Juan"; lit "200"; lit "ref:12345"]
  = Escaneo.Build (Some (num 200)) 1%Z (lit "efectivo") (lit "12345").
Proof. vm_compute. reflexivity. Qed.

Example extractor_monto_en_indice_0 :
  @escanear ascii_host CONFIG [lit "200"; lit "efectivo"]
  = Escaneo.Build None (-1)%Z (lit "efectivo") [].
Proof. vm_compute. reflexivity. Qed.

Example clasificador_completo :
  clasificar [lit "172.16.1.50"; lit "32472792"; lit "Aldea Chinaha";
              lit "15"; lit "200"]
  = Campos.Build (lit "172.16.1.50") (lit "Basico 7Mbps") (lit "32472792")
      (lit "Aldea Chinaha") (num 15) (num 200) (lit "7M") (lit "7M").
Proof. vm_compute. reflexivity. Qed.

Example clasificador_plan_velocidad :
  clasificar [lit "172.16.1.50"; lit "Premium 20 Mbps"; lit "Zona 1";
              lit "Casa azul"]
  = Campos.Build (lit "172.16.1.50") (lit "Premium 20 Mbps") []
      (lit "Zona 1, Casa azul") (num 1) (num 0) (lit "20M") (lit "20M").
Proof. vm_compute. reflexivity. Qed.

Example patrones :
  List.map esIP [lit "172.16.1.50"; lit "1234.1.1.1"; lit "1.2.3";
                 lit "1.2.3.4.5"; lit "1..2.3"; lit " 1.2.3.4"]
  = [true; false; false; false; false; false]
  /\ List.map esNumero [lit "15"; lit "12.5"; lit "12."; lit ".5"; lit "1e3"; []]
     = [true; true; false; false; false; false]
  /\ List.map esPlan [lit "Basico 7Mbps"; lit "B" ++ [193%N] ++ lit "SICO";
                      lit "plan PREMIUM"; lit "Aldea Chinaha"]
     = [true; true; true; false]
  /\ List.map esTelefono [lit "32472792"; lit "+502 3247-2792"; lit "3247279";
                          lit "(502)32472792"]
     = [true; true; false; false].
Proof. vm_compute. repeat split; reflexivity. Qed.

Example parseFloat_redondea :
  parseFloat (lit "49.99999999999999999999") = num 50
  /\ parseFloat (lit "0.1") = Fin (3602879701896397 # 36028797018963968)
  /\ parseFloat (lit "1e309") = Inf false
  /\ parseFloat (lit "12abc") = num 12
  /\ parseFloat (lit "abc") = NaN.
Proof. vm_compute. repeat split; reflexivity. Qed.

Example pago_de_extremo_a_extremo :
  @message_create ascii_host CONFIG
    (Message.Build (lit "120363419809450940@g.us")
       (lit "!pago Juana Perez Lopez Q150 deposito ref:77"))
    (registro_con [cliente_juan; cliente_juana])
  = ([Peticion GET_clientes;
      Peticion (POST_pago
        (Pago.Build 8%N (num 150) (lit "deposito") (lit "77")
           (lit "Registrado via WhatsApp Bot") (lit "whatsapp-bot")));
      Reply (PagoRegistrado cliente_juana (num 150) (lit "deposito") (lit "77")
               true)], inl tt).
Proof. vm_compute. reflexivity. Qed.

Example consulta_por_palabras :
  @message_create ascii_host CONFIG
    (Message.Build (lit "120363419809450940@g.us") (lit "!CONSULTA lopez juana"))
    (registro_con [cliente_juan; cliente_juana])
  = ([Peticion GET_clientes; Reply (InformacionCliente cliente_juana)], inl tt).
Proof. vm_compute. reflexivity. Qed.

Example mensaje_de_otro_chat :
  @message_create ascii_host CONFIG
    (Message.Build (lit "5025550000@c.us") (lit "!ayuda"))
    (registro_con [cliente_juan])
  = ([], inl tt).
Proof. vm_compute. reflexivity. Qed.

(** * Further properties of the bot *)

(** ** Trimming and splitting *)

Lemma dropWhile_idem p s : dropWhile p (dropWhile p s) = dropWhile p s.
Proof.
  induction s as [| c s IH]; simpl; [reflexivity |].
  destruct (p c) eqn:Hp; [exact IH | simpl; rewrite Hp; reflexivity].
Qed.

Lemma dropWhile_head p s :
  match dropWhile p s with
  | [] => True
  | c :: _ => p c = false
  end.
Proof.
  induction s as [| c s IH]; simpl; [exact I |].
  destruct (p c) eqn:Hp; [exact IH | exact Hp].
Qed.

Lemma dropWhile_app_last p l c :
  p c = false -> dropWhile p (l ++ [c]) = dropWhile p l ++ [c].
Proof.
  intros Hc. induction l as [| a l IH]; simpl.
  - rewrite Hc. reflexivity.
  - destruct (p a); [exact IH | reflexivity].
Qed.

Lemma strip_end_cons p c t :
  p c = false ->
  rev (dropWhile p (rev (c :: t))) = c :: rev (dropWhile p (rev t)).
Proof.
  intros Hc. simpl. rewrite (dropWhile_app_last p (rev t) c Hc).
  rewrite rev_app_distr. reflexivity.
Qed.

Lemma In_dropWhile p x s : In x (dropWhile p s) -> In x s.
Proof.
  induction s as [| c s IH]; simpl; [auto |].
  destruct (p c); [auto |]. simpl. auto.
Qed.

Lemma In_trim x s : In x (trim s) -> In x s.
Proof.
  unfold trim. intros H. apply in_rev in H. apply In_dropWhile in H.
  apply in_rev in H. apply In_dropWhile in H. exact H.
Qed.

(** The two ends of a trimmed string are not white space. *)
Lemma trim_cases s :
  trim s = []
  \/ exists c u, trim s = c :: u /\ is_space c = false
                 /\ rev (dropWhile is_space (rev u)) = u.
Proof.
  unfold trim. pose proof (dropWhile_head is_space s) as Hh.
  destruct (dropWhile is_space s) as [| c t]; [left; reflexivity |].
  right. rewrite (strip_end_cons is_space c t Hh).
  exists c, (rev (dropWhile is_space (rev t))). repeat split; auto.
  rewrite rev_involutive, dropWhile_idem. reflexivity.
Qed.

Lemma trim_idem s : trim (trim s) = trim s.
Proof.
  destruct (trim_cases s) as [-> | (c & u & -> & Hc & Hu)]; [reflexivity |].
  unfold trim. simpl dropWhile. rewrite Hc.
  rewrite (strip_end_cons is_space c u Hc), Hu. reflexivity.
Qed.

Lemma split_char_aux_sin_sep sep s :
  forall cur, ~ In sep cur ->
    Forall (fun pieza => ~ In sep pieza) (split_char_aux sep cur s).
Proof.
  induction s as [| c s IH]; intros cur Hcur; simpl.
  - constructor; [| constructor]. intros H. apply in_rev in H. auto.
  - destruct (cu_eqb c sep) eqn:Hc.
    + constructor; [intros H; apply in_rev in H; auto |].
      apply IH. simpl. auto.
    + apply IH. simpl. intros [H | H]; [| auto].
      subst c. unfold cu_eqb in Hc. rewrite N.eqb_refl in Hc. discriminate.
Qed.

(** X1. Every field that [registrarCliente] cuts out of a command is
    non-empty, has no white space at either end and holds no slash. *)
Theorem campos_de_invariant (args : list jsstring) :
  Forall (fun campo => campo <> [] /\ trim campo = campo /\ ~ In 47%N campo)
         (campos_de args).
Proof.
  unfold campos_de. apply Forall_forall. intros campo Hin.
  apply filter_In in Hin as [Hin Hlen].
  apply in_map_iff in Hin as (pieza & <- & Hp).
  repeat split.
  - destruct (trim pieza); [discriminate | discriminate].
  - apply trim_idem.
  - intros H47. apply In_trim in H47.
    pose proof (split_char_aux_sin_sep 47%N (join (lit " ") args) []
                  (fun H => H)) as Hall.
    rewrite Forall_forall in Hall. apply (Hall pieza Hp H47).
Qed.

Lemma length_dropWhile p s : List.length (dropWhile p s) <= List.length s.
Proof.
  induction s as [| c s IH]; simpl; [lia |].
  destruct (p c); simpl; lia.
Qed.

(** A string that loses nothing when its end is stripped does not end
    with white space. *)
Lemma sin_cola_last u d :
  rev (dropWhile is_space (rev u)) = u -> u <> [] ->
  is_space (last u d) = false.
Proof.
  intros Hu Hne. destruct (rev u) as [| z r] eqn:Hr.
  - apply (f_equal (@rev cu)) in Hr. rewrite rev_involutive in Hr.
    simpl in Hr. contradiction.
  - assert (Hu' : u = rev r ++ [z]).
    { apply (f_equal (@rev cu)) in Hr. rewrite rev_involutive in Hr.
      exact Hr. }
    rewrite Hu', last_last.
    destruct (is_space z) eqn:Hz; [| reflexivity].
    exfalso. simpl in Hu. rewrite Hz in Hu.
    apply (f_equal (@List.length cu)) in Hu.
    rewrite length_rev in Hu. rewrite Hu' in Hu.
    rewrite length_app, length_rev in Hu. simpl in Hu.
    pose proof (length_dropWhile is_space r). lia.
Qed.

Lemma split_ws_aux_sin_espacio s :
  forall cur sk,
    (forall c, In c cur -> is_space c = false) ->
    Forall (fun tok => forall c, In c tok -> is_space c = false)
           (split_ws_aux cur sk s).
Proof.
  induction s as [| a s IH]; intros cur sk Hcur; simpl.
  - constructor; [| constructor]. intros c Hc. apply in_rev in Hc. auto.
  - destruct (is_space a) eqn:Ha.
    + destruct sk.
      * apply IH. exact Hcur.
      * constructor; [intros c Hc; apply in_rev in Hc; auto |].
        apply IH. intros c [].
    + apply IH. intros c [<- | Hc]; auto.
Qed.

Lemma split_ws_aux_no_vacios s :
  (forall cur,
      cur <> [] -> (s = [] \/ is_space (last s 0%N) = false) ->
      Forall (fun tok => tok <> []) (split_ws_aux cur false s))
  /\ (s <> [] -> is_space (last s 0%N) = false ->
      Forall (fun tok => tok <> []) (split_ws_aux [] true s)).
Proof.
  induction s as [| a s [IHa IHb]].
  - split; [| intros H; contradiction].
    intros cur Hcur _. simpl. constructor; [| constructor].
    intros H. apply (f_equal (@rev cu)) in H. rewrite rev_involutive in H.
    simpl in H. contradiction.
  - assert (Hresto : is_space (last (a :: s) 0%N) = false ->
                     is_space a = true ->
                     s <> [] /\ is_space (last s 0%N) = false).
    { intros Hl Ha. destruct s as [| b s'].
      - simpl in Hl. congruence.
      - split; [discriminate | exact Hl]. }
    assert (Hcola : is_space (last (a :: s) 0%N) = false ->
                    s = [] \/ is_space (last s 0%N) = false).
    { intros Hl. destruct s as [| b s']; [left; reflexivity | right; exact Hl]. }
    split.
    + intros cur Hcur [Hnil | Hl]; [discriminate |]. simpl.
      destruct (is_space a) eqn:Ha.
      * constructor.
        -- intros H. apply (f_equal (@rev cu)) in H.
           rewrite rev_involutive in H. simpl in H. contradiction.
        -- destruct (Hresto Hl eq_refl) as [Hs Hl']. apply IHb; assumption.
      * apply IHa; [discriminate | apply Hcola; exact Hl].
    + intros _ Hl. simpl. destruct (is_space a) eqn:Ha.
      * destruct (Hresto Hl eq_refl) as [Hs Hl']. apply IHb; assumption.
      * apply IHa; [discriminate | apply Hcola; exact Hl].
Qed.

(** X2. The words that the listener hands to a handler hold no white
    space; when the text after the prefix is blank there is the one
    empty word, and otherwise no word is empty. *)
Theorem partes_invariant (s : jsstring) :
  Forall (fun tok => forall c, In c tok -> is_space c = false)
         (split_ws (trim s))
  /\ ((trim s = [] /\ split_ws (trim s) = [[]])
      \/ (trim s <> [] /\ Forall (fun tok => tok <> []) (split_ws (trim s)))).
Proof.
  split.
  - apply split_ws_aux_sin_espacio. intros c [].
  - destruct (trim_cases s) as [-> | (c & u & -> & Hc & Hu)].
    + left. split; reflexivity.
    + right. split; [discriminate |].
      unfold split_ws. simpl. rewrite Hc.
      apply (proj1 (split_ws_aux_no_vacios u)); [discriminate |].
      destruct u as [| b u']; [left; reflexivity | right].
      apply sin_cola_last; [exact Hu | discriminate].
Qed.

Section Espacios.

Context {U : Unicode}.
Variable cfg : Config.t.

(** X3. White space around the text of a message does not change what
    the listener does with it. *)
Theorem despachar_trim (h : Handlers.t) (de body : jsstring) :
  despachar cfg h (Message.Build de (trim body))
  = despachar cfg h (Message.Build de body).
Proof.
  unfold despachar. cbn [Message.from Message.body].
  rewrite trim_idem. reflexivity.
Qed.

(** X4. A normalized text has no white space at either end and holds
    no combining mark of the range U+0300..U+036F. *)
Theorem normalizarTexto_invariant (texto : jsstring) :
  trim (normalizarTexto texto) = normalizarTexto texto
  /\ forallb (fun c => negb (in_range 768%N 879%N c)) (normalizarTexto texto)
     = true.
Proof.
  unfold normalizarTexto. split; [apply trim_idem |].
  apply forallb_forall. intros c Hc. apply In_trim in Hc.
  unfold remove_all in Hc. apply filter_In in Hc as [_ Hc]. exact Hc.
Qed.

End Espacios.

(** ** The classifier, field by field *)

Lemma clasificar_campo_ip f c :
  Campos.ip (clasificar_campo f c) = if esIP c then c else Campos.ip f.
Proof.
  unfold clasificar_campo. destruct (esIP c); [reflexivity |].
  destruct (esPlan c); [destruct (match_velocidad c); reflexivity |].
  destruct (esTelefono c); [reflexivity |].
  destruct (esNumero c); [apply clasificar_numero_ip |].
  destruct (tieneLetra c); [| reflexivity].
  destruct (truthy (Campos.direccion f)); reflexivity.
Qed.

Lemma clasificar_campo_telefono f c :
  Campos.telefono (clasificar_campo f c)
  = if rama_telefono c then c else Campos.telefono f.
Proof.
  unfold clasificar_campo, rama_telefono. destruct (esIP c); [reflexivity |].
  destruct (esPlan c); [destruct (match_velocidad c); reflexivity |].
  destruct (esTelefono c); [reflexivity |].
  destruct (esNumero c); [apply clasificar_numero_telefono |].
  destruct (tieneLetra c); [| reflexivity].
  destruct (truthy (Campos.direccion f)); reflexivity.
Qed.

Lemma clasificar_campo_plan f c :
  Campos.plan (clasificar_campo f c)
  = if rama_plan c then c else Campos.plan f.
Proof.
  unfold clasificar_campo, rama_plan. destruct (esIP c); [reflexivity |].
  destruct (esPlan c); [destruct (match_velocidad c); reflexivity |].
  destruct (esTelefono c); [reflexivity |].
  destruct (esNumero c); [apply clasificar_numero_plan |].
  destruct (tieneLetra c); [| reflexivity].
  destruct (truthy (Campos.direccion f)); reflexivity.
Qed.

Lemma clasificar_campo_direccion f c :
  Campos.direccion (clasificar_campo f c)
  = if rama_direccion c then
      if truthy (Campos.direccion f)
      then Campos.direccion f ++ lit ", " ++ c else c
    else Campos.direccion f.
Proof.
  unfold clasificar_campo, rama_direccion. destruct (esIP c); [reflexivity |].
  destruct (esPlan c); [destruct (match_velocidad c); reflexivity |].
  destruct (esTelefono c); [reflexivity |].
  destruct (esNumero c); cbn [negb andb].
  - rewrite clasificar_numero_eq. cbv zeta.
    repeat match goal with |- context [if ?b then _ else _] => destruct b end;
      reflexivity.
  - destruct (tieneLetra c); [| reflexivity].
    destruct (truthy (Campos.direccion f)); reflexivity.
Qed.

Lemma clasificar_campo_precio f c :
  Campos.precio (clasificar_campo f c)
  = if rama_numero c && ge (parseFloat c) (num 50) then parseFloat c
    else Campos.precio f.
Proof.
  unfold clasificar_campo, rama_numero. destruct (esIP c); [reflexivity |].
  destruct (esPlan c); [destruct (match_velocidad c); reflexivity |].
  destruct (esTelefono c); [reflexivity |].
  destruct (esNumero c).
  - rewrite clasificar_numero_eq. cbv zeta. cbn [negb andb].
    destruct (ge (parseFloat c) (num 50)); [reflexivity |].
    match goal with |- context [if ?b then _ else _] => destruct b end;
      reflexivity.
  - destruct (tieneLetra c); [| reflexivity].
    destruct (truthy (Campos.direccion f)); reflexivity.
Qed.

Lemma clasificar_campo_dia f c :
  Campos.diaCorteFinal (clasificar_campo f c)
  = if rama_numero c && negb (ge (parseFloat c) (num 50))
       && (ge (parseFloat c) (num 1) && le (parseFloat c) (num 28))
       && Num.seq (Campos.diaCorteFinal f) (num 1)
    then parseFloat c else Campos.diaCorteFinal f.
Proof.
  unfold clasificar_campo, rama_numero. destruct (esIP c); [reflexivity |].
  destruct (esPlan c); [destruct (match_velocidad c); reflexivity |].
  destruct (esTelefono c); [reflexivity |].
  destruct (esNumero c).
  - rewrite clasificar_numero_eq. cbv zeta. cbn [negb andb].
    destruct (ge (parseFloat c) (num 50)); [reflexivity |]. cbn [negb andb].
    destruct (ge (parseFloat c) (num 1) && le (parseFloat c) (num 28));
      cbn [andb]; [| reflexivity].
    destruct (Num.seq (Campos.diaCorteFinal f) (num 1)); reflexivity.
  - destruct (tieneLetra c); [| reflexivity].
    destruct (truthy (Campos.direccion f)); reflexivity.
Qed.

(** A field that each segment either overwrites or leaves alone ends
    with the value of the last segment that overwrites it. *)
Lemma fold_ultimo {A} (get : Campos.t -> A) (p : jsstring -> bool)
    (g : jsstring -> A) :
  (forall f c, get (clasificar_campo f c) = if p c then g c else get f) ->
  forall l f0,
    get (fold_left clasificar_campo l f0)
    = match find p (rev l) with
      | Some c => g c
      | None => get f0
      end.
Proof.
  intros Hstep. induction l as [| c l IH] using rev_ind; intros f0.
  - reflexivity.
  - rewrite fold_left_app, rev_unit. simpl. rewrite Hstep.
    destruct (p c); [reflexivity | apply IH].
Qed.

Lemma ultimo_gana_lema (resto : list jsstring) :
  Campos.ip (clasificar resto)
  = match find esIP (rev resto) with Some c => c | None => [] end
  /\ Campos.telefono (clasificar resto)
     = match find rama_telefono (rev resto) with Some c => c | None => [] end
  /\ Campos.plan (clasificar resto)
     = match find rama_plan (rev resto) with
       | Some c => c
       | None => lit "Basico 7Mbps"
       end.
Proof.
  unfold clasificar. repeat split.
  - apply (fold_ultimo Campos.ip esIP (fun c => c) clasificar_campo_ip).
  - apply (fold_ultimo Campos.telefono rama_telefono (fun c => c)
             clasificar_campo_telefono).
  - apply (fold_ultimo Campos.plan rama_plan (fun c => c)
             clasificar_campo_plan).
Qed.

(** X5. The last segment of its kind wins: the classified IP is the
    last dotted-quad segment, the telefono the last segment under the
    telefono rule, the plan the last segment under the plan rule; with
    no such segment they stay [''], [''] and ["Basico 7Mbps"]. *)
Theorem ultimo_gana (resto : list jsstring) :
  Campos.ip (clasificar resto)
  = match find esIP (rev resto) with Some c => c | None => [] end
  /\ Campos.telefono (clasificar resto)
     = match find rama_telefono (rev resto) with Some c => c | None => [] end
  /\ Campos.plan (clasificar resto)
     = match find rama_plan (rev resto) with
       | Some c => c
       | None => lit "Basico 7Mbps"
       end.
Proof. exact (ultimo_gana_lema resto). Qed.

Lemma clasificar_rangos_lema (resto : list jsstring) :
  ge (Campos.diaCorteFinal (clasificar resto)) (num 1)
  && le (Campos.diaCorteFinal (clasificar resto)) (num 28) = true
  /\ (Campos.precio (clasificar resto) = num 0
      \/ ge (Campos.precio (clasificar resto)) (num 50) = true).
Proof.
  apply clasificar_inv; [split; [reflexivity | left; reflexivity] |].
  intros f c _ [Hd Hp]. rewrite clasificar_campo_dia, clasificar_campo_precio.
  split.
  - destruct (rama_numero c && negb (ge (parseFloat c) (num 50))
              && (ge (parseFloat c) (num 1) && le (parseFloat c) (num 28)))
      eqn:H; cbn [andb]; [| exact Hd].
    destruct (Num.seq (Campos.diaCorteFinal f) (num 1)); [| exact Hd].
    apply andb_prop in H as [_ H]. exact H.
  - destruct (rama_numero c && ge (parseFloat c) (num 50)) eqn:H; [| exact Hp].
    right. apply andb_prop in H as [_ H]. exact H.
Qed.

(** X6. Whatever the segments, the classified billing day lies in
    [1, 28] and the classified price is 0 or at least 50. *)
Theorem clasificar_rangos (resto : list jsstring) :
  ge (Campos.diaCorteFinal (clasificar resto)) (num 1)
  && le (Campos.diaCorteFinal (clasificar resto)) (num 28) = true
  /\ (Campos.precio (clasificar resto) = num 0
      \/ ge (Campos.precio (clasificar resto)) (num 50) = true).
Proof. exact (clasificar_rangos_lema resto). Qed.

Lemma find_map_filter {A B} (r : A -> bool) (q : B -> bool) (g : A -> B) l :
  match find (fun c => r c && q (g c)) l with
  | Some c => Some (g c)
  | None => None
  end = find q (List.map g (filter r l)).
Proof.
  induction l as [| c l IH]; simpl; [reflexivity |].
  destruct (r c); simpl; [| exact IH].
  destruct (q (g c)); [reflexivity | exact IH].
Qed.

Lemma filter_rev_eq {A} (p : A -> bool) l : filter p (rev l) = rev (filter p l).
Proof.
  induction l as [| c l IH]; simpl; [reflexivity |].
  rewrite filter_app, IH. simpl. destruct (p c); simpl;
    [reflexivity | apply app_nil_r].
Qed.

Lemma ge_50_not_le_28 n : ge n (num 50) = true -> le n (num 28) = false.
Proof.
  intros H. destruct (le n (num 28)) eqn:Hle; [| reflexivity].
  rewrite (le_28_not_ge_50 n Hle) in H. discriminate.
Qed.

(** The billing day under a run of segments: frozen once it differs
    from 1, else set by the first value in [1, 28] that is not 1. *)
Lemma dia_primero l :
  forall f0,
    let d := Campos.diaCorteFinal (fold_left clasificar_campo l f0) in
    if Num.seq (Campos.diaCorteFinal f0) (num 1) then
      match find (fun n => ge n (num 1) && le n (num 28)
                           && negb (Num.seq n (num 1))) (numeros l) with
      | Some n => d = n
      | None => Num.seq d (num 1) = true
      end
    else d = Campos.diaCorteFinal f0.
Proof.
  induction l as [| c l IH]; intros f0; cbv zeta.
  - simpl. destruct (Num.seq (Campos.diaCorteFinal f0) (num 1)) eqn:H; auto.
  - simpl fold_left. specialize (IH (clasificar_campo f0 c)). cbv zeta in IH.
    rewrite clasificar_campo_dia in IH. unfold numeros in *. simpl filter.
    destruct (Num.seq (Campos.diaCorteFinal f0) (num 1)) eqn:Hd.
    + destruct (rama_numero c) eqn:Hr; cbn [andb negb] in IH.
      * simpl List.map. simpl find.
        destruct (ge (parseFloat c) (num 50)) eqn:H50; cbn [andb negb] in IH.
        -- rewrite (ge_50_not_le_28 _ H50), andb_false_r. cbn [andb].
           rewrite Hd in IH. exact IH.
        -- destruct (ge (parseFloat c) (num 1) && le (parseFloat c) (num 28));
             cbn [andb negb] in *.
           ++ destruct (Num.seq (parseFloat c) (num 1)) eqn:H1;
                cbn [negb]; exact IH.
           ++ rewrite Hd in IH. exact IH.
      * rewrite Hd in IH. exact IH.
    + rewrite !andb_false_r in IH. rewrite Hd in IH. exact IH.
Qed.

(** X7. Among the values of the numeric segments, the price is the last
    one that is at least 50 (0 when there is none), and the billing day
    is the first one in [1, 28] other than 1 (still 1 when there is
    none): a later day never replaces an earlier one. *)
Theorem precio_ultimo_dia_primero (resto : list jsstring) :
  Campos.precio (clasificar resto)
  = match find (fun n => ge n (num 50)) (rev (numeros resto)) with
    | Some n => n
    | None => num 0
    end
  /\ match find (fun n => ge n (num 1) && le n (num 28)
                          && negb (Num.seq n (num 1))) (numeros resto) with
     | Some n => Campos.diaCorteFinal (clasificar resto) = n
     | None => Num.seq (Campos.diaCorteFinal (clasificar resto)) (num 1) = true
     end.
Proof.
  split.
  - unfold clasificar.
    rewrite (fold_ultimo Campos.precio
               (fun c => rama_numero c && ge (parseFloat c) (num 50))
               parseFloat clasificar_campo_precio).
    unfold numeros. rewrite <- map_rev, <- filter_rev_eq.
    rewrite <- (find_map_filter rama_numero (fun n => ge n (num 50)) parseFloat).
    destruct (find _ (rev resto)); reflexivity.
  - exact (dia_primero resto campos_iniciales).
Qed.

Lemma join_snoc sep acc c :
  acc <> [] -> join sep (acc ++ [c]) = join sep acc ++ sep ++ c.
Proof.
  induction acc as [| a acc IH]; intros Hne; [contradiction |].
  destruct acc as [| b acc'].
  - reflexivity.
  - change (join sep ((a :: b :: acc') ++ [c]))
      with (a ++ sep ++ join sep ((b :: acc') ++ [c])).
    rewrite IH by discriminate.
    change (join sep (a :: b :: acc')) with (a ++ sep ++ join sep (b :: acc')).
    rewrite <- !app_assoc. reflexivity.
Qed.

Lemma truthy_join sep acc :
  Forall (fun s => s <> []) acc ->
  truthy (join sep acc) = match acc with [] => false | _ :: _ => true end.
Proof.
  intros H. destruct acc as [| a acc]; [reflexivity |].
  inversion H as [| ? ? Ha _]; subst.
  destruct a as [| x a]; [contradiction |].
  destruct acc; reflexivity.
Qed.

Lemma rama_direccion_no_vacio c : rama_direccion c = true -> c <> [].
Proof. intros H ->. vm_compute in H. discriminate. Qed.

Lemma direccion_acumula l :
  forall f0 acc,
    Forall (fun s => s <> []) acc ->
    Campos.direccion f0 = join (lit ", ") acc ->
    Campos.direccion (fold_left clasificar_campo l f0)
    = join (lit ", ") (acc ++ filter rama_direccion l).
Proof.
  induction l as [| c l IH]; intros f0 acc Hacc Hf0; simpl.
  - rewrite app_nil_r. exact Hf0.
  - destruct (rama_direccion c) eqn:Hr.
    + replace (acc ++ c :: filter rama_direccion l)
        with ((acc ++ [c]) ++ filter rama_direccion l)
        by (rewrite <- app_assoc; reflexivity).
      apply IH.
      * apply Forall_app. split; [exact Hacc |].
        constructor; [apply rama_direccion_no_vacio; exact Hr | constructor].
      * rewrite clasificar_campo_direccion, Hr, Hf0, (truthy_join _ acc Hacc).
        destruct acc as [| a acc']; [reflexivity |].
        rewrite join_snoc by discriminate. reflexivity.
    + apply IH; [exact Hacc |].
      rewrite clasificar_campo_direccion, Hr. exact Hf0.
Qed.

(** X8. The classified address is the segments under the address rule,
    in their order, joined by a comma and a space. *)
Theorem direccion_unida (resto : list jsstring) :
  Campos.direccion (clasificar resto)
  = join (lit ", ") (filter rama_direccion resto).
Proof.
  exact (direccion_acumula resto campos_iniciales [] (Forall_nil _) eq_refl).
Qed.

(** ** What counts as an IP *)

Lemma Lang_Alt_inv r1 r2 s : Lang (Alt r1 r2) s <-> Lang r1 s \/ Lang r2 s.
Proof.
  split.
  - intros H. inversion H; subst; auto.
  - intros [H | H]; [apply LAltL | apply LAltR]; exact H.
Qed.

Lemma Lang_Eps_inv s : Lang Eps s <-> s = [].
Proof.
  split; [intros H; inversion H; reflexivity | intros ->; constructor].
Qed.

Lemma Lang_upto_Cls p n :
  forall s, Lang (upto n (Cls p)) s
            <-> (List.length s <= n /\ forallb p s = true).
Proof.
  induction n as [| n IH]; intros s; simpl.
  - rewrite Lang_Eps_inv. split.
    + intros ->. auto.
    + intros [Hl _]. destruct s; [reflexivity | simpl in Hl; lia].
  - unfold opt. rewrite Lang_Alt_inv, Lang_Seq_inv, Lang_Eps_inv. split.
    + intros [(s1 & s2 & -> & H1 & H2) | ->]; [| simpl; split; [lia | auto]].
      apply Lang_Cls_inv in H1 as (c & -> & Hc). apply IH in H2 as [Hl Hf].
      simpl. rewrite Hc, Hf. split; [lia | reflexivity].
    + intros [Hl Hf]. destruct s as [| c s]; [right; reflexivity | left].
      simpl in Hf. apply andb_prop in Hf as [Hc Hs].
      exists [c], s. repeat split.
      * constructor; exact Hc.
      * apply IH. simpl in Hl. split; [lia | exact Hs].
Qed.

Lemma Lang_octeto s : Lang (rep_range 1 3 digito) s <-> octeto s.
Proof.
  unfold rep_range, digito, octeto. rewrite Lang_Seq_inv. split.
  - intros (s1 & s2 & -> & H1 & H2).
    apply Lang_rep_Cls in H1 as [Hl1 Hf1].
    apply Lang_upto_Cls in H2 as [Hl2 Hf2].
    rewrite length_app, forallb_app, Hf1, Hf2. simpl in Hl2.
    split; [lia | reflexivity].
  - intros [Hl Hf]. destruct s as [| c s]; [simpl in Hl; lia |].
    simpl in Hf. apply andb_prop in Hf as [Hc Hs].
    exists [c], s. repeat split.
    + apply Lang_rep_Cls. simpl. rewrite Hc. auto.
    + apply Lang_upto_Cls. simpl in Hl. simpl. split; [lia | exact Hs].
Qed.

Lemma Lang_octeto_punto s :
  Lang (Seq (rep_range 1 3 digito) (chr 46%N)) s
  <-> exists a, s = a ++ [46%N] /\ octeto a.
Proof.
  rewrite Lang_Seq_inv. split.
  - intros (a & p & -> & Ha & Hp). apply Lang_octeto in Ha.
    apply Lang_Cls_inv in Hp as (x & -> & Hx).
    unfold cu_eqb in Hx. apply N.eqb_eq in Hx. subst x. eauto.
  - intros (a & -> & Ha). exists a, [46%N]. repeat split.
    + apply Lang_octeto. exact Ha.
    + apply Lang_Cls_inv. exists 46%N. auto.
Qed.

(** X9. The IP test accepts exactly four groups of one to three decimal
    digits separated by dots; the value of a group is not bounded. *)
Theorem esIP_forma (s : jsstring) :
  esIP s = true <->
  exists a b c d,
    s = a ++ 46%N :: b ++ 46%N :: c ++ 46%N :: d
    /\ octeto a /\ octeto b /\ octeto c /\ octeto d.
Proof.
  unfold esIP, test_anchored, re_ip. rewrite matches_Lang.
  cbn [rep]. rewrite Lang_Seq_inv. split.
  - intros (x & d & -> & Hx & Hd). apply Lang_octeto in Hd.
    apply Lang_Seq_inv in Hx as (x1 & y1 & -> & H1 & Hx).
    apply Lang_Seq_inv in Hx as (x2 & y2 & -> & H2 & Hx).
    apply Lang_Seq_inv in Hx as (x3 & y3 & -> & H3 & Hx).
    apply Lang_Eps_inv in Hx. subst y3.
    apply Lang_octeto_punto in H1 as (a & -> & Ha).
    apply Lang_octeto_punto in H2 as (b & -> & Hb).
    apply Lang_octeto_punto in H3 as (c & -> & Hc).
    exists a, b, c, d. repeat split; try assumption; try apply Ha;
      try apply Hb; try apply Hc; try apply Hd.
    rewrite app_nil_r, <- !app_assoc. reflexivity.
  - intros (a & b & c & d & -> & Ha & Hb & Hc & Hd).
    exists ((a ++ [46%N]) ++ (b ++ [46%N]) ++ (c ++ [46%N]) ++ []), d.
    repeat split.
    + rewrite app_nil_r, <- !app_assoc. reflexivity.
    + constructor; [apply Lang_octeto_punto; eauto |].
      constructor; [apply Lang_octeto_punto; eauto |].
      constructor; [apply Lang_octeto_punto; eauto | constructor].
    + apply Lang_octeto. exact Hd.
Qed.

(** ** Validation in [registrarCliente] *)

Lemma find_esIP_existsb l :
  match find esIP (rev l) with
  | Some c => existsb esIP l = true /\ esIP c = true
  | None => existsb esIP l = false
  end.
Proof.
  destruct (find esIP (rev l)) as [c |] eqn:Hf.
  - apply find_some in Hf as [Hin Hc]. split; [| exact Hc].
    apply existsb_exists. exists c. split; [apply in_rev; exact Hin | exact Hc].
  - destruct (existsb esIP l) eqn:He; [| reflexivity].
    apply existsb_exists in He as (c & Hin & Hc).
    apply in_rev in Hin. rewrite (find_none _ _ Hf c Hin) in Hc. discriminate.
Qed.

Lemma esIP_truthy c : esIP c = true -> truthy c = true.
Proof. destruct c; [vm_compute; discriminate | reflexivity]. Qed.

(** X10. A command with fewer than two fields is answered with the
    format help, and one with no dotted-quad field after the name with
    the missing-IP text: in both cases the registry is not contacted.
    Any other command starts by fetching the roster. *)
Theorem registrarCliente_validacion (args : list jsstring) (w : Registro.t) :
  match campos_de args with
  | [] | [_] =>
      registrarCliente args w = ([Reply FormatoClienteIncorrecto], inl tt)
  | nombre :: resto =>
      if existsb esIP resto
      then exists l r, registrarCliente args w = (Peticion GET_clientes :: l, r)
      else registrarCliente args w = ([Reply IPNoDetectada], inl tt)
  end.
Proof.
  destruct (campos_de args) as [| nombre [| c1 resto]] eqn:Hc.
  - unfold registrarCliente. rewrite Hc. reflexivity.
  - unfold registrarCliente. rewrite Hc. reflexivity.
  - pose proof (find_esIP_existsb (c1 :: resto)) as Hf.
    pose proof (proj1 (ultimo_gana_lema (c1 :: resto))) as Hip.
    destruct (find esIP (rev (c1 :: resto))) as [c |].
    + destruct Hf as [-> Hes].
      rewrite (registrarCliente_run args nombre (c1 :: resto) w Hc
                 ltac:(discriminate)); [eauto |].
      rewrite Hip. apply esIP_truthy. exact Hes.
    + rewrite Hf. unfold registrarCliente. rewrite Hc.
      cbn [List.length Nat.ltb Nat.leb nth skipn].
      rewrite (campos_de_truthy _ _ _ Hc), Hip. reflexivity.
Qed.

(** ** What the resolver returns *)

Section ResolverMas.

Context {U : Unicode}.

Lemma filter_nil_iff {A} (p : A -> bool) l :
  filter p l = [] <-> forall x, In x l -> p x = false.
Proof.
  split.
  - intros Hnil x Hin. destruct (p x) eqn:Hp; [| reflexivity].
    assert (H : In x (filter p l)) by (apply filter_In; auto).
    rewrite Hnil in H. contradiction.
  - intros H. destruct (filter p l) as [| a r] eqn:Hf; [reflexivity |].
    assert (Ha : In a (filter p l)) by (rewrite Hf; left; reflexivity).
    apply filter_In in Ha as [Hin Hp]. rewrite (H a Hin) in Hp. discriminate.
Qed.

Lemma resolver_sound clientes identificador :
  let busqueda := normalizarTexto identificador in
  match resolver clientes identificador with
  | Single c =>
      In c clientes
      /\ if esIP identificador then Cliente.ip_address c = identificador
         else normalizarTexto (Cliente.nombre c) = busqueda
              \/ coincide_parcial busqueda c = true
              \/ coincide_palabras (split_ws busqueda) c = true
  | Multiple l =>
      esIP identificador = false /\ 2 <= List.length l
      /\ forall x, In x l ->
           In x clientes
           /\ (coincide_parcial busqueda x = true
               \/ coincide_palabras (split_ws busqueda) x = true)
  | NotFound => True
  end.
Proof.
  intros busqueda. unfold resolver.
  destruct (esIP identificador) eqn:Hip.
  - destruct (find _ clientes) as [c |] eqn:Hf; [| exact I].
    apply find_some in Hf as [Hin Heq]. apply str_eqb_eq in Heq. auto.
  - unfold buscar_por_nombre. fold busqueda.
    destruct (find _ clientes) as [c |] eqn:Hf.
    { apply find_some in Hf as [Hin Heq]. apply str_eqb_eq in Heq.
      auto. }
    destruct (filter (coincide_parcial busqueda) clientes)
      as [| c1 [| c2 l]] eqn:Hpar.
    + destruct (filter (coincide_palabras (split_ws busqueda)) clientes)
        as [| d1 [| d2 l]] eqn:Hpal; [exact I | |].
      * assert (H : In d1 (filter (coincide_palabras (split_ws busqueda))
                             clientes)) by (rewrite Hpal; left; reflexivity).
        apply filter_In in H as [Hin Hp]. auto.
      * split; [reflexivity |]. split; [simpl; lia |].
        intros x Hx. rewrite <- Hpal in Hx.
        apply filter_In in Hx as [Hin Hp]. auto.
    + assert (H : In c1 (filter (coincide_parcial busqueda) clientes))
        by (rewrite Hpar; left; reflexivity).
      apply filter_In in H as [Hin Hp]. auto.
    + split; [reflexivity |]. split; [simpl; lia |].
      intros x Hx. rewrite <- Hpar in Hx.
      apply filter_In in Hx as [Hin Hp]. auto.
Qed.

Lemma buscarCliente_sound_lema (identificador : jsstring) (w : Registro.t) :
  let clientes := lista_de (Registro.get_clientes w) in
  let busqueda := normalizarTexto identificador in
  match snd (buscarCliente identificador w) with
  | inl (Single c) =>
      In c clientes
      /\ if esIP identificador then Cliente.ip_address c = identificador
         else normalizarTexto (Cliente.nombre c) = busqueda
              \/ coincide_parcial busqueda c = true
              \/ coincide_palabras (split_ws busqueda) c = true
  | inl (Multiple l) =>
      esIP identificador = false /\ 2 <= List.length l
      /\ forall x, In x l ->
           In x clientes
           /\ (coincide_parcial busqueda x = true
               \/ coincide_palabras (split_ws busqueda) x = true)
  | _ => True
  end.
Proof.
  intros clientes busqueda. rewrite buscarCliente_run. cbn [snd].
  destruct (fallo_de (Registro.get_clientes w)); [exact I |].
  exact (resolver_sound clientes identificador).
Qed.

(** X11. What [buscarCliente] returns comes from the roster it fetched:
    a single record is in the roster and matches the query (by IP for a
    dotted quad, else by name: exactly, partially or word by word); an
    array holds at least two records, all of the roster and matching by
    name, and is never returned for a dotted quad. *)
Theorem buscarCliente_sound (identificador : jsstring) (w : Registro.t) :
  let clientes := lista_de (Registro.get_clientes w) in
  let busqueda := normalizarTexto identificador in
  match snd (buscarCliente identificador w) with
  | inl (Single c) =>
      In c clientes
      /\ if esIP identificador then Cliente.ip_address c = identificador
         else normalizarTexto (Cliente.nombre c) = busqueda
              \/ coincide_parcial busqueda c = true
              \/ coincide_palabras (split_ws busqueda) c = true
  | inl (Multiple l) =>
      esIP identificador = false /\ 2 <= List.length l
      /\ forall x, In x l ->
           In x clientes
           /\ (coincide_parcial busqueda x = true
               \/ coincide_palabras (split_ws busqueda) x = true)
  | _ => True
  end.
Proof. exact (buscarCliente_sound_lema identificador w). Qed.

(** X12. On a roster that was fetched, [buscarCliente] returns [null]
    exactly when no record matches: for a dotted quad, no record has
    that IP (names are not consulted); otherwise no record has the
    normalized name, none matches it partially and none holds all its
    words. *)
Theorem buscarCliente_null (identificador : jsstring) (w : Registro.t) :
  fallo_de (Registro.get_clientes w) = None ->
  let clientes := lista_de (Registro.get_clientes w) in
  let busqueda := normalizarTexto identificador in
  snd (buscarCliente identificador w) = inl NotFound
  <-> if esIP identificador then
        forall x, In x clientes -> Cliente.ip_address x <> identificador
      else
        forall x, In x clientes ->
          normalizarTexto (Cliente.nombre x) <> busqueda
          /\ coincide_parcial busqueda x = false
          /\ coincide_palabras (split_ws busqueda) x = false.
Proof.
  intros Hf clientes busqueda. rewrite buscarCliente_run, Hf. cbn [snd].
  fold clientes. unfold resolver.
  destruct (esIP identificador) eqn:Hip.
  - destruct (find _ clientes) as [c |] eqn:Hfind; split.
    + discriminate.
    + intros H. apply find_some in Hfind as [Hin Heq].
      apply str_eqb_eq in Heq. destruct (H c Hin Heq).
    + intros _ x Hin Heq. pose proof (find_none _ _ Hfind x Hin) as Hx.
      cbn beta in Hx. rewrite Heq in Hx.
      rewrite (proj2 (str_eqb_eq _ _) eq_refl) in Hx. discriminate.
    + reflexivity.
  - unfold buscar_por_nombre. fold busqueda.
    destruct (find _ clientes) as [c |] eqn:Hfind.
    { split; [discriminate |]. intros H.
      apply find_some in Hfind as [Hin Heq]. apply str_eqb_eq in Heq.
      destruct (proj1 (H c Hin) Heq). }
    destruct (filter (coincide_parcial busqueda) clientes)
      as [| c1 [| c2 l]] eqn:Hpar.
    + destruct (filter (coincide_palabras (split_ws busqueda)) clientes)
        as [| d1 [| d2 l]] eqn:Hpal.
      * split; [| reflexivity]. intros _ x Hin. repeat split.
        -- intros Heq. pose proof (find_none _ _ Hfind x Hin) as Hx.
           cbn beta in Hx. rewrite Heq in Hx.
           rewrite (proj2 (str_eqb_eq _ _) eq_refl) in Hx. discriminate.
        -- apply (proj1 (filter_nil_iff _ _) Hpar x Hin).
        -- apply (proj1 (filter_nil_iff _ _) Hpal x Hin).
      * split; [discriminate |]. intros H.
        assert (Hd : In d1 (filter (coincide_palabras (split_ws busqueda))
                              clientes)) by (rewrite Hpal; left; reflexivity).
        apply filter_In in Hd as [Hin Hp].
        destruct (H d1 Hin) as (_ & _ & Hno). congruence.
      * split; [discriminate |]. intros H.
        assert (Hd : In d1 (filter (coincide_palabras (split_ws busqueda))
                              clientes)) by (rewrite Hpal; left; reflexivity).
        apply filter_In in Hd as [Hin Hp].
        destruct (H d1 Hin) as (_ & _ & Hno). congruence.
    + split; [discriminate |]. intros H.
      assert (Hd : In c1 (filter (coincide_parcial busqueda) clientes))
        by (rewrite Hpar; left; reflexivity).
      apply filter_In in Hd as [Hin Hp].
      destruct (H c1 Hin) as (_ & Hno & _). congruence.
    + split; [discriminate |]. intros H.
      assert (Hd : In c1 (filter (coincide_parcial busqueda) clientes))
        by (rewrite Hpar; left; reflexivity).
      apply filter_In in Hd as [Hin Hp].
      destruct (H c1 Hin) as (_ & Hno & _). congruence.
Qed.

End ResolverMas.

Lemma buscarCliente_null_witness :
  snd (@buscarCliente ascii_host (lit "172.16.1.99")
         (registro_con [cliente_juan; cliente_juana]))
  = inl NotFound.
Proof.
  apply (proj2 (@buscarCliente_null ascii_host (lit "172.16.1.99")
                  (registro_con [cliente_juan; cliente_juana]) eq_refl)).
  vm_compute. intros x [<- | [<- | []]]; discriminate.
Defined.

(** ** What each command can do *)

Section Casos.

Context {U : Unicode}.
Variable cfg : Config.t.

Lemma es_metodo_In tok :
  es_metodo cfg tok = true -> In (toLowerCase tok) (Config.METODOS_PAGO cfg).
Proof.
  unfold es_metodo. intros H. apply existsb_exists in H as (x & Hin & Hx).
  apply str_eqb_eq in Hx. rewrite Hx. exact Hin.
Qed.

Lemma escanear_desde_inv args :
  forall i st,
    Escaneo.monto st = None -> Escaneo.montoIndex st = (-1)%Z ->
    metodo_valido cfg (Escaneo.metodoPago st) ->
    metodo_valido cfg (Escaneo.metodoPago (escanear_desde cfg args i st))
    /\ ((Escaneo.monto (escanear_desde cfg args i st) = None
         /\ Escaneo.montoIndex (escanear_desde cfg args i st) = (-1)%Z)
        \/ exists k,
            1 <= k <= i
            /\ Escaneo.montoIndex (escanear_desde cfg args i st) = Z.of_nat k
            /\ Escaneo.monto (escanear_desde cfg args i st)
               = Some (numero_de (nth k args []))
            /\ detiene cfg (nth k args []) = true).
Proof.
  assert (Hsube : forall i (st' : Escaneo.t),
    (metodo_valido cfg (Escaneo.metodoPago st')
     /\ ((Escaneo.monto st' = None /\ Escaneo.montoIndex st' = (-1)%Z)
         \/ exists k,
             1 <= k <= i
             /\ Escaneo.montoIndex st' = Z.of_nat k
             /\ Escaneo.monto st' = Some (numero_de (nth k args []))
             /\ detiene cfg (nth k args []) = true)) ->
    (metodo_valido cfg (Escaneo.metodoPago st')
     /\ ((Escaneo.monto st' = None /\ Escaneo.montoIndex st' = (-1)%Z)
         \/ exists k,
             1 <= k <= S i
             /\ Escaneo.montoIndex st' = Z.of_nat k
             /\ Escaneo.monto st' = Some (numero_de (nth k args []))
             /\ detiene cfg (nth k args []) = true))).
  { intros i st' [H1 [H2 | (k & Hk & H2)]]; split; auto.
    right. exists k. split; [lia | exact H2]. }
  induction i as [| i IH]; intros st Hm Hi Hok.
  - simpl. auto.
  - rewrite (escanear_desde_paso cfg args i st _ eq_refl).
    match goal with |- context [es_referencia ?t] =>
      set (tok := t); assert (Htok : nth (S i) args [] = tok) by reflexivity
    end.
    destruct (es_referencia tok) eqn:Hr.
    { apply Hsube. apply IH; assumption. }
    destruct (es_metodo cfg tok) eqn:Hmet.
    { apply Hsube. apply IH; try assumption.
      right. apply es_metodo_In. exact Hmet. }
    destruct (es_monto (numero_de tok)) eqn:Hmon.
    + split; [exact Hok |]. right. exists (S i).
      cbn [Escaneo.montoIndex Escaneo.monto]. rewrite Htok.
      repeat split; try lia. unfold detiene. rewrite Hr, Hmet, Hmon.
      reflexivity.
    + apply Hsube. apply IH; assumption.
Qed.

Lemma escanear_invariant_lema (args : list jsstring) :
  let st := escanear cfg args in
  metodo_valido cfg (Escaneo.metodoPago st)
  /\ ((Escaneo.monto st = None /\ Escaneo.montoIndex st = (-1)%Z)
      \/ exists k,
          1 <= k < List.length args
          /\ Escaneo.montoIndex st = Z.of_nat k
          /\ Escaneo.monto st = Some (numero_de (nth k args []))
          /\ detiene cfg (nth k args []) = true
          /\ es_monto (numero_de (nth k args [])) = true).
Proof.
  destruct (escanear_desde_inv args (List.length args - 1) escaneo_inicial
              eq_refl eq_refl (or_introl eq_refl))
    as [H1 [H2 | (k & Hk & Hi & Hm & Hd)]]; split; auto.
  right. exists k. repeat split; auto; try lia.
  unfold detiene in Hd. apply andb_prop in Hd as [_ Hd]. exact Hd.
Qed.

(** X13. After the scan of a payment command the method is "efectivo"
    or one of the configured methods, and either no amount was found
    ([monto] is [null], [montoIndex] is -1) or [montoIndex] is an index
    from 1 to the last one, the token there stops the scan and [monto]
    is the positive number it parses to. *)
Theorem escanear_invariant (args : list jsstring) :
  let st := escanear cfg args in
  metodo_valido cfg (Escaneo.metodoPago st)
  /\ ((Escaneo.monto st = None /\ Escaneo.montoIndex st = (-1)%Z)
      \/ exists k,
          1 <= k < List.length args
          /\ Escaneo.montoIndex st = Z.of_nat k
          /\ Escaneo.monto st = Some (numero_de (nth k args []))
          /\ detiene cfg (nth k args []) = true
          /\ es_monto (numero_de (nth k args [])) = true).
Proof. exact (escanear_invariant_lema args). Qed.

Lemma es_monto_no_falsy n : es_monto n = true -> num_falsy n = false.
Proof.
  unfold es_monto, num_falsy, gt, Num.seq. intros H.
  apply andb_prop in H as [Hn Hg]. apply negb_true_iff in Hn. rewrite Hn.
  destruct (cmp n (num 0)) as [[| |] |]; try discriminate. reflexivity.
Qed.

Lemma responder_fallo_forma e :
  exists r,
    responder_fallo e = reply r
    /\ (r = NoConexionCuzoNet \/ r = SinClientesRegistrados
        \/ r = ErrorConsultaAPI).
Proof.
  unfold responder_fallo. destruct e as [m | | resp]; eauto.
  destruct (str_eqb m (lit "NO_CONEXION")); [eauto |].
  destruct (str_eqb m (lit "SIN_CLIENTES")); eauto.
Qed.

(** The lookup shared by the payment and the query commands: one GET,
    and either a result that respects [buscarCliente_sound_lema] or one
    failure text. *)
Lemma buscar_o_responder_casos identificador w :
  (exists r,
      buscar_o_responder identificador w
      = ([Peticion GET_clientes; Reply r], inl None)
      /\ (r = NoConexionCuzoNet \/ r = SinClientesRegistrados
          \/ r = ErrorConsultaAPI))
  \/ (exists res,
      buscar_o_responder identificador w
      = ([Peticion GET_clientes], inl (Some res))
      /\ snd (buscarCliente identificador w) = inl res).
Proof.
  destruct (fallo_de (Registro.get_clientes w)) as [e |] eqn:Hf.
  - left. destruct (responder_fallo_forma e) as (r & Hr & Hcases).
    exists r. split; [| exact Hcases].
    unfold buscar_o_responder, try_catch, bind at 1.
    rewrite buscarCliente_run, Hf. unfold bind. rewrite Hr. reflexivity.
  - right. eexists. split; [apply (buscar_o_responder_ok _ w Hf) |].
    rewrite buscarCliente_run, Hf. reflexivity.
Qed.

Lemma registrar_pago_casos c st monto w :
  exists r,
    registrar_pago (Single c) st monto w
    = ([Peticion (POST_pago
          (Pago.Build (Cliente.id c) monto (Escaneo.metodoPago st)
             (Escaneo.referencia st) (lit "Registrado via WhatsApp Bot")
             (lit "whatsapp-bot")));
        Reply r], inl tt)
    /\ ((exists b, r = PagoRegistrado c monto (Escaneo.metodoPago st)
                         (Escaneo.referencia st) b)
        \/ (exists e, r = ErrorAlRegistrarPago e)
        \/ r = PagoNoConexion).
Proof.
  unfold registrar_pago, try_catch, bind, uno_de, axios_post_pago, settle.
  cbn [ret app].
  match goal with |- context [Registro.post_pago w ?d] =>
    destruct (Registro.post_pago w d) as [[data |] | resp] end; cbn.
  - destruct (Cuerpo.success data); cbn; eexists; split; eauto.
  - eexists; split; eauto.
  - eexists; split; eauto.
Qed.

Lemma procesarPago_casos_lema (args : list jsstring) (w : Registro.t) :
  let st := escanear cfg args in
  let ident := identificador_de args st in
  (exists r,
      procesarPago cfg args w = ([Reply r], inl tt)
      /\ ((r = FormatoPagoIncorrecto /\ List.length args < 2)
          \/ r = MontoNoIdentificado
          \/ (r = FaltaIdentificador /\ ident = []
              /\ Escaneo.monto st <> None)))
  \/ (exists r,
      procesarPago cfg args w = ([Peticion GET_clientes; Reply r], inl tt)
      /\ (r = NoConexionCuzoNet \/ r = SinClientesRegistrados
          \/ r = ErrorConsultaAPI \/ r = PagoClienteNoEncontrado ident
          \/ exists l, r = PagoVariosClientes l
                       /\ 2 <= List.length l <= 5))
  \/ (exists c m r,
      2 <= List.length args
      /\ Escaneo.monto st = Some m
      /\ snd (buscarCliente ident w) = inl (Single c)
      /\ procesarPago cfg args w
         = ([Peticion GET_clientes;
             Peticion (POST_pago
               (Pago.Build (Cliente.id c) m (Escaneo.metodoPago st)
                  (Escaneo.referencia st) (lit "Registrado via WhatsApp Bot")
                  (lit "whatsapp-bot")));
             Reply r], inl tt)
      /\ ((exists b, r = PagoRegistrado c m (Escaneo.metodoPago st)
                           (Escaneo.referencia st) b)
          \/ (exists e, r = ErrorAlRegistrarPago e)
          \/ r = PagoNoConexion)).
Proof.
  intros st ident. unfold procesarPago. fold st. fold ident.
  destruct (Nat.ltb (List.length args) 2) eqn:Hlen.
  { apply Nat.ltb_lt in Hlen. left; eexists; split; [reflexivity | auto]. }
  apply Nat.ltb_ge in Hlen.
  destruct (Escaneo.monto st) as [m |] eqn:Hm;
    [| left; eexists; split; [reflexivity | auto]].
  destruct (num_falsy m || _)%bool;
    [left; eexists; split; [reflexivity | auto] |].
  destruct (truthy ident) eqn:Hid; cbn [negb].
  2:{ left; eexists; split; [reflexivity |]. right; right.
      repeat split; [| discriminate].
      destruct ident; [reflexivity | discriminate]. }
  unfold bind.
  destruct (buscar_o_responder_casos ident w)
    as [(r & -> & Hr) | (res & -> & Hres)].
  - right; left. exists r. split; [reflexivity | tauto].
  - pose proof (buscarCliente_sound_lema ident w) as Hs. cbv zeta in Hs.
    rewrite Hres in Hs.
    destruct res as [c | [| c1 [| c2 l]] |].
    + right; right.
      destruct (registrar_pago_casos c st m w) as (r & Hrun & Hr).
      exists c, m, r. rewrite Hrun. repeat split; auto.
    + destruct Hs as (_ & Hl & _). simpl in Hl. lia.
    + destruct Hs as (_ & Hl & _). simpl in Hl. lia.
    + right; left. eexists. split; [reflexivity |].
      do 4 right. eexists. split; [reflexivity |].
      destruct l as [| c3 [| c4 [| c5 l']]]; simpl; lia.
    + right; left. eexists. split; [reflexivity |]. auto 8.
Qed.

(** X14. The payment command does one of three things: it answers
    without contacting the registry (bad format, no amount, no
    identifier); it fetches the roster and answers that the fetch
    failed, that nobody or that several clients match (two to five are
    listed); or, when exactly one client is resolved, it posts one
    payment for that client, with the scanned amount, method and
    reference and the tag "whatsapp-bot", and answers once. *)
Theorem procesarPago_casos (args : list jsstring) (w : Registro.t) :
  let st := escanear cfg args in
  let ident := identificador_de args st in
  (exists r,
      procesarPago cfg args w = ([Reply r], inl tt)
      /\ ((r = FormatoPagoIncorrecto /\ List.length args < 2)
          \/ r = MontoNoIdentificado
          \/ (r = FaltaIdentificador /\ ident = []
              /\ Escaneo.monto st <> None)))
  \/ (exists r,
      procesarPago cfg args w = ([Peticion GET_clientes; Reply r], inl tt)
      /\ (r = NoConexionCuzoNet \/ r = SinClientesRegistrados
          \/ r = ErrorConsultaAPI \/ r = PagoClienteNoEncontrado ident
          \/ exists l, r = PagoVariosClientes l
                       /\ 2 <= List.length l <= 5))
  \/ (exists c m r,
      2 <= List.length args
      /\ Escaneo.monto st = Some m
      /\ snd (buscarCliente ident w) = inl (Single c)
      /\ procesarPago cfg args w
         = ([Peticion GET_clientes;
             Peticion (POST_pago
               (Pago.Build (Cliente.id c) m (Escaneo.metodoPago st)
                  (Escaneo.referencia st) (lit "Registrado via WhatsApp Bot")
                  (lit "whatsapp-bot")));
             Reply r], inl tt)
      /\ ((exists b, r = PagoRegistrado c m (Escaneo.metodoPago st)
                           (Escaneo.referencia st) b)
          \/ (exists e, r = ErrorAlRegistrarPago e)
          \/ r = PagoNoConexion)).
Proof. exact (procesarPago_casos_lema args w). Qed.

End Casos.

Section CasosMas.

Context {U : Unicode}.
Variable cfg : Config.t.

(** X15. A payment command never changes a client record, and a
    payment it posts has a positive amount, a method that is "efectivo"
    or a configured one, the tag "whatsapp-bot", and the id of a client
    of the roster just fetched. *)
Theorem pago_seguro (args : list jsstring) (w : Registro.t) :
  Forall (fun q =>
            match q with
            | GET_clientes => True
            | POST_pago p =>
                es_monto (Pago.monto p) = true
                /\ metodo_valido cfg (Pago.metodo_pago p)
                /\ Pago.registrado_por p = lit "whatsapp-bot"
                /\ exists c, In c (lista_de (Registro.get_clientes w))
                             /\ Pago.cliente_id p = Cliente.id c
            | _ => False
            end)
         (peticiones (fst (procesarPago cfg args w))).
Proof.
  destruct (procesarPago_casos_lema cfg args w)
    as [(r & -> & _) | [(r & -> & _) | (c & m & r & _ & Hm & Hres & -> & _)]];
    cbn [fst peticiones flat_map app].
  { constructor. }
  { constructor; [exact I | constructor]. }
  constructor; [exact I |]. constructor; [| constructor].
  cbn [Pago.monto Pago.metodo_pago Pago.registrado_por Pago.cliente_id].
  split; [| split; [| split; [reflexivity |]]].
  - destruct (escanear_invariant_lema cfg args)
      as [_ [[Hnone _] | (k & _ & _ & Hsome & _ & Hpos)]].
    + rewrite Hnone in Hm. discriminate.
    + rewrite Hsome in Hm. injection Hm as <-. exact Hpos.
  - apply (proj1 (escanear_invariant_lema cfg args)).
  - pose proof (buscarCliente_sound_lema
                  (identificador_de args (escanear cfg args)) w) as Hs.
    cbv zeta in Hs. rewrite Hres in Hs. destruct Hs as [Hin _].
    exists c. auto.
Qed.

Lemma join_no_vacio sep a l : a <> [] -> join sep (a :: l) <> [].
Proof.
  intros Ha. destruct a as [| x a]; [contradiction |].
  destruct l; simpl; discriminate.
Qed.

(** X16. When no word of a payment command is empty, as is the case
    for the words the listener cuts, the command never answers that the
    client identifier is missing. *)
Theorem identificador_presente (args : list jsstring) (w : Registro.t) :
  Forall (fun tok => tok <> []) args ->
  ~ In (Reply FaltaIdentificador) (fst (procesarPago cfg args w)).
Proof.
  intros Hargs.
  destruct (procesarPago_casos_lema cfg args w)
    as [(r & -> & Hr) | [(r & -> & Hr) | (c & m & r & _ & _ & _ & -> & Hr)]];
    cbn [fst In]; intros Hin.
  - destruct Hin as [Hin | []]. injection Hin as ->.
    destruct Hr as [[Hr _] | [Hr | (_ & Hid & Hm)]]; try discriminate.
    destruct (escanear_invariant_lema cfg args)
      as [_ [[Hnone _] | (k & Hk & Hi & _)]]; [contradiction |].
    unfold identificador_de in Hid. rewrite Hi, Nat2Z.id in Hid.
    destruct args as [| a args']; [simpl in Hk; lia |].
    destruct k as [| k']; [lia |]. simpl firstn in Hid.
    inversion Hargs as [| ? ? Ha _]; subst.
    apply (join_no_vacio (lit " ") a (firstn k' args') Ha Hid).
  - destruct Hin as [Hin | [Hin | []]]; [discriminate |].
    injection Hin as ->.
    destruct Hr as [Hr | [Hr | [Hr | [Hr | (l & Hr & _)]]]]; discriminate.
  - destruct Hin as [Hin | [Hin | [Hin | []]]]; try discriminate.
    injection Hin as ->.
    destruct Hr as [[b Hr] | [[e Hr] | Hr]]; discriminate.
Qed.

Lemma consultarCliente_casos_lema (args : list jsstring) (w : Registro.t) :
  let ident := join (lit " ") args in
  (args = [] /\ consultarCliente args w = ([Reply UsoConsulta], inl tt))
  \/ (args <> []
      /\ exists r,
        consultarCliente args w = ([Peticion GET_clientes; Reply r], inl tt)
        /\ (r = NoConexionCuzoNet \/ r = SinClientesRegistrados
            \/ r = ErrorConsultaAPI \/ r = ConsultaNoEncontrado ident
            \/ (exists l, r = ConsultaVariosClientes l
                          /\ 2 <= List.length l <= 10)
            \/ (exists c, r = InformacionCliente c
                          /\ snd (buscarCliente ident w) = inl (Single c)))).
Proof.
  intros ident. unfold consultarCliente.
  destruct args as [| a args']; [left; split; reflexivity |].
  right. split; [discriminate |].
  cbn [List.length Nat.ltb Nat.leb]. fold ident. unfold bind.
  destruct (buscar_o_responder_casos ident w)
    as [(r & -> & Hr) | (res & -> & Hres)].
  - exists r. split; [reflexivity | tauto].
  - pose proof (buscarCliente_sound_lema ident w) as Hs. cbv zeta in Hs.
    rewrite Hres in Hs.
    destruct res as [c | [| c1 [| c2 l]] |].
    + eexists. split; [reflexivity |]. do 5 right. eauto.
    + destruct Hs as (_ & Hl & _). simpl in Hl. lia.
    + destruct Hs as (_ & Hl & _). simpl in Hl. lia.
    + eexists. split; [reflexivity |]. do 4 right. left.
      eexists. split; [reflexivity |].
      rewrite length_firstn. cbn [List.length]. lia.
    + eexists. split; [reflexivity |]. auto 8.
Qed.

(** X17. The query command only reads: without words it answers with
    its usage and contacts nothing; otherwise it fetches the roster
    once and answers with the failure of the fetch, with "not found",
    with a list of two to ten matches, or with the card of the one
    client that [buscarCliente] returned. *)
Theorem consultarCliente_casos (args : list jsstring) (w : Registro.t) :
  let ident := join (lit " ") args in
  (args = [] /\ consultarCliente args w = ([Reply UsoConsulta], inl tt))
  \/ (args <> []
      /\ exists r,
        consultarCliente args w = ([Peticion GET_clientes; Reply r], inl tt)
        /\ (r = NoConexionCuzoNet \/ r = SinClientesRegistrados
            \/ r = ErrorConsultaAPI \/ r = ConsultaNoEncontrado ident
            \/ (exists l, r = ConsultaVariosClientes l
                          /\ 2 <= List.length l <= 10)
            \/ (exists c, r = InformacionCliente c
                          /\ snd (buscarCliente ident w) = inl (Single c)))).
Proof. exact (consultarCliente_casos_lema args w). Qed.

End CasosMas.

Lemma identificador_presente_witness :
  ~ In (Reply FaltaIdentificador)
       (fst (@procesarPago ascii_host CONFIG [lit "Juan"; lit "200"]
               (registro_con [cliente_juan]))).
Proof.
  apply (@identificador_presente ascii_host CONFIG [lit "Juan"; lit "200"]
           (registro_con [cliente_juan])).
  repeat constructor; discriminate.
Defined.

(** ** The upsert, case by case *)

Lemma crear_casos nombre f w :
  exists r,
    try_catch (crear nombre f) responder_error_cliente w
    = ([Peticion (POST_cliente (datosNuevo nombre f)); Reply r], inl tt)
    /\ (r = ClienteRegistrado (datosNuevo nombre f)
        \/ (exists e, r = ErrorAlCrear e)
        \/ (exists e, r = ErrorProcesarCliente e)
        \/ r = ClienteNoConexion).
Proof.
  unfold try_catch, crear, bind, axios_post_cliente, settle.
  destruct (Registro.post_cliente w (datosNuevo nombre f))
    as [[data |] | [[data |] |]]; simpl.
  - destruct (Cuerpo.success data); simpl; eexists; split; eauto.
  - eexists; split; eauto.
  - eexists; split; eauto 6.
  - eexists; split; eauto.
  - eexists; split; eauto.
Qed.

Lemma actualizar_casos nombre f c w :
  exists r,
    try_catch (actualizar nombre f c) responder_error_cliente w
    = ([Peticion (PUT_cliente (Cliente.id c) (datosActualizar nombre f));
        Reply r], inl tt)
    /\ (r = ClienteActualizado nombre (Campos.ip f)
              (cambiosTexto (cambios_de nombre f c))
        \/ (exists e, r = ErrorAlActualizar e)
        \/ (exists e, r = ErrorProcesarCliente e)
        \/ r = ClienteNoConexion).
Proof.
  unfold try_catch, actualizar, bind, axios_put_cliente, settle.
  destruct (Registro.put_cliente w (Cliente.id c) (datosActualizar nombre f))
    as [[data |] | [[data |] |]]; simpl.
  - destruct (Cuerpo.success data); simpl; eexists; split; eauto.
  - eexists; split; eauto.
  - eexists; split; eauto 6.
  - eexists; split; eauto.
  - eexists; split; eauto.
Qed.

Lemma existente_some ip r c :
  existente ip r = Some c ->
  In c (lista_de r) /\ Cliente.ip_address c = ip.
Proof.
  unfold existente, lista_de. destruct r as [[data |] | resp]; try discriminate.
  destruct (Cuerpo.success data); [| discriminate].
  destruct (Cuerpo.clientes data) as [clientes |]; [| discriminate].
  intros H. apply find_some in H as [Hin Heq]. apply str_eqb_eq in Heq. auto.
Qed.

Lemma existente_none ip r :
  existente ip r = None ->
  consulta_fallida r
  \/ forall c, In c (lista_de r) -> Cliente.ip_address c <> ip.
Proof.
  unfold existente, lista_de, consulta_fallida.
  destruct r as [[data |] | resp]; auto.
  destruct (Cuerpo.success data); [| auto].
  destruct (Cuerpo.clientes data) as [clientes |]; [| right; intros c []].
  intros H. right. intros c Hin Heq.
  pose proof (find_none _ _ H c Hin) as Hc. cbn beta in Hc.
  rewrite Heq, (proj2 (str_eqb_eq _ _) eq_refl) in Hc. discriminate.
Qed.

Lemma registrarCliente_casos_lema (args : list jsstring) (w : Registro.t) :
  (exists r,
      registrarCliente args w = ([Reply r], inl tt)
      /\ (r = FormatoClienteIncorrecto \/ r = IPNoDetectada))
  \/ (exists nombre resto r,
      campos_de args = nombre :: resto
      /\ esIP (Campos.ip (clasificar resto)) = true
      /\ ((exists c,
            In c (lista_de (Registro.get_clientes w))
            /\ Cliente.ip_address c = Campos.ip (clasificar resto)
            /\ registrarCliente args w
               = ([Peticion GET_clientes;
                   Peticion (PUT_cliente (Cliente.id c)
                               (datosActualizar nombre (clasificar resto)));
                   Reply r], inl tt)
            /\ (r = ClienteActualizado nombre (Campos.ip (clasificar resto))
                      (cambiosTexto
                         (cambios_de nombre (clasificar resto) c))
                \/ (exists e, r = ErrorAlActualizar e)
                \/ (exists e, r = ErrorProcesarCliente e)
                \/ r = ClienteNoConexion))
          \/ ((consulta_fallida (Registro.get_clientes w)
               \/ forall c, In c (lista_de (Registro.get_clientes w)) ->
                    Cliente.ip_address c <> Campos.ip (clasificar resto))
              /\ registrarCliente args w
                 = ([Peticion GET_clientes;
                     Peticion (POST_cliente
                                 (datosNuevo nombre (clasificar resto)));
                     Reply r], inl tt)
              /\ (r = ClienteRegistrado (datosNuevo nombre (clasificar resto))
                  \/ (exists e, r = ErrorAlCrear e)
                  \/ (exists e, r = ErrorProcesarCliente e)
                  \/ r = ClienteNoConexion)))).
Proof.
  destruct (campos_de args) as [| nombre [| c1 resto]] eqn:Hc.
  - left. unfold registrarCliente. rewrite Hc. eexists. split; [reflexivity |].
    auto.
  - left. unfold registrarCliente. rewrite Hc. eexists. split; [reflexivity |].
    auto.
  - destruct (truthy (Campos.ip (clasificar (c1 :: resto)))) eqn:Hip.
    + right.
      assert (Hes : esIP (Campos.ip (clasificar (c1 :: resto))) = true).
      { destruct (clasificar_ip (c1 :: resto)) as [H | H]; [| exact H].
        rewrite H in Hip. discriminate. }
      rewrite (registrarCliente_run args nombre (c1 :: resto) w Hc
                 ltac:(discriminate) Hip).
      destruct (existente _ _) as [c |] eqn:He.
      * destruct (actualizar_casos nombre (clasificar (c1 :: resto)) c w)
          as (r & -> & Hr).
        apply existente_some in He as [Hin Heq].
        exists nombre, (c1 :: resto), r. repeat split; auto.
        left. exists c. repeat split; auto.
      * destruct (crear_casos nombre (clasificar (c1 :: resto)) w)
          as (r & -> & Hr).
        apply existente_none in He.
        exists nombre, (c1 :: resto), r. repeat split; auto.
    + left. unfold registrarCliente. rewrite Hc.
      cbn [List.length Nat.ltb Nat.leb nth skipn].
      rewrite (campos_de_truthy _ _ _ Hc), Hip.
      eexists. split; [reflexivity | auto].
Qed.

(** X18. The client command does one of three things. It answers with
    the format help or the missing-IP text and contacts nothing (the
    missing-name text is never sent). Or it fetches the roster, finds a
    record with the classified IP and sends one update for that
    record's id. Or, the fetch having failed or no record having that
    IP, it sends one create with the classified fields. The classified
    IP is then a dotted quad, and there is one reply. *)
Theorem registrarCliente_casos (args : list jsstring) (w : Registro.t) :
  (exists r,
      registrarCliente args w = ([Reply r], inl tt)
      /\ (r = FormatoClienteIncorrecto \/ r = IPNoDetectada))
  \/ (exists nombre resto r,
      campos_de args = nombre :: resto
      /\ esIP (Campos.ip (clasificar resto)) = true
      /\ ((exists c,
            In c (lista_de (Registro.get_clientes w))
            /\ Cliente.ip_address c = Campos.ip (clasificar resto)
            /\ registrarCliente args w
               = ([Peticion GET_clientes;
                   Peticion (PUT_cliente (Cliente.id c)
                               (datosActualizar nombre (clasificar resto)));
                   Reply r], inl tt)
            /\ (r = ClienteActualizado nombre (Campos.ip (clasificar resto))
                      (cambiosTexto
                         (cambios_de nombre (clasificar resto) c))
                \/ (exists e, r = ErrorAlActualizar e)
                \/ (exists e, r = ErrorProcesarCliente e)
                \/ r = ClienteNoConexion))
          \/ ((consulta_fallida (Registro.get_clientes w)
               \/ forall c, In c (lista_de (Registro.get_clientes w)) ->
                    Cliente.ip_address c <> Campos.ip (clasificar resto))
              /\ registrarCliente args w
                 = ([Peticion GET_clientes;
                     Peticion (POST_cliente
                                 (datosNuevo nombre (clasificar resto)));
                     Reply r], inl tt)
              /\ (r = ClienteRegistrado (datosNuevo nombre (clasificar resto))
                  \/ (exists e, r = ErrorAlCrear e)
                  \/ (exists e, r = ErrorProcesarCliente e)
                  \/ r = ClienteNoConexion)))).
Proof. exact (registrarCliente_casos_lema args w). Qed.

(** ** The shape of every log *)

Section Forma.

Context {U : Unicode}.
Variable cfg : Config.t.

Lemma forma_procesarPago args w :
  snd (procesarPago cfg args w) = inl tt
  /\ forma_traza (fst (procesarPago cfg args w)) = true.
Proof.
  destruct (procesarPago_casos_lema cfg args w)
    as [(r & -> & Hr) | [(r & -> & Hr) | (c & m & r & _ & _ & _ & -> & Hr)]];
    split; try reflexivity; cbn.
  - destruct Hr as [[-> _] | [-> | (-> & _)]]; reflexivity.
  - destruct Hr as [-> | [-> | [-> | [-> | (l & -> & _)]]]]; reflexivity.
  - destruct Hr as [[b ->] | [[e ->] | ->]]; reflexivity.
Qed.

Lemma forma_consultarCliente args w :
  snd (consultarCliente args w) = inl tt
  /\ forma_traza (fst (consultarCliente args w)) = true.
Proof.
  destruct (consultarCliente_casos_lema args w)
    as [[_ ->] | (_ & r & -> & Hr)]; split; try reflexivity; cbn.
  destruct Hr as [-> | [-> | [-> | [-> | [(l & -> & _) | (c & -> & _)]]]]];
    reflexivity.
Qed.

Lemma forma_registrarCliente args w :
  snd (registrarCliente args w) = inl tt
  /\ forma_traza (fst (registrarCliente args w)) = true.
Proof.
  destruct (registrarCliente_casos_lema args w)
    as [(r & -> & Hr)
       | (nombre & resto & r & _ & _
          & [(c & _ & _ & -> & Hr) | (_ & -> & Hr)])];
    split; try reflexivity; cbn.
  - destruct Hr as [-> | ->]; reflexivity.
  - destruct Hr as [-> | [[e ->] | [[e ->] | ->]]]; reflexivity.
  - destruct Hr as [-> | [[e ->] | [[e ->] | ->]]]; reflexivity.
Qed.

(** X19. Whatever the message and the registry, the listener returns
    normally and its log is empty, or one reply, or the roster fetch
    and one reply, or the roster fetch, one change (a payment, a create
    or an update) and one reply: never more than two requests, never a
    change before the fetch, and never the internal-error text. *)
Theorem message_create_forma (message : Message.t) (w : Registro.t) :
  snd (message_create cfg message w) = inl tt
  /\ forma_traza (fst (message_create cfg message w)) = true.
Proof.
  unfold message_create. rewrite despachar_seleccion. unfold try_catch.
  destruct (ignorado cfg message); [split; reflexivity |].
  assert (H : snd (seleccion (handlers cfg) message w) = inl tt
              /\ forma_traza (fst (seleccion (handlers cfg) message w)) = true).
  { unfold seleccion. destruct (split_ws _) as [| p0 partes];
      [split; reflexivity |].
    cbn [handlers Handlers.procesarPago Handlers.registrarCliente
         Handlers.consultarCliente Handlers.mostrarAyuda].
    repeat match goal with |- context [if ?b then _ else _] => destruct b end;
      auto using forma_procesarPago, forma_consultarCliente,
        forma_registrarCliente; split; reflexivity. }
  destruct (seleccion (handlers cfg) message w) as [l [[] | e]];
    cbn [fst snd] in *; [exact H |].
  destruct H as [H _]. discriminate.
Qed.

End Forma.

(** ** What is sent to the registry for a client *)

Lemma clasificar_telefono resto :
  Campos.telefono (clasificar resto) = []
  \/ esTelefono (Campos.telefono (clasificar resto)) = true.
Proof.
  destruct (ultimo_gana_lema resto) as (_ & -> & _).
  destruct (find rama_telefono (rev resto)) as [c |] eqn:Hf; [| auto].
  right. apply find_some in Hf as [_ Hc]. unfold rama_telefono in Hc.
  apply andb_prop in Hc as [_ Hc]. exact Hc.
Qed.

(** X20. A client command never posts a payment, and what it sends is
    well formed: the name is not empty; an update goes to the id of a
    roster record, carries a price only if it is at least 50, a billing
    day in [1, 28] and a telefono only if it passes the telefono test;
    a create carries a dotted-quad IP, a billing day in [1, 28], a
    price that is 0 or at least 50 and a telefono that is empty or
    passes the telefono test. *)
Theorem cliente_seguro (args : list jsstring) (w : Registro.t) :
  Forall (fun q =>
            match q with
            | GET_clientes => True
            | PUT_cliente id d =>
                (exists c, In c (lista_de (Registro.get_clientes w))
                           /\ id = Cliente.id c)
                /\ Datos.nombre d <> []
                /\ (forall p, Datos.precio_mensual d = Some p ->
                      ge p (num 50) = true)
                /\ ge (Datos.dia_corte d) (num 1)
                   && le (Datos.dia_corte d) (num 28) = true
                /\ (forall t, Datos.telefono d = Some t -> esTelefono t = true)
            | POST_cliente n =>
                esIP (Nuevo.ip_address n) = true
                /\ Nuevo.nombre n <> []
                /\ (Nuevo.precio_mensual n = num 0
                    \/ ge (Nuevo.precio_mensual n) (num 50) = true)
                /\ ge (Nuevo.dia_corte n) (num 1)
                   && le (Nuevo.dia_corte n) (num 28) = true
                /\ (Nuevo.telefono n = [] \/ esTelefono (Nuevo.telefono n) = true)
            | POST_pago _ => False
            end)
         (peticiones (fst (registrarCliente args w))).
Proof.
  destruct (registrarCliente_casos_lema args w)
    as [(r & -> & _)
       | (nombre & resto & r & Hc & Hes
          & [(c & Hin & _ & -> & _) | (_ & -> & _)])];
    cbn [fst peticiones flat_map app].
  { constructor. }
  - assert (Hn : nombre <> []).
    { pose proof (campos_de_truthy _ _ _ Hc) as Ht.
      intros ->. discriminate Ht. }
    destruct (clasificar_rangos_lema resto) as [Hd Hp].
    constructor; [exact I |]. constructor; [| constructor].
    unfold datosActualizar.
    cbn [Datos.nombre Datos.precio_mensual Datos.dia_corte Datos.telefono].
    split; [eauto |]. split; [exact Hn |]. split; [| split; [exact Hd |]].
    + intros p. destruct Hp as [-> | Hp].
      * vm_compute. discriminate.
      * destruct (gt (Campos.precio (clasificar resto)) (num 0));
          [| discriminate].
        intros H. injection H as <-. exact Hp.
    + intros t. destruct (clasificar_telefono resto) as [-> | Ht].
      * simpl. discriminate.
      * destruct (truthy (Campos.telefono (clasificar resto)));
          [| discriminate].
        intros H. injection H as <-. exact Ht.
  - assert (Hn : nombre <> []).
    { pose proof (campos_de_truthy _ _ _ Hc) as Ht.
      intros ->. discriminate Ht. }
    destruct (clasificar_rangos_lema resto) as [Hd Hp].
    constructor; [exact I |]. constructor; [| constructor].
    unfold datosNuevo.
    cbn [Nuevo.ip_address Nuevo.nombre Nuevo.precio_mensual Nuevo.dia_corte
         Nuevo.telefono].
    repeat split; auto. apply clasificar_telefono.
Qed.

(** ** The speeds of a plan *)

Lemma match_velocidad_digitos s d :
  match_velocidad s = Some d -> d <> [] /\ forallb is_digit d = true.
Proof.
  induction s as [| c s IH]; [discriminate |].
  cbn [match_velocidad]. set (d0 := takeWhile is_digit (c :: s)).
  destruct (truthy d0 && _) eqn:H.
  - intros E. injection E as <-. apply andb_prop in H as [Ht _]. split.
    + intros E. rewrite E in Ht. discriminate Ht.
    + unfold d0. clear. generalize (c :: s) as t.
      induction t as [| x t IHt]; simpl; [reflexivity |].
      destruct (is_digit x) eqn:Hx; simpl; [rewrite Hx; exact IHt | reflexivity].
  - exact IH.
Qed.

Lemma clasificar_campo_velocidades f c :
  Campos.velocidadDown (clasificar_campo f c)
  = (if rama_plan c then
       match match_velocidad c with
       | Some v => v ++ lit "M"
       | None => Campos.velocidadDown f
       end
     else Campos.velocidadDown f)
  /\ Campos.velocidadUp (clasificar_campo f c)
     = (if rama_plan c then
          match match_velocidad c with
          | Some v => v ++ lit "M"
          | None => Campos.velocidadUp f
          end
        else Campos.velocidadUp f).
Proof.
  unfold clasificar_campo, rama_plan. destruct (esIP c); [auto |].
  destruct (esPlan c); [destruct (match_velocidad c); auto |].
  destruct (esTelefono c); [auto |]. cbn [negb andb].
  destruct (esNumero c).
  - destruct (clasificar_numero_plan f c) as (_ & -> & ->). auto.
  - destruct (tieneLetra c); [| auto].
    destruct (truthy (Campos.direccion f)); auto.
Qed.

Lemma takeWhile_dropWhile (p : cu -> bool) (l : jsstring) :
  takeWhile p l ++ dropWhile p l = l.
Proof.
  induction l as [| x l IH]; simpl; [reflexivity |].
  destruct (p x); simpl; [rewrite IH |]; reflexivity.
Qed.

(** Where the speed pattern matches: the group is a run of digits of
    the segment, and what follows it is optional white space and "mbps"
    in any case. *)
Lemma match_velocidad_forma s d :
  match_velocidad s = Some d ->
  exists antes cola,
    s = antes ++ d ++ cola /\ matches cola_mbps cola = true.
Proof.
  induction s as [| c s IH]; [discriminate |].
  cbn [match_velocidad]. set (d0 := takeWhile is_digit (c :: s)).
  destruct (truthy d0 && _) eqn:H.
  - intros E. injection E as <-. apply andb_prop in H as [_ Hm].
    exists [], (dropWhile is_digit (c :: s)). split; [| exact Hm].
    unfold d0. symmetry. apply takeWhile_dropWhile.
  - intros E. destruct (IH E) as (antes & cola & -> & Hm).
    exists (c :: antes), cola. split; [reflexivity | exact Hm].
Qed.

Lemma clasificar_campo_velocidad_de f c :
  Campos.velocidadDown (clasificar_campo f c)
  = (if menciona_velocidad c then velocidad_de c else Campos.velocidadDown f)
  /\ Campos.velocidadUp (clasificar_campo f c)
     = (if menciona_velocidad c then velocidad_de c else Campos.velocidadUp f).
Proof.
  destruct (clasificar_campo_velocidades f c) as [-> ->].
  unfold menciona_velocidad, velocidad_de.
  destruct (rama_plan c); [| auto].
  destruct (match_velocidad c); auto.
Qed.

(** X21. The download and the upload speed are always equal, and are
    those of the last segment under the plan rule that mentions digits
    followed by "mbps": both are those digits followed by "M", and both
    are ["7M"] when no such segment exists. Segments of any other kind,
    and plan segments without such a mention, leave the speeds as they
    are; so a later plan without a mention changes the plan and keeps
    the speeds. *)
Theorem velocidades_del_plan (resto : list jsstring) :
  Campos.velocidadDown (clasificar resto)
  = match find menciona_velocidad (rev resto) with
    | Some c => velocidad_de c
    | None => lit "7M"
    end
  /\ Campos.velocidadUp (clasificar resto)
     = match find menciona_velocidad (rev resto) with
       | Some c => velocidad_de c
       | None => lit "7M"
       end
  /\ Campos.velocidadDown (clasificar resto) = Campos.velocidadUp (clasificar resto)
  /\ (forall c, menciona_velocidad c = true ->
        exists antes d cola,
          c = antes ++ d ++ cola
          /\ d <> [] /\ forallb is_digit d = true
          /\ matches cola_mbps cola = true
          /\ velocidad_de c = d ++ lit "M")
  /\ forall plan1 plan2 d,
       rama_plan plan1 = true -> match_velocidad plan1 = Some d ->
       rama_plan plan2 = true -> match_velocidad plan2 = None ->
       Campos.plan (clasificar (resto ++ [plan1; plan2])) = plan2
       /\ Campos.velocidadDown (clasificar (resto ++ [plan1; plan2]))
          = d ++ lit "M"
       /\ Campos.velocidadUp (clasificar (resto ++ [plan1; plan2]))
          = d ++ lit "M".
Proof.
  split; [| split; [| split; [| split]]].
  - unfold clasificar.
    apply (fold_ultimo Campos.velocidadDown menciona_velocidad velocidad_de
             (fun f c => proj1 (clasificar_campo_velocidad_de f c))).
  - unfold clasificar.
    apply (fold_ultimo Campos.velocidadUp menciona_velocidad velocidad_de
             (fun f c => proj2 (clasificar_campo_velocidad_de f c))).
  - apply clasificar_inv; [reflexivity |].
    intros f c _ Hf. destruct (clasificar_campo_velocidades f c) as [-> ->].
    rewrite Hf. reflexivity.
  - intros c Hc. unfold menciona_velocidad in Hc.
    apply andb_prop in Hc as [_ Hc]. unfold velocidad_de.
    destruct (match_velocidad c) as [d |] eqn:Hd; [| discriminate Hc].
    destruct (match_velocidad_forma c d Hd) as (antes & cola & Heq & Hm).
    destruct (match_velocidad_digitos c d Hd) as [Hne Hdig].
    exists antes, d, cola. auto.
  - intros plan1 plan2 d H1 Hd H2 Hn. unfold clasificar.
    rewrite fold_left_app. cbn [fold_left].
    rewrite clasificar_campo_plan, H2.
    rewrite (proj1 (clasificar_campo_velocidades _ plan2)), H2, Hn.
    rewrite (proj1 (clasificar_campo_velocidades _ plan1)), H1, Hd.
    rewrite (proj2 (clasificar_campo_velocidades _ plan2)), H2, Hn.
    rewrite (proj2 (clasificar_campo_velocidades _ plan1)), H1, Hd. auto.
Qed.

Lemma velocidades_del_plan_witness :
  Campos.plan (clasificar [lit "172.16.1.50"; lit "Basico 10 Mbps";
                           lit "Premium"]) = lit "Premium"
  /\ Campos.velocidadDown (clasificar [lit "172.16.1.50"; lit "Basico 10 Mbps";
                                       lit "Premium"]) = lit "10M"
  /\ Campos.velocidadUp (clasificar [lit "172.16.1.50"; lit "Basico 10 Mbps";
                                     lit "Premium"]) = lit "10M".
Proof.
  exact (proj2 (proj2 (proj2 (proj2 (velocidades_del_plan [lit "172.16.1.50"]))))
           (lit "Basico 10 Mbps") (lit "Premium") (lit "10")
           ltac:(vm_compute; reflexivity) ltac:(vm_compute; reflexivity)
           ltac:(vm_compute; reflexivity) ltac:(vm_compute; reflexivity)).
Defined.

(** A plan with a mention as the only plan segment: the speeds are its
    digits followed by "M", and a telefono after it does not touch them. *)
Example velocidades_de_premium :
  Campos.velocidadDown
    (clasificar [lit "172.16.1.50"; lit "Premium 20 Mbps"; lit "32472792"])
  = lit "20M"
  /\ Campos.velocidadUp
       (clasificar [lit "172.16.1.50"; lit "Premium 20 Mbps"; lit "32472792"])
     = lit "20M"
  /\ find menciona_velocidad
       (rev [lit "172.16.1.50"; lit "Premium 20 Mbps"; lit "32472792"])
     = Some (lit "Premium 20 Mbps").
Proof. vm_compute. repeat split; reflexivity. Qed.

(** ** The two lookups by IP agree *)

Section Acuerdo.

Context {U : Unicode}.

(** X22. On a roster that was fetched, the exact lookup of the upsert
    and the resolver's IP path find the same record for a dotted quad:
    what [!cliente] would update is what [!consulta] and [!pago] show
    for that IP. *)
Theorem existente_resolver (ip : jsstring) (w : Registro.t) (c : Cliente.t) :
  esIP ip = true ->
  fallo_de (Registro.get_clientes w) = None ->
  (existente ip (Registro.get_clientes w) = Some c
   <-> snd (buscarCliente ip w) = inl (Single c)).
Proof.
  intros Hip Hf. rewrite buscarCliente_run, Hf. cbn [snd].
  unfold resolver. rewrite Hip. unfold existente, lista_de, fallo_de in *.
  destruct (Registro.get_clientes w) as [[data |] | resp]; try discriminate.
  destruct (Cuerpo.success data); [| discriminate]. cbn [negb] in Hf.
  destruct (Cuerpo.clientes data) as [clientes |]; [| discriminate].
  destruct (find _ clientes) as [x |]; split; intros H;
    try discriminate; injection H as <-; reflexivity.
Qed.

End Acuerdo.

Lemma existente_resolver_witness :
  snd (@buscarCliente ascii_host (lit "172.16.1.51")
         (registro_con [cliente_juan; cliente_juana]))
  = inl (Single cliente_juana).
Proof.
  apply (proj1 (@existente_resolver ascii_host (lit "172.16.1.51")
                  (registro_con [cliente_juan; cliente_juana]) cliente_juana
                  ltac:(vm_compute; reflexivity) eq_refl)).
  vm_compute. reflexivity.
Defined.
